(** * GCP inventory report generation: a shallow embedding

    The repository holds two programs that do the same job:
    - [src/inventory.py], the stand-alone script (module [Script] below);
    - [src/gcp_inventory/inventory.py], the packaged release (module
      [Package] below).

    Both collect cloud resources, write them to a spreadsheet and upload the
    file.  This development embeds their pure logic (sheet-name sanitising,
    record flattening) and their control flow around the external services
    (resource search, gcloud, pandas, object storage), the latter as
    functions of the answers those services give. *)

From Stdlib Require Import String Ascii ZArith NArith Lia.
From stdpp Require Import base option list gmap sets.

(** ** The Python values the programs handle *)

Module Py.

(** A Python [str] is a sequence of Unicode code points. *)
Abbreviation char := N (only parsing).
Abbreviation str := (list N) (only parsing).

Definition chr (a : ascii) : char := N_of_ascii a.
Definition lit (s : string) : str := map N_of_ascii (list_ascii_of_string s).
Arguments chr a%_char.
Arguments lit s%_string.

(** [len(s)] *)
Definition len (s : str) : Z := Z.of_nat (length s).

(** [s[:n]]; a negative bound counts from the end of the string. *)
Definition slice_to (s : str) (n : Z) : str :=
  if (0 <=? n)%Z then take (Z.to_nat n) s
  else take (Z.to_nat (len s + n)) s.

(** [c in s] for a one-character string [c]. *)
Definition char_in (c : char) (s : str) : bool := bool_decide (c ∈ s).

(** [str.isspace] on one code point: the characters [str.strip()] removes. *)
Definition isspace (c : char) : bool :=
  ((9 <=? c) && (c <=? 13) || (28 <=? c) && (c <=? 32)
   || (c =? 133) || (c =? 160) || (c =? 5760)
   || (8192 <=? c) && (c <=? 8202)
   || (c =? 8232) || (c =? 8233) || (c =? 8239) || (c =? 8287)
   || (c =? 12288))%N.

Fixpoint lstrip (s : str) : str :=
  match s with
  | [] => []
  | c :: s' => if isspace c then lstrip s' else s
  end.
Definition rstrip (s : str) : str := reverse (lstrip (reverse s)).
Definition strip (s : str) : str := rstrip (lstrip s).

(** [x or y] on strings: the empty string is false. *)
Definition str_or (x y : str) : str :=
  match x with [] => y | _ => x end.

(** [str(n)] for a non-negative integer: its decimal digits. *)
Fixpoint digits (fuel : nat) (n : N) : str :=
  match fuel with
  | O => []
  | S f => if (n <? 10)%N then [(48 + n)%N]
           else digits f (n / 10)%N ++ [(48 + n mod 10)%N]
  end.
Definition str_of_int (n : N) : str := digits (S (N.to_nat (N.log2 n))) n.

(** [int(text)] for a text of decimal digits. *)
Definition of_digits (l : str) : N :=
  fold_left (fun acc c => 10 * acc + (c - 48))%N l 0%N.

(** The largest number of elements a CPython container can hold
    ([PY_SSIZE_T_MAX] on a 64-bit build). *)
Definition SSIZE_MAX : N := (2 ^ 63 - 1)%N.
Definition fits (used : gset str) : Prop := (N.of_nat (size used) <= SSIZE_MAX)%N.

(** [while cond(st): st = body(st)], bounded by [fuel] runs of the body. *)
Fixpoint while {St : Type} (fuel : nat) (cond : St -> bool) (body : St -> St)
    (st : St) : option St :=
  if cond st then
    match fuel with
    | O => None
    | S f => while f cond body (body st)
    end
  else Some st.

End Py.

Import Py.

(** ** JSON values and the [json] module

    The records the programs handle are what [json.loads] and
    [MessageToDict] return: [None], booleans, numbers, strings, lists and
    dicts with string keys.  A dict keeps its insertion order, so it is an
    association list whose keys are distinct.  Floating-point arithmetic is
    outside this development: a float is carried as the literal it was read
    from, and no result below depends on how a float is spelled. *)

Module Json.

Unset Elimination Schemes.
Inductive value :=
| VNone
| VBool (b : bool)
| VInt (n : Z)
| VFloat (literal : str)
| VStr (s : str)
| VList (l : list value)
| VDict (d : list (str * value)).
Set Elimination Schemes.

(** [d.get(k)] and [d[k] = v] on an insertion-ordered dict. *)
Fixpoint dict_get {A} (d : list (str * A)) (k : str) : option A :=
  match d with
  | [] => None
  | (k', v) :: d' => if decide (k = k') then Some v else dict_get d' k
  end.

Fixpoint dict_set {A} (d : list (str * A)) (k : str) (v : A) : list (str * A) :=
  match d with
  | [] => [(k, v)]
  | (k', v') :: d' =>
      if decide (k = k') then (k', v) :: d' else (k', v') :: dict_set d' k v
  end.

(** [dict(pairs)] *)
Definition dict_of_pairs {A} (pairs : list (str * A)) : list (str * A) :=
  fold_left (fun d kv => dict_set d kv.1 kv.2) pairs [].

Definition keys {A} (d : list (str * A)) : list str := map fst d.

(** [sep.join(parts)] *)
Fixpoint join (sep : str) (parts : list str) : str :=
  match parts with
  | [] => []
  | [x] => x
  | x :: rest => x ++ sep ++ join sep rest
  end.

(** *** [json.dumps(v, ensure_ascii=False)] *)

Definition quote : char := 34.
Definition backslash : char := 92.

Definition hex_digit (n : N) : char := if (n <? 10)%N then (48 + n)%N else (87 + n)%N.

(** The replacement of one character by [ESCAPE_DCT]: the quote, the
    backslash and the control characters are escaped, the rest is kept. *)
Definition escape_char (c : char) : str :=
  if (c =? 34)%N then [backslash; quote]
  else if (c =? 92)%N then [backslash; backslash]
  else if (c =? 10)%N then backslash :: lit "n"
  else if (c =? 13)%N then backslash :: lit "r"
  else if (c =? 9)%N then backslash :: lit "t"
  else if (c =? 8)%N then backslash :: lit "b"
  else if (c =? 12)%N then backslash :: lit "f"
  else if (c <? 32)%N then
    backslash :: lit "u00" ++ [hex_digit (c / 16)%N; hex_digit (c mod 16)%N]
  else [c].

Definition encode_basestring (s : str) : str :=
  quote :: concat (map escape_char s) ++ [quote].

(** [str(n)] for any integer. *)
Definition str_of_Z (n : Z) : str :=
  if (n <? 0)%Z then chr "-" :: str_of_int (Z.to_N (- n)) else str_of_int (Z.to_N n).

Fixpoint dumps (v : value) : str :=
  match v with
  | VNone => lit "null"
  | VBool b => if b then lit "true" else lit "false"
  | VInt n => str_of_Z n
  | VFloat literal => literal
  | VStr s => encode_basestring s
  | VList l => lit "[" ++ join (lit ", ") (map dumps l) ++ lit "]"
  | VDict d =>
      lit "{" ++
      join (lit ", ")
        (map (fun kv => encode_basestring kv.1 ++ lit ": " ++ dumps kv.2) d)
      ++ lit "}"
  end.

(** *** [json.loads(s)]

    [None] stands for a [JSONDecodeError]. *)

Definition is_ws (c : char) : bool :=
  ((c =? 32) || (c =? 9) || (c =? 10) || (c =? 13))%N.

Fixpoint skip_ws (s : str) : str :=
  match s with
  | [] => []
  | c :: r => if is_ws c then skip_ws r else s
  end.

Definition hex_val (c : char) : option N :=
  if ((48 <=? c) && (c <=? 57))%N then Some (c - 48)%N
  else if ((97 <=? c) && (c <=? 102))%N then Some (c - 87)%N
  else if ((65 <=? c) && (c <=? 70))%N then Some (c - 55)%N
  else None.

(** [_decode_uXXXX] *)
Definition hex4 (a b c d : char) : option N :=
  x ← hex_val a; y ← hex_val b; z ← hex_val c; w ← hex_val d;
  Some (((x * 16 + y) * 16 + z) * 16 + w)%N.

(** The table [BACKSLASH]. *)
Definition unescape (e : char) : option char :=
  if (e =? 34)%N then Some quote
  else if (e =? 92)%N then Some backslash
  else if (e =? 47)%N then Some (chr "/")
  else if (e =? 98)%N then Some 8%N
  else if (e =? 102)%N then Some 12%N
  else if (e =? 110)%N then Some 10%N
  else if (e =? 114)%N then Some 13%N
  else if (e =? 116)%N then Some 9%N
  else None.

Definition is_high_surrogate (u : N) : bool := ((55296 <=? u) && (u <=? 56319))%N.
Definition is_low_surrogate (u : N) : bool := ((56320 <=? u) && (u <=? 57343))%N.

Definition cons_char (c : char) (r : option (str * str)) : option (str * str) :=
  match r with
  | Some (t, rest) => Some (c :: t, rest)
  | None => None
  end.

(** [scanstring(s, end, strict=True)], started after the opening quote:
    the decoded string and the text after the closing quote. *)
Fixpoint scanstring (s : str) : option (str * str) :=
  match s with
  | [] => None
  | c :: r =>
      if (c =? 34)%N then Some ([], r)
      else if (c =? 92)%N then
        match r with
        | [] => None
        | e :: r1 =>
            if (e =? 117)%N then
              match r1 with
              | a :: b :: c' :: d :: r2 =>
                  match hex4 a b c' d with
                  | None => None
                  | Some uni =>
                      match r2 with
                      | b1 :: u1 :: r3 =>
                          if is_high_surrogate uni && (b1 =? 92)%N && (u1 =? 117)%N
                          then
                            match r3 with
                            | a2 :: b2 :: c2 :: d2 :: r4 =>
                                match hex4 a2 b2 c2 d2 with
                                | None => None
                                | Some uni2 =>
                                    if is_low_surrogate uni2
                                    then cons_char
                                           (65536 + (uni - 55296) * 1024 + (uni2 - 56320))%N
                                           (scanstring r4)
                                    else cons_char uni (scanstring r2)
                                end
                            | _ => None
                            end
                          else cons_char uni (scanstring r2)
                      | _ => cons_char uni (scanstring r2)
                      end
                  end
              | _ => None
              end
            else
              match unescape e with
              | Some ch => cons_char ch (scanstring r1)
              | None => None
              end
        end
      else if (c <? 32)%N then None
      else cons_char c (scanstring r)
  end.

Definition is_dec (c : char) : bool := ((48 <=? c) && (c <=? 57))%N.

Fixpoint span_digits (s : str) : str * str :=
  match s with
  | [] => ([], [])
  | c :: r => if is_dec c then let '(ds, rest) := span_digits r in (c :: ds, rest)
              else ([], s)
  end.

(** The integer part of [NUMBER_RE]: an optional minus sign, then either
    [0] or a digit from 1 to 9 followed by any digits. *)
Definition match_integer (s : str) : option (str * str) :=
  let '(sign, r) := match s with
                    | c :: r => if (c =? 45)%N then ([c], r) else ([], s)
                    | [] => ([], s)
                    end in
  match r with
  | c :: r' =>
      if (c =? 48)%N then Some (sign ++ [c], r')
      else if is_dec c then
        let '(ds, rest) := span_digits r' in Some (sign ++ c :: ds, rest)
      else None
  | [] => None
  end.

(** The optional fraction of [NUMBER_RE]: a dot and at least one digit. *)
Definition match_frac (s : str) : str * str :=
  match s with
  | c :: r =>
      if (c =? 46)%N then
        match span_digits r with
        | ([], _) => ([], s)
        | (ds, rest) => (c :: ds, rest)
        end
      else ([], s)
  | [] => ([], s)
  end.

(** The optional exponent of [NUMBER_RE]: [e] or [E], an optional sign
    and at least one digit. *)
Definition match_exp (s : str) : str * str :=
  match s with
  | c :: r =>
      if ((c =? 101) || (c =? 69))%N then
        let '(sign, r') := match r with
                           | c' :: r' => if ((c' =? 45) || (c' =? 43))%N
                                         then ([c'], r') else ([], r)
                           | [] => ([], r)
                           end in
        match span_digits r' with
        | ([], _) => ([], s)
        | (ds, rest) => (c :: sign ++ ds, rest)
        end
      else ([], s)
  | [] => ([], s)
  end.

(** [int(text)] for a text matched by [match_integer]. *)
Definition int_of_text (t : str) : Z :=
  match t with
  | c :: ds => if (c =? 45)%N then (- Z.of_N (of_digits ds))%Z
               else Z.of_N (of_digits t)
  | [] => 0%Z
  end.

Definition match_number (s : str) : option (value * str) :=
  '(integer, r) ← match_integer s;
  let '(frac, r1) := match_frac r in
  let '(exp, r2) := match_exp r1 in
  match frac, exp with
  | [], [] => Some (VInt (int_of_text integer), r2)
  | _, _ => Some (VFloat (integer ++ frac ++ exp), r2)
  end.

(** [s[idx:idx + len(word)] == word], and the text after it. *)
Fixpoint starts_with (word s : str) : option str :=
  match word, s with
  | [], _ => Some s
  | w :: word', c :: s' => if (w =? c)%N then starts_with word' s' else None
  | _ :: _, [] => None
  end.

(** [scan_once], [JSONArray] and [JSONObject]; [fuel] bounds the nesting
    and the number of elements. *)
Fixpoint scan_once (fuel : nat) (s : str) : option (value * str) :=
  match fuel with
  | O => None
  | S f =>
      match s with
      | [] => None
      | c :: r =>
          if (c =? 34)%N then
            '(t, rest) ← scanstring r; Some (VStr t, rest)
          else if (c =? 123)%N then
            match skip_ws r with
            | c' :: r' =>
                if (c' =? 125)%N then Some (VDict [], r')
                else if (c' =? 34)%N then
                  '(pairs, rest) ← scan_members f r';
                  Some (VDict (dict_of_pairs pairs), rest)
                else None
            | [] => None
            end
          else if (c =? 91)%N then
            match skip_ws r with
            | c' :: r' =>
                if (c' =? 93)%N then Some (VList [], r')
                else '(l, rest) ← scan_elements f (c' :: r'); Some (VList l, rest)
            | [] => None
            end
          else
            match starts_with (lit "null") s with
            | Some rest => Some (VNone, rest)
            | None =>
            match starts_with (lit "true") s with
            | Some rest => Some (VBool true, rest)
            | None =>
            match starts_with (lit "false") s with
            | Some rest => Some (VBool false, rest)
            | None =>
            match match_number s with
            | Some res => Some res
            | None =>
            match starts_with (lit "NaN") s with
            | Some rest => Some (VFloat (lit "NaN"), rest)
            | None =>
            match starts_with (lit "Infinity") s with
            | Some rest => Some (VFloat (lit "Infinity"), rest)
            | None =>
            match starts_with (lit "-Infinity") s with
            | Some rest => Some (VFloat (lit "-Infinity"), rest)
            | None => None
            end end end end end end end
      end
  end
(** The elements of an array, from the first value to the closing bracket. *)
with scan_elements (fuel : nat) (s : str) : option (list value * str) :=
  match fuel with
  | O => None
  | S f =>
      '(v, r) ← scan_once f s;
      match skip_ws r with
      | c :: r' =>
          if (c =? 93)%N then Some ([v], r')
          else if (c =? 44)%N then
            '(l, rest) ← scan_elements f (skip_ws r'); Some (v :: l, rest)
          else None
      | [] => None
      end
  end
(** The members of an object, from after the first key's opening quote to
    the closing brace. *)
with scan_members (fuel : nat) (s : str) : option (list (str * value) * str) :=
  match fuel with
  | O => None
  | S f =>
      '(key, r) ← scanstring s;
      match skip_ws r with
      | c :: r1 =>
          if (c =? 58)%N then
            '(v, r2) ← scan_once f (skip_ws r1);
            match skip_ws r2 with
            | c' :: r3 =>
                if (c' =? 125)%N then Some ([(key, v)], r3)
                else if (c' =? 44)%N then
                  match skip_ws r3 with
                  | q :: r4 =>
                      if (q =? 34)%N then
                        '(ms, rest) ← scan_members f r4; Some ((key, v) :: ms, rest)
                      else None
                  | [] => None
                  end
                else None
            | [] => None
            end
          else None
      | [] => None
      end
  end.

Definition loads (s : str) : option value :=
  match s with
  | 65279%N :: _ => None
  | _ =>
      '(v, rest) ← scan_once (S (length s)) (skip_ws s);
      match skip_ws rest with
      | [] => Some v
      | _ => None
      end
  end.

End Json.

(** ** Exceptions and the outside world

    What the programs do to the outside (sub-processes, the Cloud Asset
    client, the spreadsheet writer, object storage, the console) is recorded
    as a trace of events; what the outside answers is read from a [world].
    A computation yields its trace and either a value or the exception that
    ended it.  The one thing recorded about the spreadsheet is the workbook
    saved when the writer is closed in the normal way: it lists the sheets
    whose [to_excel] returned.  What a writer abandoned by an exception
    leaves on disk is not described. *)

Module Effects.
Import Json.

Inductive exn :=
| Exception (msg : str)    (* any subclass of [Exception]; [str(e)] is [msg] *)
| SystemExit (code : Z)    (* [sys.exit(code)] *)
| Stuck.                   (* a loop bound of this model was reached *)

(** A table as pandas holds it: the column labels and, row by row, the
    cell under each column ([None]: no value, written as an empty cell). *)
Record DataFrame := {
  columns : list str;
  rows : list (list (option value))
}.

Definition workbook := list (str * DataFrame).

Inductive event :=
| Subprocess (cmd : str)                       (* [subprocess.run(cmd, shell=True)] *)
| SearchAllResources (scope : str)             (* [client.search_all_resources] *)
| Saved (path : str) (book : workbook)         (* the spreadsheet file written *)
| UploadFromFilename (bucket destination file : str)
| Stdout (line : str)
| Stderr (line : str)
| Log (line : str).

Definition IO (A : Type) : Type := list event * (exn + A).

Definition ret {A} (a : A) : IO A := ([], inr a).
Definition raise {A} (e : exn) : IO A := ([], inl e).
Definition emit (ev : event) : IO unit := ([ev], inr tt).
Definition bind {A B} (m : IO A) (f : A -> IO B) : IO B :=
  match m with
  | (t, inl e) => (t, inl e)
  | (t, inr a) => let '(t', r) := f a in (t ++ t', r)
  end.

(** [try: m  except Exception as e: handler(e)] *)
Definition try_except {A} (m : IO A) (handler : exn -> IO A) : IO A :=
  match m with
  | (t, inl (Exception msg)) =>
      let '(t', r) := handler (Exception msg) in (t ++ t', r)
  | _ => m
  end.

(** [str(e)] *)
Definition message (e : exn) : str :=
  match e with
  | Exception msg => msg
  | SystemExit code => str_of_Z code
  | Stuck => []
  end.

(** The outcome of [subprocess.run(..., check=True)]. *)
Inductive completed :=
| Returned (stdout : str)
| CalledProcessError (stderr : str).

(** One [ResourceSearchResult]: what [MessageToDict] makes of it with and
    without [preserving_proto_field_name], and, field by field, [str] of
    the fields that are set. *)
Record asset := {
  to_dict : exn + list (str * value);
  to_dict_preserving : exn + list (str * value);
  descriptor_fields : list (str * option str)
}.

Record world := {
  subprocess_run : str -> completed;
  (** [from google.cloud import asset_v1] succeeds *)
  asset_v1_importable : bool;
  (** [asset_v1.AssetServiceClient()] raises *)
  AssetServiceClient : option exn;
  (** the results the search yields and the exception that ends it *)
  search_all_resources : str -> list asset * option exn;
  (** [pd.DataFrame(items)] for items that are no list of records *)
  DataFrame_of : value -> exn + DataFrame;
  (** [pd.ExcelWriter(path, engine='openpyxl')] raises *)
  ExcelWriter : str -> option exn;
  (** [df.to_excel(writer, sheet_name=name, index=False)] raises *)
  to_excel : DataFrame -> str -> option exn;
  (** saving the workbook when the writer is closed raises *)
  save : str -> workbook -> option exn;
  (** [storage.Client()] raises *)
  storage_Client : option exn;
  (** [blob.upload_from_filename(file)] raises *)
  upload_from_filename : str -> str -> str -> option exn;
  (** [os.environ.get('GOOGLE_CLOUD_PROJECT')] *)
  GOOGLE_CLOUD_PROJECT : option str;
  (** [datetime.utcnow().strftime('%Y%m%dT%H%M%SZ')] *)
  utcnow : str
}.

(** A call that may raise. *)
Definition call (r : option exn) : IO unit :=
  match r with
  | Some e => raise e
  | None => ret tt
  end.

End Effects.

#[global] Instance io_ret : MRet Effects.IO := @Effects.ret.
#[global] Instance io_bind : MBind Effects.IO := fun A B f m => Effects.bind m f.

(** ** pandas

    The two constructors of frames the programs call on lists of records,
    after the library's documentation: [pd.DataFrame(rows)] takes the
    union of the rows' keys as columns, in the order in which they first
    appear; [pd.json_normalize(rows)] first flattens every nested dict
    into columns named by the dotted path of keys. *)

Module Pandas.
Import Json Effects.

Definition add_column (cols : list str) (k : str) : list str :=
  if bool_decide (k ∈ cols) then cols else cols ++ [k].

Definition union_columns (records : list (list (str * value))) : list str :=
  fold_left (fun cols r => fold_left add_column (keys r) cols) records [].

(** [pd.DataFrame(records)] for a list of dicts *)
Definition from_records (records : list (list (str * value))) : DataFrame :=
  let cols := union_columns records in
  {| columns := cols;
     rows := map (fun r => map (dict_get r) cols) records |}.

Definition is_dict (v : value) : bool :=
  match v with VDict _ => true | _ => false end.

Definition new_key (key_string key : str) : str :=
  match key_string with
  | [] => key
  | _ => key_string ++ lit "." ++ key
  end.

(** [_normalise_json(data, key_string, normalized_dict, separator=".")] *)
Fixpoint normalise_json (data : value) (key_string : str)
    (normalized_dict : list (str * value)) : list (str * value) :=
  match data with
  | VDict d =>
      fold_left
        (fun acc kv => normalise_json kv.2 (new_key key_string kv.1) acc)
        d normalized_dict
  | _ => dict_set normalized_dict key_string data
  end.

(** [{**a, **b}] *)
Definition dict_merge (a b : list (str * value)) : list (str * value) :=
  fold_left (fun d kv => dict_set d kv.1 kv.2) b a.

(** [_normalise_json_ordered(data, separator=".")] *)
Definition normalise_json_ordered (data : list (str * value)) : list (str * value) :=
  let top_dict := filter (fun kv => is_dict kv.2 = false) data in
  let nested_dict :=
    normalise_json (VDict (filter (fun kv => is_dict kv.2 = true) data)) [] [] in
  dict_merge top_dict nested_dict.

(** [pd.json_normalize(data)] for a non-empty list: a dict is flattened,
    a scalar gives an empty row, and a list among the rows is rejected by
    the frame constructor. *)
Fixpoint simple_json_normalize (data : list value)
    : option (list (list (str * value))) :=
  match data with
  | [] => Some []
  | VDict d :: rest =>
      rows ← simple_json_normalize rest; Some (normalise_json_ordered d :: rows)
  | VList _ :: _ => None
  | _ :: rest => rows ← simple_json_normalize rest; Some ([] :: rows)
  end.

Definition json_normalize (data : list value) : exn + DataFrame :=
  match simple_json_normalize data with
  | Some records => inr (from_records records)
  | None => inl (Exception (lit "'list' object has no attribute 'keys'"))
  end.

End Pandas.

(** ** src/inventory.py *)

Module Script.
Import Json Effects Pandas.

(** *** [run_cmd] *)
Definition run_cmd (w : world) (cmd : str) : IO (option str) :=
  emit (Subprocess cmd);;
  match subprocess_run w cmd with
  | Returned stdout => mret (Some stdout)
  | CalledProcessError err =>
      emit (Stderr (lit "Command failed: " ++ cmd ++ [10%N] ++ err));;
      mret None
  end.

(** *** [is_service_enabled] *)

(** [v == service_name] for a value [v] got from a dict *)
Definition eq_str (v : option value) (name : str) : bool :=
  match v with
  | Some (VStr s) => bool_decide (s = name)
  | _ => false
  end.

(** The tests made on one element [s] of the service list.  [cfg] is
    [s.get('config') or {}]: only a dict passes [isinstance(cfg, dict)],
    and an empty one has no name. *)
Definition service_matches (s : list (str * value)) (service_name : str) : bool :=
  eq_str (dict_get s (lit "name")) service_name
  || eq_str (dict_get s (lit "serviceName")) service_name
  || match dict_get s (lit "config") with
     | Some (VDict cfg) => eq_str (dict_get cfg (lit "name")) service_name
     | _ => false
     end.

(** The loop [for s in services]; [None] when [s.get] raises because [s]
    is no dict. *)
Fixpoint scan_services (services : list value) (service_name : str) : option bool :=
  match services with
  | [] => Some false
  | VDict s :: rest =>
      if service_matches s service_name then Some true
      else scan_services rest service_name
  | _ :: _ => None
  end.

(** The body of the [try]: [None] when it raises.  Iterating over a dict
    yields its keys and over a string its characters, neither of which
    has [get]; other values cannot be iterated over. *)
Definition search_services (out service_name : str) : option bool :=
  match loads out with
  | None => None
  | Some (VList services) => scan_services services service_name
  | Some (VDict []) => Some false
  | Some (VStr []) => Some false
  | Some _ => None
  end.

(** [sub in s] *)
Fixpoint starts (sub s : str) : bool :=
  match sub, s with
  | [], _ => true
  | a :: sub', b :: s' => (a =? b)%N && starts sub' s'
  | _ :: _, [] => false
  end.
Fixpoint contains (sub s : str) : bool :=
  starts sub s || match s with [] => false | _ :: s' => contains sub s' end.

Definition is_service_enabled (w : world) (project service_name : str) : IO bool :=
  out ← run_cmd w (lit "gcloud services list --project=" ++ project
                    ++ lit " --enabled --format=json");
  match out with
  | None | Some [] => mret false
  | Some out =>
      match search_services out service_name with
      | Some b => mret b
      | None => mret (contains service_name out)
      end
  end.

(** *** [gather_asset_resources] *)

(** The dict built for one search result. *)
Definition asset_dict (r : asset) : value :=
  match to_dict_preserving r with
  | inr d => VDict d
  | inl _ =>
      VDict (dict_of_pairs
               (omap (fun f => match f.2 with
                               | Some val => Some (f.1, VStr val)
                               | None => None
                               end)
                  (descriptor_fields r)))
  end.

(** [json.loads(out)] if [out] is not empty, and [[]] when there is no
    output or it cannot be decoded. *)
Definition loads_or_empty (out : option str) : value :=
  match out with
  | None | Some [] => VList []
  | Some out => match loads out with
                | Some v => v
                | None => VList []
                end
  end.

Definition gather_asset_resources (w : world) (project : str) : IO value :=
  if negb (asset_v1_importable w) then
    out ← run_cmd w (lit "gcloud asset search-all-resources --scope=projects/"
                      ++ project ++ lit " --project=" ++ project
                      ++ lit " --format=json");
    mret (loads_or_empty out)
  else
    call (AssetServiceClient w);;
    let scope := lit "projects/" ++ project in
    emit (SearchAllResources scope);;
    let '(results, failure) := search_all_resources w scope in
    let resources := VList (map asset_dict results) in
    match failure with
    | Some (Exception msg) =>
        emit (Stderr (lit "Cloud Asset client error: " ++ msg));;
        mret resources
    | Some e => raise e
    | None => mret resources
    end.

(** *** [gather_resources] *)
Definition gather_resources (w : world) (project : str) : IO (list (str * value)) :=
  let resources := [] in
  out ← run_cmd w (lit "gcloud compute instances list --project=" ++ project
                    ++ lit " --format=json");
  let resources := dict_set resources (lit "compute_instances") (loads_or_empty out) in
  enabled ← is_service_enabled w project (lit "container.googleapis.com");
  resources ←
    (if enabled : bool then
       out ← run_cmd w (lit "gcloud container clusters list --project=" ++ project
                         ++ lit " --format=json");
       mret (dict_set resources (lit "gke_clusters") (loads_or_empty out))
     else
       emit (Stdout (lit "Kubernetes Engine API not enabled for project "
                       ++ project ++ lit "; skipping GKE cluster listing."));;
       mret (dict_set resources (lit "gke_clusters") (VList [])));
  out ← run_cmd w (lit "gcloud functions list --project=" ++ project
                    ++ lit " --format=json");
  let resources := dict_set resources (lit "cloud_functions") (loads_or_empty out) in
  out ← run_cmd w (lit "gcloud sql instances list --project=" ++ project
                    ++ lit " --format=json");
  let resources := dict_set resources (lit "sql_instances") (loads_or_empty out) in
  out ← run_cmd w (lit "gcloud storage buckets list --project=" ++ project
                    ++ lit " --format=json");
  let resources := dict_set resources (lit "storage_buckets") (loads_or_empty out) in
  mret resources.

(** *** [resources_to_excel] *)

(** The nested function [sanitize]. *)
Definition invalid : str := lit ":\/?*[]".

Definition replace_invalid (name : str) : str :=
  map (fun c => if char_in c invalid then chr "_" else c) name.

Definition suffix_of (i : N) : str := chr "_" :: str_of_int i.

(** [(base[:31 - len(suffix)] + suffix) if len(base) + len(suffix) > 31
     else base + suffix] *)
Definition renamed (base : str) (i : N) : str :=
  let suffix := suffix_of i in
  if (31 <? len base + len suffix)%Z
  then slice_to base (31 - len suffix) ++ suffix
  else base ++ suffix.

Definition sanitize_cond (used : gset str) (st : str * N) : bool :=
  bool_decide (st.1 ∈ used) || bool_decide (st.1 = []).
Definition sanitize_body (base : str) (st : str * N) : str * N :=
  (renamed base st.2, (st.2 + 1)%N).

(** Returns the sheet name and the used-name set after [used.add(s)]. *)
Definition sanitize (name : str) (used : gset str) : option (str * gset str) :=
  let s := replace_invalid name in
  let s := slice_to s 31 in
  let base := s in
  st ← while (S (size used)) (sanitize_cond used) (sanitize_body base) (s, 1%N);
  Some (st.1, {[ st.1 ]} ∪ used).

(** The frame made of one entry's items. *)
Definition frame_of (w : world) (items : value) : exn + DataFrame :=
  match items with
  | VList (VDict d :: rest) => json_normalize (VDict d :: rest)
  | _ => DataFrame_of w items
  end.

Definition failed_sheet (key : str) (e : exn) : event :=
  Stderr (lit "Failed to write sheet " ++ key ++ lit ": " ++ message e).

(** One turn of the loop over [resources.items()]: the names in use and
    the sheets written so far, before and after. *)
Definition write_sheet (w : world) (key : str) (items : value)
    (st : gset str * workbook) : IO (gset str * workbook) :=
  let '(used_names, book) := st in
  match frame_of w items with
  | inl (Exception msg) => emit (failed_sheet key (Exception msg));; mret st
  | inl e => raise e
  | inr df =>
      match sanitize key used_names with
      | None => raise Stuck
      | Some (sheet_name, used_names) =>
          match to_excel w df sheet_name with
          | Some (Exception msg) =>
              emit (failed_sheet key (Exception msg));; mret (used_names, book)
          | Some e => raise e
          | None => mret (used_names, book ++ [(sheet_name, df)])
          end
      end
  end.

Fixpoint write_sheets (w : world) (resources : list (str * value))
    (st : gset str * workbook) : IO (gset str * workbook) :=
  match resources with
  | [] => mret st
  | (key, items) :: rest => st ← write_sheet w key items st; write_sheets w rest st
  end.

(** Returns the sheets handed to the writer. *)
Definition resources_to_excel (w : world) (resources : list (str * value))
    (output_file : str) : IO workbook :=
  let used_names : gset str := ∅ in
  call (ExcelWriter w output_file);;
  st ← write_sheets w resources (used_names, []);
  call (save w output_file st.2);;
  emit (Saved output_file st.2);;
  mret st.2.

(** *** [upload_to_gcs] *)
Definition upload_to_gcs (w : world) (local_file : str) (bucket : option str)
    (destination_path : option str) : IO bool :=
  match bucket with
  | None | Some [] =>
      emit (Stdout (lit "No bucket provided, skipping upload."));;
      mret false
  | Some bucket =>
      let dest := match destination_path with
                  | None | Some [] => lit "gs://" ++ bucket ++ lit "/"
                  | Some path => lit "gs://" ++ bucket ++ lit "/" ++ path
                  end in
      out ← run_cmd w (lit "gcloud storage cp " ++ local_file ++ lit " " ++ dest);
      mret (bool_decide (out ≠ None))
  end.

(** *** [main] *)

(** The parsed command line. *)
Record args := {
  project : option str;
  bucket : option str;
  output : option str;
  use_asset : bool
}.

(** [x or y] where [x] may be [None] *)
Definition or_else (x y : option str) : option str :=
  match x with
  | None | Some [] => y
  | Some _ => x
  end.

(** [s.split(',')] *)
Fixpoint split_comma (s : str) : list str :=
  match s with
  | [] => [[]]
  | c :: r =>
      if (c =? 44)%N then [] :: split_comma r
      else match split_comma r with
           | p :: ps => (c :: p) :: ps
           | [] => [[c]]
           end
  end.

(** The loop over the projects, which fills [combined]. *)
Fixpoint gather_all (w : world) (use_asset : bool) (projects : list str)
    (combined : list (str * value)) : IO (list (str * value)) :=
  match projects with
  | [] => mret combined
  | p :: rest =>
      emit (Stdout (lit "Gathering resources for project: " ++ p));;
      combined ←
        (if use_asset then
           assets ← gather_asset_resources w p;
           mret (dict_set combined (p ++ lit "::asset_resources") assets)
         else
           res ← gather_resources w p;
           mret (fold_left (fun combined kv =>
                              dict_set combined (p ++ lit "::" ++ kv.1) kv.2)
                   res combined));
      gather_all w use_asset rest combined
  end.

Definition main (w : world) (a : args) : IO unit :=
  match or_else (project a) (GOOGLE_CLOUD_PROJECT w) with
  | None | Some [] =>
      emit (Stderr (lit "Project not provided via --project or GOOGLE_CLOUD_PROJECT environment variable"));;
      raise (SystemExit 2)
  | Some project =>
      let projects :=
        filter (fun p => p ≠ []) (map strip (split_comma project)) in
      combined ← gather_all w (use_asset a) projects [];
      let ts := utcnow w in
      output ←
        match or_else (output a) None with
        | Some o => mret o
        | None =>
            match projects with
            | p0 :: _ => mret (lit "gcp-inventory-" ++ p0 ++ lit "-" ++ ts ++ lit ".xlsx")
            | [] => raise (Exception (lit "list index out of range"))
            end
        end;
      emit (Stdout (lit "Writing inventory to " ++ output));;
      resources_to_excel w combined output;;
      match bucket a with
      | None | Some [] => mret tt
      | Some b =>
          emit (Stdout (lit "Uploading " ++ output ++ lit " to bucket " ++ b));;
          ok ← upload_to_gcs w output (Some b) None;
          if ok : bool then emit (Stdout (lit "Upload successful"))
          else emit (Stderr (lit "Upload failed"))
      end
  end.

End Script.

(** ** src/gcp_inventory/inventory.py *)

Module Package.
Import Json Effects Pandas.

Definition INVALID_SHEET_CHARS : gset char := list_to_set (lit ":\\/*?[]").
Definition MAX_SHEET_LEN : Z := 31.

(** *** [sanitize_sheet_name] *)
Definition remove_invalid (name : str) : str :=
  filter (fun ch => ch ∉ INVALID_SHEET_CHARS) name.

Definition tail_of (suffix : N) : str := chr "_" :: str_of_int suffix.

(** [(base[:MAX_SHEET_LEN - len(tail)] + tail).strip()] *)
Definition renamed (base : str) (suffix : N) : str :=
  let tail := tail_of suffix in
  strip (slice_to base (MAX_SHEET_LEN - len tail) ++ tail).

Definition sanitize_cond (used_names : gset str) (st : str * N) : bool :=
  bool_decide (st.1 ∈ used_names).
Definition sanitize_body (base : str) (st : str * N) : str * N :=
  (renamed base st.2, (st.2 + 1)%N).

(** Returns the sheet name and the set after [used_names.add(out)]. *)
Definition sanitize_sheet_name (name : str) (used_names : gset str)
    : option (str * gset str) :=
  let out := remove_invalid name in
  let out := str_or (strip (slice_to out MAX_SHEET_LEN)) (lit "sheet") in
  let base := out in
  st ← while (S (size used_names)) (sanitize_cond used_names)
         (sanitize_body base) (out, 1%N);
  Some (st.1, {[ st.1 ]} ∪ used_names).

(** *** [collect_assets] *)

(** The loop over the search results: the dicts appended, or the first
    exception [MessageToDict] raises. *)
Fixpoint convert_all (results : list asset) : exn + list (list (str * value)) :=
  match results with
  | [] => inr []
  | item :: rest =>
      match to_dict item with
      | inl e => inl e
      | inr d => match convert_all rest with
                 | inl e => inl e
                 | inr ds => inr (d :: ds)
                 end
      end
  end.

Definition collect_assets (w : world) (project : str)
    : IO (list (list (str * value))) :=
  call (AssetServiceClient w);;
  let parent := lit "projects/" ++ project in
  emit (Log (lit "Collecting Cloud Asset resources for " ++ project ++ lit "..."));;
  resources ←
    try_except
      (emit (SearchAllResources parent);;
       let '(results, failure) := search_all_resources w parent in
       match convert_all results, failure with
       | inl e, _ => raise e
       | inr _, Some e => raise e
       | inr resources, None => mret resources
       end)
      (fun e =>
         emit (Log (lit "Cloud Asset client error: " ++ message e));;
         raise e);
  emit (Log (lit "Collected " ++ str_of_int (N.of_nat (length resources))
               ++ lit " resources from Cloud Asset"));;
  mret resources.

(** *** [resources_to_excel] *)

(** The row made of one record: a dict or list value becomes the text
    [json.dumps] gives for it, any other value is kept. *)
Definition flatten_row (r : list (str * value)) : list (str * value) :=
  fold_left
    (fun row kv =>
       match kv.2 with
       | VDict _ | VList _ => dict_set row kv.1 (VStr (dumps kv.2))
       | v => dict_set row kv.1 v
       end)
    r [].

(** The frame written: one row without cells when there is no record. *)
Definition frame_of (resources : list (list (str * value))) : DataFrame :=
  match resources with
  | [] => from_records [[]]
  | _ => from_records (map flatten_row resources)
  end.

(** Returns the sheets handed to the writer. *)
Definition resources_to_excel (w : world) (resources : list (list (str * value)))
    (out_path : str) : IO workbook :=
  let df := frame_of resources in
  let used : gset str := ∅ in
  match sanitize_sheet_name (lit "assets") used with
  | None => raise Stuck
  | Some (sheet_name, used) =>
      emit (Log (lit "Writing inventory to " ++ out_path));;
      call (ExcelWriter w out_path);;
      call (to_excel w df sheet_name);;
      let book := [(sheet_name, df)] in
      call (save w out_path book);;
      emit (Saved out_path book);;
      mret book
  end.

(** *** [upload_to_gcs] *)

(** [os.path.basename(path)] *)
Fixpoint basename_from (path current : str) : str :=
  match path with
  | [] => current
  | c :: r => if (c =? 47)%N then basename_from r r else basename_from r current
  end.
Definition basename (path : str) : str := basename_from path path.

Definition upload_to_gcs (w : world) (local_file bucket_name : str)
    (destination : option str) : IO unit :=
  let destination := match destination with
                     | None | Some [] => basename local_file
                     | Some d => d
                     end in
  call (storage_Client w);;
  emit (Log (lit "Uploading " ++ local_file ++ lit " to bucket " ++ bucket_name));;
  emit (UploadFromFilename bucket_name destination local_file);;
  call (upload_from_filename w bucket_name destination local_file);;
  emit (Log (lit "Upload successful")).

(** *** [main] *)

(** The parsed command line; [--project] and [--bucket] are required. *)
Record args := {
  project : str;
  bucket : str;
  output : option str;
  use_asset : bool
}.

Definition main (w : world) (a : args) : IO unit :=
  let project := project a in
  let bucket := bucket a in
  let timestamp := utcnow w in
  let out_file := match output a with
                  | None | Some [] =>
                      lit "gcp-inventory-" ++ project ++ lit "-" ++ timestamp
                      ++ lit ".xlsx"
                  | Some o => o
                  end in
  if use_asset a then
    resources ← collect_assets w project;
    resources_to_excel w resources out_file;;
    upload_to_gcs w out_file bucket None
  else
    emit (Log (lit "Only --use-asset mode is implemented in this cleaned release. Use --use-asset."));;
    mret tt.

End Package.

(** ** Vocabulary of the properties *)

(** A decimal digit. *)
Definition is_digit (c : char) : Prop := (48 <= c <= 57)%N.

(** The characters a sheet name must not contain: colon, backslash, slash,
    question mark, asterisk and the square brackets. *)
Definition forbidden : list char := lit ":\/?*[]".
Definition no_forbidden (s : str) : Prop := Forall (fun c => c ∉ forbidden) s.

(** A name that is not empty and does not start with white space. *)
Definition trimmed (s : str) : Prop :=
  match s with [] => False | c :: _ => isspace c = false end.

(** The two programs, and what each one's sheet-name sanitizer is made of:
    the function itself, the base name it derives from a label, and the
    name it tries for a counter. *)
Inductive program := script | package.

Definition sanitizer (p : program) : str -> gset str -> option (str * gset str) :=
  match p with
  | script => Script.sanitize
  | package => Package.sanitize_sheet_name
  end.

Definition base (p : program) (label : str) : str :=
  match p with
  | script => slice_to (Script.replace_invalid label) 31
  | package =>
      str_or (strip (slice_to (Package.remove_invalid label) Package.MAX_SHEET_LEN))
        (lit "sheet")
  end.

Definition numbered (p : program) : str -> N -> str :=
  match p with
  | script => Script.renamed
  | package => Package.renamed
  end.

(** The suffix [_k]. *)
Definition numeral (k : N) : str := chr "_" :: str_of_int k.

(** Two calls in a row, the second on the set the first one left: both
    return; the first name holds no forbidden character, was not in use
    and, the set being one a Python set can be, has at most 31 characters;
    the second name differs from the first. *)
Definition valid_and_fresh (f : str -> gset str -> option (str * gset str))
    (label label' : str) (used : gset str) : Prop :=
  exists s used1 s' used2,
    f label used = Some (s, used1) /\
    no_forbidden s /\ (s ∉ used) /\ (fits used -> (length s <= 31)%nat) /\
    f label' used1 = Some (s', used2) /\ s' <> s.

(** [s] is the base [b] cut to make room for a suffix [_k], followed by that
    suffix, and fits in 31 characters. *)
Definition cut_and_numbered (b s : str) : Prop :=
  exists k, (1 <= k)%N /\ s = take (31 - length (numeral k)) b ++ numeral k /\
    (length s <= 31)%nat /\
    ((31 < length b + length (numeral k))%nat -> length s = 31%nat).

(** Every label made of forbidden characters only is given the name
    [placeholder], provided that name is free. *)
Definition returns_placeholder (p : program) (placeholder : str) : Prop :=
  forall (label : str) (used : gset str),
    Forall (fun c => c ∈ forbidden) label -> placeholder ∉ used ->
    exists used', sanitizer p label used = Some (placeholder, used').

(** A value that [json.loads] can give back as it was: its dicts have
    distinct keys (as any Python dict has) and it holds no float. *)
Fixpoint well_formed (v : Json.value) : Prop :=
  match v with
  | Json.VFloat _ => False
  | Json.VList l => fold_right (fun x acc => well_formed x /\ acc) True l
  | Json.VDict d =>
      NoDup (Json.keys d) /\ fold_right (fun kv acc => well_formed kv.2 /\ acc) True d
  | _ => True
  end.

(** The text after a value inside a list or a dict, or at the end. *)
Definition delimited (rest : str) : Prop :=
  match rest with
  | [] => True
  | c :: _ => c = chr "," \/ c = chr "]" \/ c = chr "}"
  end.

(** The text after a number: not a digit, a dot or an exponent mark. *)
Definition ends_number (rest : str) : Prop :=
  match rest with
  | [] => True
  | c :: _ => Json.is_dec c = false /\ c <> 46%N /\ c <> 101%N /\ c <> 69%N
  end.

(** The first character of the text of a value: a digit, a minus sign, a
    quote, an opening bracket or brace, or the first letter of [null],
    [true] or [false]. *)
Definition value_start (c : char) : Prop :=
  Json.is_dec c = true \/ c ∈ [45; 34; 91; 123; 110; 116; 102]%N.

(** The text of a value, followed by a delimiter, is read back as the value
    and the text that followed. *)
Definition scans_back (v : Json.value) : Prop :=
  well_formed v -> forall fuel rest,
    (length (Json.dumps v) <= fuel)%nat -> delimited rest ->
    Json.scan_once fuel (Json.dumps v ++ rest) = Some (v, rest).

(** The text of the member [k: v] of a dict. *)
Definition member_text (kv : str * Json.value) : str :=
  Json.encode_basestring kv.1 ++ lit ": " ++ Json.dumps kv.2.

(** A mapping or a sequence. *)
Definition nested (v : Json.value) : bool :=
  match v with
  | Json.VDict _ | Json.VList _ => true
  | _ => false
  end.

(** The cell the package writes for a value: the text of a nested value,
    the value itself otherwise. *)
Definition cell (v : Json.value) : Json.value :=
  if nested v then Json.VStr (Json.dumps v) else v.

(** A record as the collectors produce it: a dict (its keys are distinct)
    whose nested values are well formed. *)
Definition record_ok (r : list (str * Json.value)) : Prop :=
  NoDup (Json.keys r) /\
  Forall (fun kv => nested kv.2 = true -> well_formed kv.2) r.

(** A world in which every external call succeeds and finds nothing. *)
Definition quiet_world : Effects.world := {|
  Effects.subprocess_run := fun _ => Effects.Returned (lit "[]");
  Effects.asset_v1_importable := true;
  Effects.AssetServiceClient := None;
  Effects.search_all_resources := fun _ => ([], None);
  Effects.DataFrame_of := fun _ => inr {| Effects.columns := []; Effects.rows := [] |};
  Effects.ExcelWriter := fun _ => None;
  Effects.to_excel := fun _ _ => None;
  Effects.save := fun _ _ => None;
  Effects.storage_Client := None;
  Effects.upload_from_filename := fun _ _ _ => None;
  Effects.GOOGLE_CLOUD_PROJECT := None;
  Effects.utcnow := lit "20240101T000000Z"
|}.

(** A record that holds a nested mapping. *)
Definition labelled_vm : list (str * Json.value) :=
  [(lit "name", Json.VStr (lit "vm-1"));
   (lit "labels", Json.VDict [(lit "env", Json.VStr (lit "prod"))])].

(** The trace and the outcome of a computation. *)
Definition trace {A} (m : Effects.IO A) : list Effects.event := m.1.
Definition outcome {A} (m : Effects.IO A) : Effects.exn + A := m.2.

(** The standard output of a command, when it succeeded. *)
Definition stdout_of (c : Effects.completed) : option str :=
  match c with
  | Effects.Returned out => Some out
  | Effects.CalledProcessError _ => None
  end.

(** The resource kinds of the per-kind mode, the key each one has in the
    result and the command that lists it. *)
Inductive kind :=
| compute_instances | gke_clusters | cloud_functions | sql_instances | storage_buckets.

Definition kind_key (k : kind) : str :=
  match k with
  | compute_instances => lit "compute_instances"
  | gke_clusters => lit "gke_clusters"
  | cloud_functions => lit "cloud_functions"
  | sql_instances => lit "sql_instances"
  | storage_buckets => lit "storage_buckets"
  end.

Definition kind_command (k : kind) (project : str) : str :=
  match k with
  | compute_instances => lit "gcloud compute instances list --project="
  | gke_clusters => lit "gcloud container clusters list --project="
  | cloud_functions => lit "gcloud functions list --project="
  | sql_instances => lit "gcloud sql instances list --project="
  | storage_buckets => lit "gcloud storage buckets list --project="
  end ++ project ++ lit " --format=json".

(** The answer of [is_service_enabled] for the Kubernetes Engine API. *)
Definition gke_enabled (w : Effects.world) (project : str) : bool :=
  match outcome (Script.is_service_enabled w project (lit "container.googleapis.com")) with
  | inr b => b
  | inl _ => false
  end.

(** The kind is queried: every kind is, except the clusters when the
    Kubernetes Engine API is not enabled. *)
Definition queried (w : Effects.world) (project : str) (k : kind) : Prop :=
  k = gke_clusters -> gke_enabled w project = true.

(** What the listing of a kind gives: the decoded output of its command,
    and the empty list when the command fails, prints nothing or prints
    what cannot be decoded. *)
Definition listing (w : Effects.world) (project : str) (k : kind) : Json.value :=
  Script.loads_or_empty (stdout_of (Effects.subprocess_run w (kind_command k project))).

(** A world in which listing the compute instances fails, the Kubernetes
    Engine API is enabled and every other listing finds one resource. *)
Definition compute_down_world : Effects.world := {|
  Effects.subprocess_run := fun cmd =>
    if Script.starts (lit "gcloud compute") cmd
    then Effects.CalledProcessError (lit "ERROR: permission denied")
    else if Script.starts (lit "gcloud services") cmd
    then Effects.Returned
           (Json.dumps (Json.VList
              [Json.VDict [(lit "name", Json.VStr (lit "container.googleapis.com"))]]))
    else Effects.Returned (Json.dumps (Json.VList [Json.VDict labelled_vm]));
  Effects.asset_v1_importable := true;
  Effects.AssetServiceClient := None;
  Effects.search_all_resources := fun _ => ([], None);
  Effects.DataFrame_of := fun _ => inr {| Effects.columns := []; Effects.rows := [] |};
  Effects.ExcelWriter := fun _ => None;
  Effects.to_excel := fun _ _ => None;
  Effects.save := fun _ _ => None;
  Effects.storage_Client := None;
  Effects.upload_from_filename := fun _ _ _ => None;
  Effects.GOOGLE_CLOUD_PROJECT := None;
  Effects.utcnow := lit "20240101T000000Z"
|}.

(** A search result that converts to the record [labelled_vm]. *)
Definition vm_asset : Effects.asset := {|
  Effects.to_dict := inr labelled_vm;
  Effects.to_dict_preserving := inr labelled_vm;
  Effects.descriptor_fields := []
|}.

(** A world in which the search yields one result and then fails. *)
Definition failing_search_world : Effects.world := {|
  Effects.subprocess_run := fun _ => Effects.Returned (lit "[]");
  Effects.asset_v1_importable := true;
  Effects.AssetServiceClient := None;
  Effects.search_all_resources := fun _ =>
    ([vm_asset], Some (Effects.Exception (lit "503 Service Unavailable")));
  Effects.DataFrame_of := fun _ => inr {| Effects.columns := []; Effects.rows := [] |};
  Effects.ExcelWriter := fun _ => None;
  Effects.to_excel := fun _ _ => None;
  Effects.save := fun _ _ => None;
  Effects.storage_Client := None;
  Effects.upload_from_filename := fun _ _ _ => None;
  Effects.GOOGLE_CLOUD_PROJECT := None;
  Effects.utcnow := lit "20240101T000000Z"
|}.

(** A collector lets a failure of the search reach its caller. *)
Definition propagates_search_failure {A}
    (collect : Effects.world -> str -> Effects.IO A) : Prop :=
  forall w project results e,
    Effects.asset_v1_importable w = true ->
    Effects.AssetServiceClient w = None ->
    Effects.search_all_resources w (lit "projects/" ++ project) = (results, Some e) ->
    exists e', outcome (collect w project) = inl e'.

Definition is_search (ev : Effects.event) : bool :=
  match ev with Effects.SearchAllResources _ => true | _ => false end.

(** The event writes the spreadsheet or uploads it. *)
Definition writes_or_uploads (ev : Effects.event) : bool :=
  match ev with
  | Effects.Saved _ _ | Effects.UploadFromFilename _ _ _ => true
  | _ => false
  end.

(** The frame of the placeholder sheet: no column and one row without cells. *)
Definition placeholder_frame : Effects.DataFrame :=
  {| Effects.columns := []; Effects.rows := [[]] |}.

(** An export that ends well and hands at least one sheet to the writer. *)
Definition writes_a_sheet (export : Effects.IO Effects.workbook) : Prop :=
  exists book, outcome export = inr book /\ book <> [].

(** A computation that ends without an exception. *)
Definition never_raises {A} (m : Effects.IO A) : Prop :=
  exists a, outcome m = inr a.

(** A world in which object storage refuses the upload. *)
Definition upload_denied_world : Effects.world := {|
  Effects.subprocess_run := fun cmd =>
    if Script.starts (lit "gcloud storage cp") cmd
    then Effects.CalledProcessError (lit "ERROR: 403 Forbidden")
    else Effects.Returned (lit "[]");
  Effects.asset_v1_importable := true;
  Effects.AssetServiceClient := None;
  Effects.search_all_resources := fun _ => ([], None);
  Effects.DataFrame_of := fun _ => inr {| Effects.columns := []; Effects.rows := [] |};
  Effects.ExcelWriter := fun _ => None;
  Effects.to_excel := fun _ _ => None;
  Effects.save := fun _ _ => None;
  Effects.storage_Client := None;
  Effects.upload_from_filename := fun _ _ _ =>
    Some (Effects.Exception (lit "403 Forbidden"));
  Effects.GOOGLE_CLOUD_PROJECT := None;
  Effects.utcnow := lit "20240101T000000Z"
|}.

(** The command the script runs to copy a file to a bucket. *)
Definition copy_command (local_file bucket : str) (destination_path : option str) : str :=
  lit "gcloud storage cp " ++ local_file ++ lit " " ++
  match destination_path with
  | None | Some [] => lit "gs://" ++ bucket ++ lit "/"
  | Some path => lit "gs://" ++ bucket ++ lit "/" ++ path
  end.


(** ** Vocabulary of the further properties *)

(** A name a spreadsheet accepts for a sheet. *)
Definition valid_sheet_name (s : str) : Prop :=
  s ≠ [] ∧ no_forbidden s ∧ (length s ≤ 31)%nat.

(** The names of the sheets of a workbook, in order. *)
Definition sheet_names (book : Effects.workbook) : list str := book.*1.

(** What holds of the names in use and the sheets written, all along the
    loop: every sheet name is in use, no two sheets have the same name,
    every name is valid, and at most [n] names are in use. *)
Definition sheets_ok (n : nat) (st : gset str * Effects.workbook) : Prop :=
  (∀ s, s ∈ sheet_names st.2 → s ∈ st.1) ∧ NoDup (sheet_names st.2) ∧
  Forall valid_sheet_name (sheet_names st.2) ∧ (size st.1 ≤ n)%nat.

(** The exception is an instance of [Exception], which [except Exception]
    catches. *)
Definition is_exception (e : Effects.exn) : Prop := ∃ msg, e = Effects.Exception msg.

(** Building a frame and writing a sheet raise nothing but instances of
    [Exception]. *)
Definition raises_only_exceptions (w : Effects.world) : Prop :=
  (∀ items e, Effects.DataFrame_of w items = inl e → is_exception e) ∧
  (∀ df name e, Effects.to_excel w df name = Some e → is_exception e).

(** The event is a line on the standard error stream. *)
Definition is_stderr (ev : Effects.event) : bool :=
  match ev with Effects.Stderr _ => true | _ => false end.

(** A world in which the sheet named [a_b] cannot be written. *)
Definition one_sheet_fails_world : Effects.world := {|
  Effects.subprocess_run := fun _ => Effects.Returned (lit "[]");
  Effects.asset_v1_importable := true;
  Effects.AssetServiceClient := None;
  Effects.search_all_resources := fun _ => ([], None);
  Effects.DataFrame_of := fun _ => inr {| Effects.columns := []; Effects.rows := [] |};
  Effects.ExcelWriter := fun _ => None;
  Effects.to_excel := fun _ name =>
    if bool_decide (name = lit "a_b")
    then Some (Effects.Exception (lit "cannot write")) else None;
  Effects.save := fun _ _ => None;
  Effects.storage_Client := None;
  Effects.upload_from_filename := fun _ _ _ => None;
  Effects.GOOGLE_CLOUD_PROJECT := None;
  Effects.utcnow := lit "20240101T000000Z"
|}.

(** The number of lines printed on the standard error stream. *)
Definition stderr_lines (t : list Effects.event) : nat :=
  length (filter (fun ev => is_stderr ev = true) t).

(** The line the script prints when the sheet of [key] is given up. *)
Definition reports_failed_sheet (keys : list str) (line : str) : Prop :=
  ∃ key e, key ∈ keys ∧
    line = lit "Failed to write sheet " ++ key ++ lit ": " ++ Effects.message e.

(** The command that lists the services enabled for a project. *)
Definition services_command (project : str) : str :=
  lit "gcloud services list --project=" ++ project ++ lit " --enabled --format=json".

(** An element of the service list names the service: under [name], under
    [serviceName], or under [name] in the mapping it has under [config]. *)
Definition lists_service (service_name : str) (s : list (str * Json.value)) : Prop :=
  Json.dict_get s (lit "name") = Some (Json.VStr service_name) ∨
  Json.dict_get s (lit "serviceName") = Some (Json.VStr service_name) ∨
  ∃ cfg, Json.dict_get s (lit "config") = Some (Json.VDict cfg) ∧
         Json.dict_get cfg (lit "name") = Some (Json.VStr service_name).

(** A service list printed over several lines. *)
Definition printed_services : str :=
  lit "[" ++ [10; 32; 32]%N
  ++ Json.dumps (Json.VDict
       [(lit "config", Json.VDict [(lit "name", Json.VStr (lit "container.googleapis.com"))]);
        (lit "state", Json.VStr (lit "ENABLED"))])
  ++ [10]%N ++ lit "]" ++ [10]%N.

(** A world in which the service list is printed over several lines. *)
Definition printed_services_world : Effects.world := {|
  Effects.subprocess_run := fun _ => Effects.Returned printed_services;
  Effects.asset_v1_importable := true;
  Effects.AssetServiceClient := None;
  Effects.search_all_resources := fun _ => ([], None);
  Effects.DataFrame_of := fun _ => inr {| Effects.columns := []; Effects.rows := [] |};
  Effects.ExcelWriter := fun _ => None;
  Effects.to_excel := fun _ _ => None;
  Effects.save := fun _ _ => None;
  Effects.storage_Client := None;
  Effects.upload_from_filename := fun _ _ _ => None;
  Effects.GOOGLE_CLOUD_PROJECT := None;
  Effects.utcnow := lit "20240101T000000Z"
|}.

(** A world in which the service list is printed as a table, not as JSON. *)
Definition table_services_world : Effects.world := {|
  Effects.subprocess_run := fun _ =>
    Effects.Returned (lit "NAME  TITLE" ++ [10]%N
                      ++ lit "container.googleapis.com  Kubernetes Engine API");
  Effects.asset_v1_importable := true;
  Effects.AssetServiceClient := None;
  Effects.search_all_resources := fun _ => ([], None);
  Effects.DataFrame_of := fun _ => inr {| Effects.columns := []; Effects.rows := [] |};
  Effects.ExcelWriter := fun _ => None;
  Effects.to_excel := fun _ _ => None;
  Effects.save := fun _ _ => None;
  Effects.storage_Client := None;
  Effects.upload_from_filename := fun _ _ _ => None;
  Effects.GOOGLE_CLOUD_PROJECT := None;
  Effects.utcnow := lit "20240101T000000Z"
|}.

(** The commands run, in order. *)
Definition commands (t : list Effects.event) : list str :=
  omap (fun ev => match ev with Effects.Subprocess cmd => Some cmd | _ => None end) t.

(** The line printed when the cluster listing is skipped. *)
Definition skipping_clusters (project : str) : Effects.event :=
  Effects.Stdout (lit "Kubernetes Engine API not enabled for project " ++ project
                  ++ lit "; skipping GKE cluster listing.").

(** The command the script falls back to when the client library of the
    Cloud Asset API is missing. *)
Definition asset_command (project : str) : str :=
  lit "gcloud asset search-all-resources --scope=projects/" ++ project
  ++ lit " --project=" ++ project ++ lit " --format=json".

(** The record the script makes of a search result: what [MessageToDict]
    gives or, when that fails, a dict that maps the name of every field
    that is set to the text of its value. *)
Definition record_of (r : Effects.asset) (v : Json.value) : Prop :=
  match Effects.to_dict_preserving r with
  | inr d => v = Json.VDict d
  | inl _ =>
      ∃ d, v = Json.VDict d ∧ NoDup (Json.keys d) ∧
        (∀ k, k ∈ Json.keys d ↔ ∃ val, (k, Some val) ∈ Effects.descriptor_fields r) ∧
        (∀ k x, Json.dict_get d k = Some x →
           ∃ val, x = Json.VStr val ∧ (k, Some val) ∈ Effects.descriptor_fields r)
  end.

(** A search result that [MessageToDict] cannot convert, with one field
    set and one not. *)
Definition odd_asset : Effects.asset := {|
  Effects.to_dict := inl (Effects.Exception (lit "cannot convert"));
  Effects.to_dict_preserving := inl (Effects.Exception (lit "cannot convert"));
  Effects.descriptor_fields := [(lit "name", Some (lit "vm-2")); (lit "location", None)]
|}.

(** A world in which the search yields a result that converts and one that
    does not. *)
Definition odd_asset_world : Effects.world := {|
  Effects.subprocess_run := fun _ => Effects.Returned (lit "[]");
  Effects.asset_v1_importable := true;
  Effects.AssetServiceClient := None;
  Effects.search_all_resources := fun _ => ([vm_asset; odd_asset], None);
  Effects.DataFrame_of := fun _ => inr {| Effects.columns := []; Effects.rows := [] |};
  Effects.ExcelWriter := fun _ => None;
  Effects.to_excel := fun _ _ => None;
  Effects.save := fun _ _ => None;
  Effects.storage_Client := None;
  Effects.upload_from_filename := fun _ _ _ => None;
  Effects.GOOGLE_CLOUD_PROJECT := None;
  Effects.utcnow := lit "20240101T000000Z"
|}.

(** A world without the client library, in which every command fails. *)
Definition no_library_world : Effects.world := {|
  Effects.subprocess_run := fun _ => Effects.CalledProcessError (lit "ERROR: not found");
  Effects.asset_v1_importable := false;
  Effects.AssetServiceClient := None;
  Effects.search_all_resources := fun _ => ([vm_asset], None);
  Effects.DataFrame_of := fun _ => inr {| Effects.columns := []; Effects.rows := [] |};
  Effects.ExcelWriter := fun _ => None;
  Effects.to_excel := fun _ _ => None;
  Effects.save := fun _ _ => None;
  Effects.storage_Client := None;
  Effects.upload_from_filename := fun _ _ _ => None;
  Effects.GOOGLE_CLOUD_PROJECT := None;
  Effects.utcnow := lit "20240101T000000Z"
|}.

(** The projects the script works on:
    [[p.strip() for p in project.split(',') if p.strip()]], as in [main]. *)
Definition projects_of (project : str) : list str :=
  filter (fun p => p ≠ []) (map strip (Script.split_comma project)).

(** A text of commas and white space only. *)
Definition blank (s : str) : Prop :=
  Forall (fun c => c = chr "," ∨ isspace c = true) s.

(** A world in which every command fails. *)
Definition gcloud_down_world : Effects.world := {|
  Effects.subprocess_run := fun _ => Effects.CalledProcessError (lit "ERROR: not logged in");
  Effects.asset_v1_importable := true;
  Effects.AssetServiceClient := None;
  Effects.search_all_resources := fun _ => ([], None);
  Effects.DataFrame_of := fun _ => inr {| Effects.columns := []; Effects.rows := [] |};
  Effects.ExcelWriter := fun _ => None;
  Effects.to_excel := fun _ _ => None;
  Effects.save := fun _ _ => None;
  Effects.storage_Client := None;
  Effects.upload_from_filename := fun _ _ _ => None;
  Effects.GOOGLE_CLOUD_PROJECT := None;
  Effects.utcnow := lit "20240101T000000Z"
|}.

(** In [t], every element that satisfies [Q] comes after one that satisfies
    [P]. *)
Definition comes_after {A} (P Q : A → Prop) (t : list A) : Prop :=
  ∀ t1 x t2, t = t1 ++ x :: t2 → Q x → Exists P t1.

(** The command copies a file to a bucket. *)
Definition is_copy (cmd : str) : bool := Script.starts (lit "gcloud storage cp ") cmd.

(** The event runs a command that copies a file to a bucket. *)
Definition runs_copy (ev : Effects.event) : Prop :=
  ∃ cmd, ev = Effects.Subprocess cmd ∧ is_copy cmd = true.

(** The event saves a workbook. *)
Definition saves (ev : Effects.event) : Prop :=
  ∃ path book, ev = Effects.Saved path book.

(** The name of the file the package writes: [--output], or a name made of
    the project and the time. *)
Definition out_file (w : Effects.world) (a : Package.args) : str :=
  match Package.output a with
  | None | Some [] =>
      lit "gcp-inventory-" ++ Package.project a ++ lit "-" ++ Effects.utcnow w
      ++ lit ".xlsx"
  | Some o => o
  end.

(** The search result converts to the record. *)
Definition converts_to (item : Effects.asset) (d : list (str * Json.value)) : Prop :=
  Effects.to_dict item = inr d.

(** The workbook the package saves for a list of records. *)
Definition assets_book (resources : list (list (str * Json.value))) : Effects.workbook :=
  [(lit "assets", Package.frame_of resources)].

(** Every step of the package's run succeeds: the client is created, the
    search ends well, every result converts, the workbook is opened,
    written and saved, and the file is uploaded under its base name. *)
Definition all_steps_succeed (w : Effects.world) (a : Package.args) : Prop :=
  Effects.AssetServiceClient w = None ∧
  ∃ results resources,
    Effects.search_all_resources w (lit "projects/" ++ Package.project a) = (results, None) ∧
    Forall2 converts_to results resources ∧
    Effects.ExcelWriter w (out_file w a) = None ∧
    Effects.to_excel w (Package.frame_of resources) (lit "assets") = None ∧
    Effects.save w (out_file w a) (assets_book resources) = None ∧
    Effects.storage_Client w = None ∧
    Effects.upload_from_filename w (Package.bucket a) (Package.basename (out_file w a))
      (out_file w a) = None.

(** The event uploads a file to a bucket. *)
Definition uploads (ev : Effects.event) : Prop :=
  ∃ bucket destination file, ev = Effects.UploadFromFilename bucket destination file.

(** The event saves the file [path], as a workbook with the one sheet
    [assets]. *)
Definition saves_assets (path : str) (ev : Effects.event) : Prop :=
  ∃ book, ev = Effects.Saved path book ∧ sheet_names book = [lit "assets"].

(** The arguments [a] with [--project] set to [p]. *)
Definition with_project (a : Script.args) (p : str) : Script.args :=
  {| Script.project := Some p; Script.bucket := Script.bucket a;
     Script.output := Script.output a; Script.use_asset := Script.use_asset a |}.

(** A world in which the variable [GOOGLE_CLOUD_PROJECT] is set. *)
Definition env_project_world : Effects.world := {|
  Effects.subprocess_run := fun _ => Effects.Returned (lit "[]");
  Effects.asset_v1_importable := true;
  Effects.AssetServiceClient := None;
  Effects.search_all_resources := fun _ => ([], None);
  Effects.DataFrame_of := fun _ => inr {| Effects.columns := []; Effects.rows := [] |};
  Effects.ExcelWriter := fun _ => None;
  Effects.to_excel := fun _ _ => None;
  Effects.save := fun _ _ => None;
  Effects.storage_Client := None;
  Effects.upload_from_filename := fun _ _ _ => None;
  Effects.GOOGLE_CLOUD_PROJECT := Some (lit "demo");
  Effects.utcnow := lit "20240101T000000Z"
|}.

(** A world in which the client of the Cloud Asset API cannot be created. *)
Definition no_credentials_world : Effects.world := {|
  Effects.subprocess_run := fun _ => Effects.Returned (lit "[]");
  Effects.asset_v1_importable := true;
  Effects.AssetServiceClient := Some (Effects.Exception (lit "DefaultCredentialsError"));
  Effects.search_all_resources := fun _ => ([vm_asset], None);
  Effects.DataFrame_of := fun _ => inr {| Effects.columns := []; Effects.rows := [] |};
  Effects.ExcelWriter := fun _ => None;
  Effects.to_excel := fun _ _ => None;
  Effects.save := fun _ _ => None;
  Effects.storage_Client := None;
  Effects.upload_from_filename := fun _ _ _ => None;
  Effects.GOOGLE_CLOUD_PROJECT := None;
  Effects.utcnow := lit "20240101T000000Z"
|}.

(** The five kinds, in the order in which they are listed. *)
Definition all_kinds : list kind :=
  [compute_instances; gke_clusters; cloud_functions; sql_instances; storage_buckets].

(** The key an entry of a project has in the combined resource set. *)
Definition combined_key (p : str) (k : kind) : str := p ++ lit "::" ++ kind_key k.

(** The workbooks saved, in order, each with the path of its file. *)
Definition saved_files (t : list Effects.event) : list (str * Effects.workbook) :=
  omap (fun ev => match ev with Effects.Saved path book => Some (path, book) | _ => None end) t.

(** What the script's [main] does once the workbook is written to [output]:
    the upload, if a bucket is given, and the line that reports it. *)
Definition report_upload (w : Effects.world) (a : Script.args) (output : str)
    : Effects.IO unit :=
  match Script.bucket a with
  | None | Some [] => mret tt
  | Some b =>
      Effects.emit (Effects.Stdout (lit "Uploading " ++ output ++ lit " to bucket " ++ b));;
      ok ← Script.upload_to_gcs w output (Some b) None;
      if ok : bool then Effects.emit (Effects.Stdout (lit "Upload successful"))
      else Effects.emit (Effects.Stderr (lit "Upload failed"))
  end.
(** * Facts about the Python layer *)

Section py_facts.
Local Open Scope N_scope.

Lemma digits_all_digit fuel n : Forall is_digit (digits fuel n).
Proof.
  revert n. induction fuel as [|f IH]; intros n; simpl; [constructor|].
  destruct (n <? 10) eqn:E.
  - apply N.ltb_lt in E. constructor; [red; lia | constructor].
  - apply Forall_app. split; [apply IH|].
    assert (n mod 10 < 10) by (apply N.mod_lt; lia).
    generalize dependent (n mod 10). intros m Hm.
    constructor; [red; lia | constructor].
Qed.

Lemma digits_snoc fuel n :
  ∃ ds d, digits (S fuel) n = ds ++ [d] ∧ is_digit d.
Proof.
  simpl. destruct (n <? 10) eqn:E.
  - apply N.ltb_lt in E. exists [], (48 + n). split; [done|]. red. lia.
  - exists (digits fuel (n / 10)), (48 + n mod 10). split; [done|].
    assert (n mod 10 < 10) by (apply N.mod_lt; lia).
    generalize dependent (n mod 10). intros m Hm. red. lia.
Qed.

Lemma of_digits_snoc l c : of_digits (l ++ [c]) = 10 * of_digits l + (c - 48).
Proof. unfold of_digits. by rewrite fold_left_app. Qed.

Lemma of_digits_digits fuel n :
  n < 2 ^ N.of_nat fuel → of_digits (digits fuel n) = n.
Proof.
  revert n. induction fuel as [|f IH]; intros n Hn.
  - simpl in *. change (2 ^ 0) with 1 in Hn. assert (n = 0) as -> by lia. done.
  - cbn [digits]. destruct (n <? 10) eqn:E.
    + apply N.ltb_lt in E. unfold of_digits. simpl. lia.
    + apply N.ltb_ge in E. rewrite of_digits_snoc, IH.
      * zify. Z.to_euclidean_division_equations. lia.
      * rewrite Nat2N.inj_succ, N.pow_succ_r' in Hn.
        apply N.Div0.div_lt_upper_bound.
        assert (0 < 2 ^ N.of_nat f) by (apply N.neq_0_lt_0, N.pow_nonzero; lia).
        lia.
Qed.

Lemma str_of_int_fuel n : n < 2 ^ N.of_nat (S (N.to_nat (N.log2 n))).
Proof.
  rewrite Nat2N.inj_succ, N2Nat.id.
  destruct (decide (n = 0)) as [->|Hn]; [done|].
  apply N.log2_spec. lia.
Qed.

Lemma str_of_int_inj : Inj (=) (=) str_of_int.
Proof.
  intros n m H. unfold str_of_int in H.
  rewrite <- (of_digits_digits _ n (str_of_int_fuel n)).
  rewrite <- (of_digits_digits _ m (str_of_int_fuel m)).
  by rewrite H.
Qed.

Lemma str_of_int_all_digit n : Forall is_digit (str_of_int n).
Proof. apply digits_all_digit. Qed.

Lemma str_of_int_snoc n : ∃ ds d, str_of_int n = ds ++ [d] ∧ is_digit d.
Proof. apply digits_snoc. Qed.

Lemma digits_length fuel n (k : nat) :
  (1 ≤ k)%nat → n < 10 ^ N.of_nat k → (length (digits fuel n) ≤ k)%nat.
Proof.
  revert n k. induction fuel as [|f IH]; intros n k Hk Hn; simpl; [lia|].
  destruct (n <? 10) eqn:E; [simpl; lia|].
  apply N.ltb_ge in E. rewrite length_app. simpl.
  destruct k as [|[|k]]; [lia| |].
  - change (10 ^ N.of_nat 1) with 10 in Hn. lia.
  - specialize (IH (n / 10) (S k)).
    rewrite (Nat2N.inj_succ (S k)), N.pow_succ_r' in Hn.
    assert (n / 10 < 10 ^ N.of_nat (S k)).
    { apply N.Div0.div_lt_upper_bound. lia. }
    assert (1 ≤ S k)%nat by lia. specialize (IH ltac:(done) ltac:(done)). lia.
Qed.

Lemma str_of_int_length n (k : nat) :
  (1 ≤ k)%nat → n < 10 ^ N.of_nat k → (length (str_of_int n) ≤ k)%nat.
Proof. apply digits_length. Qed.

Lemma is_digit_not_space c : is_digit c → isspace c = false.
Proof.
  unfold is_digit, isspace. intros [H1 H2].
  repeat match goal with
         | |- context [?a <=? ?b] => destruct (N.leb_spec a b); try lia
         | |- context [?a =? ?b] => destruct (N.eqb_spec a b); try lia
         end; reflexivity.
Qed.

(** *** [strip] *)

Lemma lstrip_app_keep p c r :
  isspace c = false → lstrip (p ++ c :: r) = lstrip p ++ c :: r.
Proof.
  intros Hc. induction p as [|x p IH]; simpl; [by rewrite Hc|].
  by destruct (isspace x).
Qed.

Lemma rstrip_snoc_keep p c : isspace c = false → rstrip (p ++ [c]) = p ++ [c].
Proof.
  intros Hc. unfold rstrip. rewrite reverse_snoc. simpl. rewrite Hc.
  by rewrite reverse_cons, reverse_involutive.
Qed.

Lemma lstrip_suffix s : lstrip s `suffix_of` s.
Proof.
  induction s as [|c s IH]; simpl; [done|].
  destruct (isspace c); [by apply suffix_cons_r | done].
Qed.

Lemma rstrip_prefix s : rstrip s `prefix_of` s.
Proof.
  unfold rstrip. rewrite <- (reverse_involutive s) at 2.
  apply suffix_prefix_reverse, lstrip_suffix.
Qed.

Lemma lstrip_head s : match lstrip s with [] => True | c :: _ => isspace c = false end.
Proof.
  induction s as [|c s IH]; simpl; [done|].
  destruct (isspace c) eqn:E; [done | by rewrite E].
Qed.

Lemma lstrip_id c s : isspace c = false → lstrip (c :: s) = c :: s.
Proof. intros H. simpl. by rewrite H. Qed.

Lemma strip_decomp s : ∃ a k, s = a ++ strip s ++ k.
Proof.
  destruct (lstrip_suffix s) as [a Ha].
  destruct (rstrip_prefix (lstrip s)) as [k Hk].
  exists a, k. unfold strip. by rewrite <- Hk.
Qed.

Lemma strip_length s : (length (strip s) ≤ length s)%nat.
Proof.
  destruct (strip_decomp s) as (a & k & H).
  rewrite H at 2. rewrite !length_app. lia.
Qed.

Lemma strip_Forall (P : char → Prop) s : Forall P s → Forall P (strip s).
Proof.
  destruct (strip_decomp s) as (a & k & H). intros HP.
  rewrite H in HP. apply Forall_app in HP as [_ HP].
  by apply Forall_app in HP as [HP _].
Qed.

(** A stripped string is empty or starts with a character that is no
    white space. *)
Lemma strip_head s : match strip s with [] => True | c :: _ => isspace c = false end.
Proof.
  unfold strip. pose proof (lstrip_head s) as Hh.
  destruct (rstrip_prefix (lstrip s)) as [k Hk].
  destruct (rstrip (lstrip s)) as [|c r]; [done|].
  rewrite Hk in Hh. done.
Qed.

Lemma slice_to_prefix s n : slice_to s n `prefix_of` s.
Proof. unfold slice_to. destruct (0 <=? n)%Z; apply prefix_take. Qed.

Lemma slice_to_nonneg s n : (0 ≤ n)%Z → slice_to s n = take (Z.to_nat n) s.
Proof. intros H. unfold slice_to. by rewrite (proj2 (Z.leb_le 0 n) H). Qed.

Lemma slice_to_length s n : (0 ≤ n)%Z → (len (slice_to s n) ≤ n)%Z.
Proof.
  intros H. rewrite slice_to_nonneg by done. unfold len.
  rewrite length_take. lia.
Qed.

Lemma slice_to_all s n : (len s ≤ n)%Z → slice_to s n = s.
Proof.
  intros H. unfold len in H. rewrite slice_to_nonneg by lia.
  apply take_ge. lia.
Qed.

End py_facts.

(** * The renaming loop shared by both sanitizers *)

Section candidate_search.
Local Open Scope N_scope.

(** Both loops hold a pair (current name, counter); the test looks at the
    name only and the body replaces it by the counter's candidate. *)
Context (cond : str * N → bool) (body : str * N → str * N).
Context (bad : str → bool) (cand : N → str).
Hypothesis cond_eq : ∀ st, cond st = bad st.1.
Hypothesis body_eq : ∀ st, body st = (cand st.2, st.2 + 1).

Lemma while_found fuel s i r j :
  while fuel cond body (s, i) = Some (r, j) →
  bad r = false ∧
  ((r = s ∧ j = i) ∨
   (bad s = true ∧ ∃ k, i ≤ k ∧ j = k + 1 ∧ r = cand k ∧
      ∀ k', i ≤ k' < k → bad (cand k') = true)).
Proof.
  revert s i. induction fuel as [|f IH]; intros s i; simpl;
    rewrite cond_eq; simpl; destruct (bad s) eqn:Hs; try done.
  - intros [= <- <-]. auto.
  - rewrite body_eq. simpl. intros H. apply IH in H as [Hr H].
    split; [done|]. right. split; [done|].
    destruct H as [[-> ->]|(Hc & k & Hk & -> & -> & Hmin)].
    + exists i. repeat split; try lia; intros; lia.
    + exists k. repeat split; try lia.
      intros k' Hk'. destruct (decide (k' = i)) as [->|]; [done|].
      apply Hmin. lia.
  - intros [= <- <-]. auto.
Qed.

Lemma while_none fuel s i :
  while fuel cond body (s, i) = None →
  bad s = true ∧ ∀ k, i ≤ k < i + N.of_nat fuel → bad (cand k) = true.
Proof.
  revert s i. induction fuel as [|f IH]; intros s i; simpl;
    rewrite cond_eq; simpl; destruct (bad s) eqn:Hs; try done.
  - intros _. split; [done|]. intros; lia.
  - rewrite body_eq. simpl. intros H. apply IH in H as [Hc H].
    split; [done|]. intros k Hk.
    destruct (decide (k = i)) as [->|]; [done|]. apply H. lia.
Qed.

(** Distinct counters give distinct candidates, so a finite set of used
    names cannot hold a long run of them. *)
Lemma candidates_in_used (used : gset str) i (n : nat) :
  Inj (=) (=) cand →
  (∀ k, i ≤ k < i + N.of_nat n → cand k ∈ used) →
  (n ≤ size used)%nat.
Proof.
  intros Hinj Hin.
  set (l := (fun m : nat => cand (i + N.of_nat m)) <$> seq 0 n).
  assert (NoDup l) as Hnd.
  { apply NoDup_fmap_2; [|apply NoDup_seq].
    intros a b Hab. apply Hinj in Hab. lia. }
  assert (list_to_set l ⊆ used) as Hsub.
  { intros x Hx. apply elem_of_list_to_set in Hx.
    apply list_elem_of_fmap in Hx as (m & -> & Hm).
    apply elem_of_seq in Hm. apply Hin. lia. }
  apply subseteq_size in Hsub.
  rewrite size_list_to_set in Hsub by done.
  unfold l in Hsub. by rewrite length_fmap, length_seq in Hsub.
Qed.

(** The loop started with one more run than there are used names ends, at
    the first candidate that passes the test. *)
Lemma while_search (used : gset str) s i :
  Inj (=) (=) cand →
  (∀ k, bad (cand k) = true → cand k ∈ used) →
  ∃ r j, while (S (size used)) cond body (s, i) = Some (r, j) ∧
    bad r = false ∧
    ((r = s ∧ j = i) ∨
     (bad s = true ∧ ∃ k, i ≤ k ≤ i + N.of_nat (size used) ∧ j = k + 1 ∧
        r = cand k ∧ ∀ k', i ≤ k' < k → cand k' ∈ used)).
Proof.
  intros Hinj Hbad.
  destruct (while (S (size used)) cond body (s, i)) as [[r j]|] eqn:Hw.
  - exists r, j. split; [done|]. apply while_found in Hw as [Hr Hw].
    split; [done|].
    destruct Hw as [?|(Hs & k & Hk & -> & -> & Hmin)]; [by left|right].
    split; [done|]. exists k.
    assert (∀ k', i ≤ k' < k → cand k' ∈ used) as Hmin' by auto.
    repeat split; try done.
    pose proof (candidates_in_used used i (N.to_nat (k - i)) Hinj) as Hp.
    rewrite N2Nat.id in Hp.
    assert (N.to_nat (k - i) ≤ size used)%nat by (apply Hp; intros; apply Hmin'; lia).
    lia.
  - apply while_none in Hw as [_ Hw]. exfalso.
    pose proof (candidates_in_used used i (S (size used)) Hinj) as Hp.
    assert (S (size used) ≤ size used)%nat by (apply Hp; auto). lia.
Qed.

End candidate_search.

(** A name that ends in [_] and a decimal numeral determines the numeral. *)
Lemma split_at_last {A} (x : A) p q a b :
  x ∉ a → x ∉ b → p ++ x :: a = q ++ x :: b → p = q ∧ a = b.
Proof.
  intros Ha Hb. revert q. induction p as [|y p IHp]; intros q; destruct q as [|z q]; simpl.
  - intros [= Hab]. by subst.
  - intros [= <- ->]. exfalso. apply Ha. apply elem_of_app. right. left.
  - intros [= -> <-]. exfalso. apply Hb. apply elem_of_app. right. left.
  - intros [= -> H]. apply IHp in H as [-> ->]. done.
Qed.

Lemma underscore_not_digit n : chr "_" ∉ str_of_int n.
Proof.
  intros H. pose proof (str_of_int_all_digit n) as Hd.
  rewrite Forall_forall in Hd. apply Hd in H. unfold is_digit, chr in H.
  simpl in H. lia.
Qed.

Lemma numbered_inj p q i j :
  p ++ chr "_" :: str_of_int i = q ++ chr "_" :: str_of_int j → i = j.
Proof.
  intros H. apply split_at_last in H as [_ H]; auto using underscore_not_digit.
  by apply str_of_int_inj in H.
Qed.

(** * Sheet names *)

Lemma digit_not_forbidden c : is_digit c → c ∉ forbidden.
Proof.
  unfold is_digit, forbidden. intros Hc Hin. vm_compute lit in Hin.
  repeat (apply elem_of_cons in Hin as [->|Hin]; [lia|]).
  by apply elem_of_nil in Hin.
Qed.

Lemma underscore_not_forbidden : chr "_" ∉ forbidden.
Proof. compute_done. Qed.

Lemma numeral_no_forbidden i : no_forbidden (chr "_" :: str_of_int i).
Proof.
  constructor; [apply underscore_not_forbidden|].
  eapply Forall_impl; [apply str_of_int_all_digit|]. apply digit_not_forbidden.
Qed.

Lemma no_forbidden_prefix p s : p `prefix_of` s → no_forbidden s → no_forbidden p.
Proof. intros [k ->] H. by apply Forall_app in H as [H _]. Qed.

Lemma numeral_length i :
  (i < 10 ^ 30)%N → (length (chr "_" :: str_of_int i) ≤ 31)%nat.
Proof.
  intros Hi. cbn [length].
  pose proof (str_of_int_length i 30 ltac:(lia) Hi). lia.
Qed.

Lemma fits_counter (used : gset str) k :
  fits used → (k ≤ 1 + N.of_nat (size used))%N → (k < 10 ^ 30)%N.
Proof. unfold fits, SSIZE_MAX. intros H1 H2. lia. Qed.

Section script_sanitize.
Import Script.

Lemma replace_invalid_no_forbidden name : no_forbidden (replace_invalid name).
Proof.
  unfold no_forbidden, replace_invalid. apply Forall_fmap, Forall_forall.
  intros c _. simpl. unfold char_in. case_bool_decide as Hc.
  - apply underscore_not_forbidden.
  - exact Hc.
Qed.

Lemma replace_invalid_id name : no_forbidden name → replace_invalid name = name.
Proof.
  unfold no_forbidden, replace_invalid. induction 1 as [|c l Hc _ IH]; [done|].
  simpl. f_equal; [|exact IH].
  unfold char_in. by rewrite bool_decide_eq_false_2.
Qed.

Lemma renamed_shape base i :
  ∃ p, p `prefix_of` base ∧ renamed base i = p ++ suffix_of i.
Proof.
  unfold renamed. destruct (31 <? len base + len (suffix_of i))%Z.
  - eexists. split; [apply slice_to_prefix | done].
  - exists base. done.
Qed.

Lemma renamed_inj base : Inj (=) (=) (renamed base).
Proof.
  intros i j H.
  destruct (renamed_shape base i) as (p & _ & Hp).
  destruct (renamed_shape base j) as (q & _ & Hq).
  rewrite Hp, Hq in H. by apply numbered_inj in H.
Qed.

Lemma renamed_nonempty base i : renamed base i ≠ [].
Proof.
  destruct (renamed_shape base i) as (p & _ & ->). by destruct p.
Qed.

Lemma renamed_no_forbidden base i : no_forbidden base → no_forbidden (renamed base i).
Proof.
  intros Hb. destruct (renamed_shape base i) as (p & Hp & ->).
  apply Forall_app. split; [by eapply no_forbidden_prefix|].
  apply numeral_no_forbidden.
Qed.

Lemma renamed_length base i :
  (length base ≤ 31)%nat → (i < 10 ^ 30)%N → (length (renamed base i) ≤ 31)%nat.
Proof.
  intros Hb Hi. pose proof (numeral_length i Hi) as Hs.
  unfold renamed. fold (suffix_of i) in Hs.
  destruct (Z.ltb_spec 31 (len base + len (suffix_of i))) as [Hlt|Hge].
  - rewrite length_app.
    pose proof (slice_to_length base (31 - len (suffix_of i))) as Hl.
    unfold len in *. lia.
  - rewrite length_app. unfold len in *. lia.
Qed.

(** What one call of [sanitize] returns. *)
Lemma sanitize_spec name used :
  let base := slice_to (replace_invalid name) 31 in
  ∃ r, sanitize name used = Some (r, {[ r ]} ∪ used) ∧ (r ∉ used) ∧ r ≠ [] ∧
    ((r = base ∧ (base ∉ used) ∧ base ≠ []) ∨
     ((base ∈ used ∨ base = []) ∧
      ∃ k, (1 ≤ k ≤ 1 + N.of_nat (size used))%N ∧ r = renamed base k ∧
        ∀ k', (1 ≤ k' < k)%N → renamed base k' ∈ used)).
Proof.
  intros base.
  destruct (while_search (sanitize_cond used) (sanitize_body base)
              (fun s => bool_decide (s ∈ used) || bool_decide (s = []))
              (renamed base) ltac:(done) ltac:(done) used base 1%N
              (renamed_inj base)) as (r & j & Hw & Hr & Hcase).
  { intros k Hk. apply orb_true_iff in Hk as [Hk|Hk].
    - by apply bool_decide_eq_true in Hk.
    - apply bool_decide_eq_true in Hk. by apply renamed_nonempty in Hk. }
  apply orb_false_iff in Hr as [Hr1 Hr2].
  apply bool_decide_eq_false in Hr1. apply bool_decide_eq_false in Hr2.
  exists r. split; [|split; [done|split; [done|]]].
  - unfold sanitize. fold base. rewrite Hw. done.
  - destruct Hcase as [[-> ->]|(Hb & k & Hk & -> & -> & Hmin)]; [by left|right].
    split; [|by exists k].
    apply orb_true_iff in Hb as [Hb|Hb]; apply bool_decide_eq_true in Hb; auto.
Qed.

Lemma sanitize_base_props name :
  let base := slice_to (replace_invalid name) 31 in
  no_forbidden base ∧ (length base ≤ 31)%nat.
Proof.
  intros base. split.
  - eapply no_forbidden_prefix; [apply slice_to_prefix|].
    apply replace_invalid_no_forbidden.
  - pose proof (slice_to_length (replace_invalid name) 31). unfold len in *.
    fold base in H. lia.
Qed.

(** The name returned is a valid sheet name that was not in use. *)
Lemma sanitize_valid name used :
  ∃ r, sanitize name used = Some (r, {[ r ]} ∪ used) ∧
    no_forbidden r ∧ (r ∉ used) ∧ r ≠ [] ∧
    (fits used → (length r ≤ 31)%nat).
Proof.
  destruct (sanitize_spec name used) as (r & Hs & Hfresh & Hne & Hcase).
  destruct (sanitize_base_props name) as [Hnf Hlen].
  exists r. repeat split; try done.
  - destruct Hcase as [(-> & _)|(_ & k & _ & -> & _)]; [done|].
    by apply renamed_no_forbidden.
  - intros Hfit. destruct Hcase as [(-> & _)|(_ & k & Hk & -> & _)]; [done|].
    apply renamed_length; [done|]. eapply fits_counter; [done|lia].
Qed.

End script_sanitize.

Section package_sanitize.
Import Package.

Lemma forbidden_invalid c : c ∈ forbidden → c ∈ INVALID_SHEET_CHARS.
Proof.
  unfold forbidden. intros Hin. vm_compute lit in Hin.
  repeat (apply elem_of_cons in Hin as [->|Hin]; [compute_done|]).
  by apply elem_of_nil in Hin.
Qed.

Lemma remove_invalid_no_forbidden name : no_forbidden (remove_invalid name).
Proof.
  unfold no_forbidden, remove_invalid. apply Forall_forall.
  intros c Hc. apply list_elem_of_filter in Hc as [Hc _].
  intros Hin. by apply Hc, forbidden_invalid.
Qed.

Lemma invalid_forbidden c : c ∈ INVALID_SHEET_CHARS → c ∈ forbidden.
Proof.
  unfold INVALID_SHEET_CHARS. rewrite elem_of_list_to_set.
  intros Hin. vm_compute lit in Hin. unfold forbidden. vm_compute lit.
  repeat (apply elem_of_cons in Hin as [->|Hin]; [compute_done|]).
  by apply elem_of_nil in Hin.
Qed.

Lemma remove_invalid_id name : no_forbidden name → remove_invalid name = name.
Proof.
  unfold no_forbidden, remove_invalid. induction 1 as [|c l Hc _ IH]; [done|].
  rewrite filter_cons_True; [by rewrite IH|].
  intros Hin. by apply Hc, invalid_forbidden.
Qed.

Lemma base_trimmed name :
  trimmed (str_or (strip (slice_to (remove_invalid name) MAX_SHEET_LEN)) (lit "sheet")).
Proof.
  pose proof (strip_head (slice_to (remove_invalid name) MAX_SHEET_LEN)) as H.
  destruct (strip _) as [|c r]; simpl; [done | exact H].
Qed.

Lemma strip_numbered p i :
  strip (p ++ tail_of i) = lstrip p ++ tail_of i.
Proof.
  unfold strip, tail_of.
  rewrite lstrip_app_keep by done.
  destruct (str_of_int_snoc i) as (ds & d & -> & Hd).
  change (lstrip p ++ chr "_" :: ds ++ [d])
    with (lstrip p ++ (chr "_" :: ds) ++ [d]).
  rewrite app_assoc. apply rstrip_snoc_keep. by apply is_digit_not_space.
Qed.

Lemma lstrip_prefix_trimmed p base :
  trimmed base → p `prefix_of` base → lstrip p = p.
Proof.
  intros Hb [k ->]. destruct p as [|c p]; [done|].
  simpl in Hb. by apply lstrip_id.
Qed.

Lemma renamed_unfold base i :
  trimmed base →
  renamed base i = slice_to base (MAX_SHEET_LEN - len (tail_of i)) ++ tail_of i.
Proof.
  intros Hb. unfold renamed. cbv zeta. rewrite strip_numbered.
  f_equal. eapply lstrip_prefix_trimmed; [done|]. apply slice_to_prefix.
Qed.

Lemma package_renamed_inj base : Inj (=) (=) (renamed base).
Proof.
  intros i j H. unfold renamed in H. cbv zeta in H.
  rewrite !strip_numbered in H. by apply numbered_inj in H.
Qed.

Lemma package_renamed_no_forbidden base i :
  trimmed base → no_forbidden base → no_forbidden (renamed base i).
Proof.
  intros Ht Hb. rewrite renamed_unfold by done.
  apply Forall_app. split; [|apply numeral_no_forbidden].
  eapply no_forbidden_prefix; [apply slice_to_prefix | done].
Qed.

Lemma package_renamed_length base i :
  trimmed base → (i < 10 ^ 30)%N → (length (renamed base i) ≤ 31)%nat.
Proof.
  intros Ht Hi. rewrite renamed_unfold by done.
  pose proof (numeral_length i Hi) as Hs. fold (tail_of i) in Hs.
  pose proof (slice_to_length base (MAX_SHEET_LEN - len (tail_of i))) as Hl.
  rewrite length_app. unfold len, MAX_SHEET_LEN in *. lia.
Qed.

Lemma sheet_name_spec name used :
  let base := str_or (strip (slice_to (remove_invalid name) MAX_SHEET_LEN))
                (lit "sheet") in
  ∃ r, sanitize_sheet_name name used = Some (r, {[ r ]} ∪ used) ∧ (r ∉ used) ∧
    ((r = base ∧ (base ∉ used)) ∨
     (base ∈ used ∧
      ∃ k, (1 ≤ k ≤ 1 + N.of_nat (size used))%N ∧ r = renamed base k ∧
        ∀ k', (1 ≤ k' < k)%N → renamed base k' ∈ used)).
Proof.
  intros base.
  destruct (while_search (sanitize_cond used) (sanitize_body base)
              (fun s => bool_decide (s ∈ used))
              (renamed base) ltac:(done) ltac:(done) used base 1%N
              (package_renamed_inj base)) as (r & j & Hw & Hr & Hcase).
  { intros k Hk. by apply bool_decide_eq_true in Hk. }
  apply bool_decide_eq_false in Hr.
  exists r. split; [|split; [done|]].
  - unfold sanitize_sheet_name. fold base. rewrite Hw. done.
  - destruct Hcase as [[-> ->]|(Hb & k & Hk & -> & -> & Hmin)]; [by left|right].
    apply bool_decide_eq_true in Hb. split; [done|]. by exists k.
Qed.

Lemma sheet_base_props name :
  let base := str_or (strip (slice_to (remove_invalid name) MAX_SHEET_LEN))
                (lit "sheet") in
  no_forbidden base ∧ (length base ≤ 31)%nat ∧ trimmed base.
Proof.
  intros base. split; [|split]; [| |apply base_trimmed].
  - unfold base. clear base. destruct (strip _) as [|c r] eqn:E; simpl.
    + apply Forall_forall. intros c Hc Hin. revert Hc. vm_compute lit.
      unfold forbidden in Hin. vm_compute lit in Hin.
      intros Hc.
      repeat (apply elem_of_cons in Hin as [->|Hin];
              [revert Hc; compute_done|]).
      by apply elem_of_nil in Hin.
    + rewrite <- E. apply strip_Forall.
      eapply no_forbidden_prefix; [apply slice_to_prefix|].
      apply remove_invalid_no_forbidden.
  - unfold base. clear base. destruct (strip _) as [|c r] eqn:E; [simpl; lia|].
    unfold str_or.
    rewrite <- E.
    pose proof (strip_length (slice_to (remove_invalid name) MAX_SHEET_LEN)).
    pose proof (slice_to_length (remove_invalid name) MAX_SHEET_LEN).
    unfold len, MAX_SHEET_LEN in *. lia.
Qed.

Lemma sheet_name_valid name used :
  ∃ r, sanitize_sheet_name name used = Some (r, {[ r ]} ∪ used) ∧
    no_forbidden r ∧ (r ∉ used) ∧ r ≠ [] ∧
    (fits used → (length r ≤ 31)%nat).
Proof.
  destruct (sheet_name_spec name used) as (r & Hs & Hfresh & Hcase).
  destruct (sheet_base_props name) as (Hnf & Hlen & Ht).
  exists r. repeat split; try done.
  - destruct Hcase as [(-> & _)|(_ & k & _ & -> & _)]; [done|].
    by apply package_renamed_no_forbidden.
  - destruct Hcase as [(-> & _)|(_ & k & _ & -> & _)].
    + intros E. rewrite E in Ht. destruct Ht.
    + rewrite renamed_unfold by done. unfold tail_of.
      intros E. apply (f_equal length) in E.
      rewrite length_app in E. simpl in E. lia.
  - intros Hfit. destruct Hcase as [(-> & _)|(_ & k & Hk & -> & _)]; [done|].
    apply package_renamed_length; [done|]. eapply fits_counter; [done|lia].
Qed.

End package_sanitize.

(** ** Both sanitizers at once *)

Lemma sanitizer_spec p label used :
  ∃ r, sanitizer p label used = Some (r, {[ r ]} ∪ used) ∧ (r ∉ used) ∧ r ≠ [] ∧
    ((r = base p label ∧ (base p label ∉ used)) ∨
     ((base p label ∈ used ∨ (p = script ∧ base p label = [])) ∧
      ∃ k, (1 ≤ k ≤ 1 + N.of_nat (size used))%N ∧ r = numbered p (base p label) k ∧
        ∀ k', (1 ≤ k' < k)%N → numbered p (base p label) k' ∈ used)).
Proof.
  destruct p; simpl.
  - destruct (sanitize_spec label used) as (r & Hs & Hf & Hne & Hcase).
    exists r. repeat split; try done.
    destruct Hcase as [(-> & Hb & _)|([Hb|Hb] & Hk)]; [left|right|right]; auto.
  - destruct (sheet_name_valid label used) as (r' & Hs' & _ & _ & Hne & _).
    destruct (sheet_name_spec label used) as (r & Hs & Hf & Hcase).
    assert (r' = r) as -> by congruence.
    exists r. repeat split; try done.
    destruct Hcase as [(-> & Hb)|(Hb & Hk)]; [left|right]; auto.
Qed.

Lemma base_props p label :
  no_forbidden (base p label) ∧ (length (base p label) ≤ 31)%nat ∧
  (p = package → trimmed (base p label)).
Proof.
  destruct p; simpl.
  - destruct (sanitize_base_props label) as [H1 H2]. repeat split; try done.
  - destruct (sheet_base_props label) as (H1 & H2 & H3). repeat split; try done.
Qed.

(** The name tried for the counter [k]: the base, cut so that [_k] fits,
    followed by [_k]. *)
Lemma numbered_shape p b k :
  (p = package → trimmed b) → (length (numeral k) ≤ 31)%nat →
  numbered p b k = take (31 - length (numeral k)) b ++ numeral k.
Proof.
  intros Ht Hk. destruct p; unfold numbered.
  - unfold Script.renamed. fold (numeral k).
    change (Script.suffix_of k) with (numeral k).
    destruct (Z.ltb_spec 31 (len b + len (numeral k))) as [Hlt|Hge].
    + rewrite slice_to_nonneg by (unfold len; lia). f_equal. f_equal.
      unfold len. lia.
    + f_equal. symmetry. apply take_ge. unfold len in Hge. lia.
  - rewrite renamed_unfold by auto. change (Package.tail_of k) with (numeral k).
    rewrite slice_to_nonneg by (unfold len, Package.MAX_SHEET_LEN; lia).
    f_equal. f_equal. unfold len, Package.MAX_SHEET_LEN. lia.
Qed.

Lemma numbered_length p b k :
  (p = package → trimmed b) → (length (numeral k) ≤ 31)%nat →
  (length (numbered p b k) ≤ 31)%nat ∧
  ((31 < length b + length (numeral k))%nat → length (numbered p b k) = 31%nat).
Proof.
  intros Ht Hk. rewrite numbered_shape by done.
  rewrite length_app, length_take. lia.
Qed.

Lemma fits_numeral (used : gset str) k :
  (N.of_nat (size used) ≤ SSIZE_MAX + 1)%N → (k ≤ 1 + N.of_nat (size used))%N →
  (length (numeral k) ≤ 31)%nat.
Proof.
  unfold SSIZE_MAX. intros H1 H2. apply numeral_length. lia.
Qed.

Lemma numbered_prefix p b k :
  (p = package → trimmed b) →
  ∃ q, q `prefix_of` b ∧ numbered p b k = q ++ numeral k.
Proof.
  intros Ht. destruct p; unfold numbered.
  - apply renamed_shape.
  - rewrite renamed_unfold by auto. eexists. split; [apply slice_to_prefix|done].
Qed.

Lemma sanitizer_valid p label used :
  ∃ r, sanitizer p label used = Some (r, {[ r ]} ∪ used) ∧
    no_forbidden r ∧ (r ∉ used) ∧ r ≠ [] ∧
    ((N.of_nat (size used) ≤ SSIZE_MAX + 1)%N → (length r ≤ 31)%nat).
Proof.
  destruct (sanitizer_spec p label used) as (r & Hs & Hf & Hne & Hcase).
  destruct (base_props p label) as (Hnf & Hlen & Ht).
  exists r. repeat split; try done.
  - destruct Hcase as [(-> & _)|(_ & k & Hk & -> & _)]; [done|].
    destruct (numbered_prefix p (base p label) k Ht) as (q & Hq & ->).
    apply Forall_app. split; [|apply numeral_no_forbidden].
    by eapply no_forbidden_prefix.
  - intros Hfit. destruct Hcase as [(-> & _)|(_ & k & Hk & -> & _)]; [done|].
    apply numbered_length; [done|]. eapply fits_numeral; [done|lia].
Qed.

Lemma valid_and_fresh_sanitizer p label label' used :
  valid_and_fresh (sanitizer p) label label' used.
Proof.
  destruct (sanitizer_valid p label used) as (s & Hs & Hnf & Hfresh & _ & Hlen).
  destruct (sanitizer_spec p label' ({[ s ]} ∪ used)) as (s' & Hs' & Hfresh' & _).
  exists s, ({[ s ]} ∪ used), s', ({[ s' ]} ∪ ({[ s ]} ∪ used)).
  repeat split; try done.
  - intros Hfit. apply Hlen. unfold fits in Hfit. lia.
  - intros ->. apply Hfresh'.
    apply elem_of_union. left. by apply elem_of_singleton.
Qed.

(** The result depends on the label through its base only. *)
Lemma sanitizer_base_eq p label1 label2 used :
  base p label1 = base p label2 →
  sanitizer p label1 used = sanitizer p label2 used.
Proof.
  destruct p; unfold base, sanitizer; intros H.
  - unfold Script.sanitize. cbv zeta. by rewrite H.
  - unfold Package.sanitize_sheet_name. cbv zeta. by rewrite H.
Qed.

Lemma base_of_valid p label :
  no_forbidden label → (length label ≤ 31)%nat → label ≠ [] → strip label = label →
  base p label = label.
Proof.
  intros Hnf Hlen Hne Hstrip. destruct p; unfold base.
  - rewrite replace_invalid_id by done. apply slice_to_all. unfold len. lia.
  - rewrite remove_invalid_id by done.
    rewrite slice_to_all by (unfold len, Package.MAX_SHEET_LEN; lia).
    rewrite Hstrip. by destruct label.
Qed.

Lemma sanitizer_numbered p label used :
  (N.of_nat (size used) ≤ SSIZE_MAX + 1)%N →
  ∃ s, sanitizer p label used = Some (s, {[ s ]} ∪ used) ∧ (s ∉ used) ∧ s ≠ [] ∧
    ((s = base p label ∧ (base p label ∉ used)) ∨
     ((base p label ∈ used ∨ base p label = []) ∧ cut_and_numbered (base p label) s)).
Proof.
  intros Hfit.
  destruct (sanitizer_spec p label used) as (r & Hs & Hf & Hne & Hcase).
  destruct (base_props p label) as (_ & _ & Ht).
  exists r. repeat split; try done.
  destruct Hcase as [?|(Hb & k & Hk & -> & _)]; [by left|right].
  split; [destruct Hb as [?|[_ ?]]; auto|].
  assert (length (numeral k) ≤ 31)%nat by (eapply fits_numeral; [done|lia]).
  exists k. split; [lia|]. split; [by apply numbered_shape|].
  by apply numbered_length.
Qed.

Lemma all_forbidden_removed label :
  Forall (fun c => c ∈ forbidden) label → Package.remove_invalid label = [].
Proof.
  unfold Package.remove_invalid. induction 1 as [|c l Hc _ IH]; [done|].
  rewrite filter_cons_False; [done|].
  intros Hn. by apply Hn, forbidden_invalid.
Qed.

Lemma sheet_numbered k :
  (k < 10 ^ 25)%N → numbered package (lit "sheet") k = lit "sheet" ++ numeral k.
Proof.
  intros Hk.
  assert (length (numeral k) ≤ 26)%nat as Hlen.
  { unfold numeral. cbn [length].
    pose proof (str_of_int_length k 25 ltac:(lia) Hk). lia. }
  rewrite numbered_shape; [|intros _; done|lia].
  f_equal. apply take_ge. change (length (lit "sheet")) with 5%nat. lia.
Qed.

Lemma empty_numbered k : numbered script [] k = numeral k.
Proof.
  unfold numbered, Script.renamed. change (Script.suffix_of k) with (numeral k).
  destruct (31 <? _)%Z; [|done].
  unfold slice_to. by destruct (0 <=? _)%Z; rewrite take_nil.
Qed.

Lemma replace_invalid_nil label : Script.replace_invalid label = [] → label = [].
Proof. unfold Script.replace_invalid. by destruct label. Qed.

(** * [json.loads] undoes [json.dumps] *)

Section json_facts.
Import Json.
Local Open Scope N_scope.

(** Induction on values, with the hypothesis for every element of a list
    and every value of a dict. *)
Lemma value_ind (P : value → Prop) :
  P VNone → (∀ b, P (VBool b)) → (∀ n, P (VInt n)) → (∀ l, P (VFloat l)) →
  (∀ s, P (VStr s)) →
  (∀ l, Forall P l → P (VList l)) →
  (∀ d, Forall (fun kv => P kv.2) d → P (VDict d)) →
  ∀ v, P v.
Proof.
  intros HN HB HI HF HS HL HD.
  fix IH 1. intros [|b|n|f|s|l|d];
    [exact HN | exact (HB b) | exact (HI n) | exact (HF f) | exact (HS s) | | ].
  - apply HL. induction l as [|x l IHl]; constructor; [apply IH | exact IHl].
  - apply HD. induction d as [|[k x] d IHd]; constructor; [apply IH | exact IHd].
Qed.

Lemma well_formed_list l : well_formed (VList l) ↔ Forall well_formed l.
Proof.
  simpl. induction l as [|x l IH]; simpl.
  - split; [constructor | done].
  - rewrite Forall_cons. by rewrite IH.
Qed.

Lemma well_formed_dict d :
  well_formed (VDict d) ↔ NoDup (keys d) ∧ Forall (fun kv => well_formed kv.2) d.
Proof.
  simpl. apply and_iff_compat_l.
  induction d as [|x l IH]; simpl.
  - split; [constructor | done].
  - rewrite Forall_cons. by rewrite IH.
Qed.

(** *** Strings *)

Lemma scanstring_plain c r :
  c ≠ 34 → c ≠ 92 → 32 ≤ c → scanstring (c :: r) = cons_char c (scanstring r).
Proof.
  intros H1 H2 H3. cbn [scanstring].
  rewrite (proj2 (N.eqb_neq c 34) H1), (proj2 (N.eqb_neq c 92) H2).
  by rewrite (proj2 (N.ltb_ge c 32) H3).
Qed.

Lemma scanstring_escape e ch r :
  e ≠ 117 → unescape e = Some ch →
  scanstring (92 :: e :: r) = cons_char ch (scanstring r).
Proof.
  intros H1 H2. cbn [scanstring]. change (92 =? 34) with false.
  change (92 =? 92) with true. cbv iota.
  by rewrite (proj2 (N.eqb_neq e 117) H1), H2.
Qed.

Lemma scanstring_control a b c d uni r :
  hex4 a b c d = Some uni → is_high_surrogate uni = false →
  scanstring (92 :: 117 :: a :: b :: c :: d :: r) = cons_char uni (scanstring r).
Proof.
  intros H1 H2. cbn [scanstring]. change (92 =? 34) with false.
  change (92 =? 92) with true. change (117 =? 117) with true. cbv iota.
  rewrite H1, H2. by destruct r as [|? [|? ?]].
Qed.

Lemma control_hex c :
  c < 32 →
  hex4 48 48 (hex_digit (c / 16)) (hex_digit (c mod 16)) = Some c
  ∧ is_high_surrogate c = false.
Proof.
  intros Hc.
  assert (Forall (fun c => hex4 48 48 (hex_digit (c / 16)) (hex_digit (c mod 16))
                             = Some c ∧ is_high_surrogate c = false)
            (N.of_nat <$> seq 0 32)) as Hall.
  { by repeat constructor. }
  rewrite Forall_forall in Hall. apply Hall.
  apply list_elem_of_fmap. exists (N.to_nat c). split; [lia|].
  apply elem_of_seq. lia.
Qed.

Lemma scanstring_escape_char c r :
  scanstring (escape_char c ++ r) = cons_char c (scanstring r).
Proof.
  unfold escape_char.
  destruct (N.eqb_spec c 34) as [->|H1]; [by apply scanstring_escape|].
  destruct (N.eqb_spec c 92) as [->|H2]; [by apply scanstring_escape|].
  destruct (N.eqb_spec c 10) as [->|H3]; [by apply scanstring_escape|].
  destruct (N.eqb_spec c 13) as [->|H4]; [by apply scanstring_escape|].
  destruct (N.eqb_spec c 9) as [->|H5]; [by apply scanstring_escape|].
  destruct (N.eqb_spec c 8) as [->|H6]; [by apply scanstring_escape|].
  destruct (N.eqb_spec c 12) as [->|H7]; [by apply scanstring_escape|].
  destruct (N.ltb_spec c 32) as [H8|H8].
  - destruct (control_hex c H8) as [Hh Hs].
    by apply scanstring_control.
  - by apply scanstring_plain.
Qed.

Lemma scanstring_encoded s rest :
  scanstring (concat (map escape_char s) ++ quote :: rest) = Some (s, rest).
Proof.
  induction s as [|c s IH]; [done|].
  cbn [map concat]. rewrite <- app_assoc, scanstring_escape_char.
  by rewrite IH.
Qed.

Lemma encode_basestring_app s rest :
  encode_basestring s ++ rest = quote :: concat (map escape_char s) ++ quote :: rest.
Proof. unfold encode_basestring. cbn [app]. by rewrite <- app_assoc. Qed.

(** *** Numbers *)

Lemma digits_head fuel n :
  1 ≤ n → n < 2 ^ N.of_nat fuel →
  ∃ d ds, digits fuel n = d :: ds ∧ 49 ≤ d ≤ 57.
Proof.
  revert n. induction fuel as [|f IH]; intros n H1 Hn.
  - change (2 ^ N.of_nat 0) with 1 in Hn. lia.
  - cbn [digits]. destruct (N.ltb_spec n 10) as [Hlt|Hge].
    + exists (48 + n), []. split; [done|lia].
    + destruct (IH (n / 10)) as (d & ds & -> & Hd).
      * apply N.div_le_lower_bound; lia.
      * rewrite Nat2N.inj_succ, N.pow_succ_r' in Hn.
        apply N.Div0.div_lt_upper_bound.
        assert (0 < 2 ^ N.of_nat f) by (apply N.neq_0_lt_0, N.pow_nonzero; lia).
        lia.
      * by exists d, (ds ++ [48 + n `mod` 10]).
Qed.

Lemma str_of_int_head n :
  1 ≤ n → ∃ d ds, str_of_int n = d :: ds ∧ 49 ≤ d ≤ 57 ∧ Forall is_digit ds.
Proof.
  intros H1.
  destruct (digits_head _ n H1 (str_of_int_fuel n)) as (d & ds & Hd & Hr).
  exists d, ds. repeat split; try done; try lia.
  pose proof (str_of_int_all_digit n) as Hall. unfold str_of_int in Hall.
  rewrite Hd in Hall. by apply Forall_cons in Hall as [_ Hall].
Qed.

Lemma of_digits_str_of_int n : of_digits (str_of_int n) = n.
Proof. apply of_digits_digits, str_of_int_fuel. Qed.

Lemma delimited_ends_number rest : delimited rest → ends_number rest.
Proof.
  destruct rest as [|c r]; [done|]. simpl. unfold chr. simpl.
  intros [-> | [-> | ->]]; by vm_compute.
Qed.

Lemma is_dec_digit c : is_digit c → is_dec c = true.
Proof.
  unfold is_digit, is_dec. intros [H1 H2].
  apply andb_true_intro. split; by apply N.leb_le.
Qed.

Lemma span_digits_app ds rest :
  Forall is_digit ds → ends_number rest → span_digits (ds ++ rest) = (ds, rest).
Proof.
  intros Hds Hrest. induction Hds as [|c ds Hc _ IH]; cbn [app span_digits].
  - destruct rest as [|c r]; [done|]. destruct Hrest as [Hc _].
    cbn [span_digits]. by rewrite Hc.
  - by rewrite (is_dec_digit c Hc), IH.
Qed.

Lemma match_frac_none rest : ends_number rest → match_frac rest = ([], rest).
Proof.
  destruct rest as [|c r]; [done|]. intros (_ & H & _). unfold match_frac.
  by rewrite (proj2 (N.eqb_neq c 46) H).
Qed.

Lemma match_exp_none rest : ends_number rest → match_exp rest = ([], rest).
Proof.
  destruct rest as [|c r]; [done|]. intros (_ & _ & H1 & H2). unfold match_exp.
  by rewrite (proj2 (N.eqb_neq c 101) H1), (proj2 (N.eqb_neq c 69) H2).
Qed.

Lemma match_integer_nat m rest :
  ends_number rest → match_integer (str_of_int m ++ rest) = Some (str_of_int m, rest).
Proof.
  intros Hrest. destruct (decide (m = 0)) as [->|Hm].
  - done.
  - destruct (str_of_int_head m ltac:(lia)) as (d & ds & -> & Hd & Hds).
    unfold match_integer. cbn [app].
    rewrite (proj2 (N.eqb_neq d 45)) by lia.
    rewrite (proj2 (N.eqb_neq d 48)) by lia.
    rewrite is_dec_digit by (red; lia).
    by rewrite span_digits_app.
Qed.

Lemma match_integer_neg m rest :
  1 ≤ m → ends_number rest →
  match_integer (45 :: str_of_int m ++ rest) = Some (45 :: str_of_int m, rest).
Proof.
  intros Hm Hrest.
  destruct (str_of_int_head m Hm) as (d & ds & -> & Hd & Hds).
  unfold match_integer. cbn [app]. change (45 =? 45) with true. cbv iota.
  rewrite (proj2 (N.eqb_neq d 48)) by lia.
  rewrite is_dec_digit by (red; lia).
  by rewrite span_digits_app.
Qed.

Lemma int_of_text_nat m : int_of_text (str_of_int m) = Z.of_N m.
Proof.
  unfold int_of_text. destruct (str_of_int m) as [|d ds] eqn:E.
  - pose proof (of_digits_str_of_int m) as H. rewrite E in H. by subst m.
  - pose proof (str_of_int_all_digit m) as Hall. rewrite E in Hall.
    apply Forall_cons in Hall as [Hd _]. unfold is_digit in Hd.
    rewrite (proj2 (N.eqb_neq d 45)) by lia.
    by rewrite <- E, of_digits_str_of_int.
Qed.

Lemma match_number_int n rest :
  ends_number rest → match_number (str_of_Z n ++ rest) = Some (VInt n, rest).
Proof.
  intros Hrest. unfold match_number, str_of_Z.
  destruct (Z.ltb_spec n 0) as [Hneg|Hpos].
  - cbn [app]. rewrite match_integer_neg by (done || lia).
    cbn [mbind option_bind].
    rewrite match_frac_none, match_exp_none by done.
    do 3 f_equal. unfold int_of_text. change (45 =? 45) with true. cbv iota.
    rewrite of_digits_str_of_int. lia.
  - rewrite match_integer_nat by done. cbn [mbind option_bind].
    rewrite match_frac_none, match_exp_none by done.
    do 3 f_equal. rewrite int_of_text_nat. lia.
Qed.

Lemma str_of_Z_head n :
  ∃ c r, str_of_Z n = c :: r ∧ (is_dec c = true ∨ c = 45).
Proof.
  unfold str_of_Z. destruct (n <? 0)%Z.
  - eexists _, _. split; [done|by right].
  - destruct (str_of_int_snoc (Z.to_N n)) as (ds & d & E & Hd).
    pose proof (str_of_int_all_digit (Z.to_N n)) as Hall.
    destruct (str_of_int (Z.to_N n)) as [|c r]; [by destruct ds|].
    apply Forall_cons in Hall as [Hc _].
    exists c, r. split; [done|]. left. by apply is_dec_digit.
Qed.

Lemma dumps_head v :
  well_formed v → ∃ c r, dumps v = c :: r ∧ value_start c.
Proof.
  unfold value_start. destruct v as [|[]|n|f|s|l|d]; intros Hwf; try done;
    try (eexists _, _; split; [reflexivity|right; compute_done]).
  destruct (str_of_Z_head n) as (c & r & E & [H | ->]).
  - exists c, r. auto.
  - exists 45, r. split; [done|]. right. compute_done.
Qed.

Lemma value_start_facts c :
  value_start c →
  is_ws c = false ∧ c ≠ 93 ∧ c ≠ 125 ∧ c ≠ 65279 ∧
  (is_dec c = true ∨ c = 45 ∨ c = 34 ∨ c = 91 ∨ c = 123 ∨ c = 110 ∨ c = 116 ∨ c = 102).
Proof.
  intros [H|H].
  - unfold is_dec in H. apply andb_prop in H as [H1 H2].
    apply N.leb_le in H1. apply N.leb_le in H2. unfold is_ws.
    repeat split; try lia.
    + repeat (rewrite (proj2 (N.eqb_neq c _)) by lia). done.
    + left. unfold is_dec. apply andb_true_intro. split; by apply N.leb_le.
  - repeat (apply elem_of_cons in H as [->|H]; [repeat split; try done; auto 10|]).
    by apply elem_of_nil in H.
Qed.

Lemma skip_ws_start c r : value_start c → skip_ws (c :: r) = c :: r.
Proof.
  intros H. apply value_start_facts in H as [H _]. cbn [skip_ws]. by rewrite H.
Qed.

(** *** Values *)

Lemma scan_once_number fuel c r res :
  is_dec c = true ∨ c = 45 → match_number (c :: r) = Some res →
  scan_once (S fuel) (c :: r) = Some res.
Proof.
  intros Hc Hm.
  assert (48 ≤ c ≤ 57 ∨ c = 45) as Hc'.
  { destruct Hc as [H|H]; [left|by right]. unfold is_dec in H.
    apply andb_prop in H as [H1 H2]. apply N.leb_le in H1, H2. lia. }
  cbn [scan_once].
  rewrite (proj2 (N.eqb_neq c 34)), (proj2 (N.eqb_neq c 123)),
    (proj2 (N.eqb_neq c 91)) by lia.
  change (lit "null") with [110; 117; 108; 108].
  change (lit "true") with [116; 114; 117; 101].
  change (lit "false") with [102; 97; 108; 115; 101].
  cbn [starts_with].
  rewrite (proj2 (N.eqb_neq 110 c)), (proj2 (N.eqb_neq 116 c)),
    (proj2 (N.eqb_neq 102 c)) by lia.
  by rewrite Hm.
Qed.

(** One turn of the loops of [JSONArray] and [JSONObject]. *)
Lemma scan_elements_last f s v rest :
  scan_once f s = Some (v, 93 :: rest) → scan_elements (S f) s = Some ([v], rest).
Proof. intros H. cbn [scan_elements]. by rewrite H. Qed.

Lemma scan_elements_more f s v r l rest :
  scan_once f s = Some (v, 44 :: 32 :: r) → skip_ws r = r →
  scan_elements f r = Some (l, rest) →
  scan_elements (S f) s = Some (v :: l, rest).
Proof.
  intros H1 H2 H3. cbn [scan_elements]. rewrite H1. simpl. by rewrite H2, H3.
Qed.

Lemma scan_members_last f s k r v rest :
  scanstring s = Some (k, 58 :: 32 :: r) → skip_ws r = r →
  scan_once f r = Some (v, 125 :: rest) →
  scan_members (S f) s = Some ([(k, v)], rest).
Proof.
  intros H1 H2 H3. cbn [scan_members]. rewrite H1. simpl. by rewrite H2, H3.
Qed.

Lemma scan_members_more f s k r v text ms rest :
  scanstring s = Some (k, 58 :: 32 :: r) → skip_ws r = r →
  scan_once f r = Some (v, 44 :: 32 :: 34 :: text) →
  scan_members f text = Some (ms, rest) →
  scan_members (S f) s = Some ((k, v) :: ms, rest).
Proof.
  intros H1 H2 H3 H4. cbn [scan_members]. rewrite H1. simpl.
  rewrite H2, H3. simpl. by rewrite H4.
Qed.

Lemma skip_ws_dumps v rest : well_formed v → skip_ws (dumps v ++ rest) = dumps v ++ rest.
Proof.
  intros Hwf. destruct (dumps_head v Hwf) as (c & r & -> & Hc).
  by apply skip_ws_start.
Qed.

Lemma join_cons2 sep (x y : str) l : join sep (x :: y :: l) = x ++ sep ++ join sep (y :: l).
Proof. done. Qed.

Lemma scan_elements_join l :
  l ≠ [] → Forall scans_back l → Forall well_formed l →
  ∀ fuel rest,
    (length (join (lit ", ") (map dumps l)) + 1 ≤ fuel)%nat →
    scan_elements fuel (join (lit ", ") (map dumps l) ++ 93 :: rest) = Some (l, rest).
Proof.
  intros Hne Hall Hwf. induction l as [|v l IH]; [done|].
  apply Forall_cons in Hall as [Hv Hall]. apply Forall_cons in Hwf as [Hwv Hwf].
  intros fuel rest Hfuel. destruct fuel as [|f]; [lia|].
  destruct l as [|v' l].
  - cbn [map join] in *. apply scan_elements_last.
    apply Hv; [done|lia|by right; left].
  - cbn [map] in *. rewrite join_cons2 in *.
    rewrite !length_app in Hfuel. change (length (lit ", ")) with 2%nat in Hfuel.
    rewrite <- !app_assoc.
    apply scan_elements_more with (r := join (lit ", ") (dumps v' :: map dumps l)
                                          ++ 93 :: rest).
    + apply Hv; [done|lia|by left].
    + apply Forall_cons in Hwf as [Hwv' _].
      destruct l; cbn [map join]; rewrite <- ?app_assoc; by apply skip_ws_dumps.
    + apply IH; [done|done|done|lia].
Qed.

Lemma scan_members_join d :
  d ≠ [] → Forall (fun kv => scans_back kv.2) d →
  Forall (fun kv => well_formed kv.2) d →
  ∀ fuel rest,
    (length (join (lit ", ") (map member_text d)) + 1 ≤ fuel)%nat →
    ∃ text, join (lit ", ") (map member_text d) ++ 125 :: rest = 34 :: text ∧
      scan_members fuel text = Some (d, rest).
Proof.
  intros Hne Hall Hwf. induction d as [|[k v] d IH]; [done|].
  apply Forall_cons in Hall as [Hv Hall]. apply Forall_cons in Hwf as [Hwv Hwf].
  cbn [snd] in Hv, Hwv.
  intros fuel rest Hfuel. destruct fuel as [|f]; [lia|].
  destruct d as [|kv' d].
  - cbn [map join] in *. unfold member_text in *. cbn [fst snd] in *.
    rewrite <- !app_assoc, encode_basestring_app.
    eexists. split; [reflexivity|].
    rewrite !length_app in Hfuel.
    eapply scan_members_last.
    + apply scanstring_encoded.
    + by apply skip_ws_dumps.
    + apply Hv; [done|lia|by right; right].
  - cbn [map] in *. rewrite join_cons2 in *.
    unfold member_text at 1. unfold member_text at 1 in Hfuel. cbn [fst snd] in *.
    rewrite !length_app in Hfuel. change (length (lit ", ")) with 2%nat in Hfuel.
    rewrite <- !app_assoc, encode_basestring_app.
    eexists. split; [reflexivity|].
    destruct (IH ltac:(done) Hall Hwf f rest ltac:(lia)) as (text & Htext & Hscan).
    cbn [map] in Htext. rewrite Htext.
    eapply scan_members_more.
    + apply scanstring_encoded.
    + by apply skip_ws_dumps.
    + apply Hv; [done|lia|by left].
    + exact Hscan.
Qed.

Lemma dict_set_fresh {A} (d : list (str * A)) k v :
  k ∉ keys d → dict_set d k v = d ++ [(k, v)].
Proof.
  induction d as [|[k' v'] d IH]; [done|]. cbn [keys map fst].
  rewrite not_elem_of_cons. intros [Hne Hin]. cbn [dict_set].
  rewrite decide_False by done. cbn [app]. f_equal. by apply IH.
Qed.

Lemma dict_of_pairs_app {A} (acc d : list (str * A)) :
  NoDup (keys (acc ++ d)) →
  fold_left (fun d kv => dict_set d kv.1 kv.2) d acc = acc ++ d.
Proof.
  revert acc. induction d as [|[k v] d IH]; intros acc Hnd; cbn [fold_left].
  - by rewrite app_nil_r.
  - cbn [fst snd]. rewrite dict_set_fresh.
    + rewrite IH; rewrite <- app_assoc; [done|exact Hnd].
    + unfold keys in *. rewrite map_app in Hnd.
      apply NoDup_app in Hnd as (_ & Hd & _). intros Hin.
      apply (Hd k Hin). cbn [map fst]. left.
Qed.

Lemma dict_of_pairs_id {A} (d : list (str * A)) : NoDup (keys d) → dict_of_pairs d = d.
Proof. intros H. unfold dict_of_pairs. by rewrite dict_of_pairs_app. Qed.

Lemma scan_once_dumps v : scans_back v.
Proof.
  induction v as [|b|n|f|s|l IH|d IH] using value_ind;
    intros Hwf fuel rest Hfuel Hrest;
    (destruct fuel as [|fuel]; [by destruct (dumps_head _ Hwf) as (? & ? & E & _);
                                 rewrite E in Hfuel; cbn in Hfuel; lia|]).
  - done.
  - by destruct b.
  - destruct (str_of_Z_head n) as (c & r & E & Hc).
    change (dumps (VInt n)) with (str_of_Z n).
    pose proof (match_number_int n rest (delimited_ends_number _ Hrest)) as Hm.
    rewrite E in *. by apply scan_once_number.
  - done.
  - change (dumps (VStr s)) with (encode_basestring s).
    rewrite encode_basestring_app. cbn [scan_once]. change (quote =? 34) with true.
    cbv iota. by rewrite scanstring_encoded.
  - apply well_formed_list in Hwf.
    destruct l as [|v l]; [done|].
    change (dumps (VList (v :: l)))
      with (91 :: join (lit ", ") (map dumps (v :: l)) ++ [93]) in *.
    cbn [length] in Hfuel. rewrite length_app in Hfuel. cbn [length] in Hfuel.
    cbn [app]. rewrite <- app_assoc. cbn [app].
    pose proof (scan_elements_join (v :: l) ltac:(done) IH Hwf fuel rest ltac:(lia))
      as Hscan.
    assert (∃ c r, join (lit ", ") (map dumps (v :: l)) ++ 93 :: rest = c :: r
                   ∧ value_start c) as (c & r & E & Hc).
    { apply Forall_cons in Hwf as [Hwv _].
      destruct (dumps_head v Hwv) as (c & r & E & Hc).
      destruct l; cbn [map join]; rewrite E;
        eexists _, _; (split; [reflexivity|done]). }
    rewrite E in *. cbn [scan_once]. change (91 =? 34) with false.
    change (91 =? 123) with false. change (91 =? 91) with true. cbv iota.
    rewrite (skip_ws_start c r Hc).
    apply value_start_facts in Hc as (_ & Hc & _).
    rewrite (proj2 (N.eqb_neq c 93) Hc). by rewrite Hscan.
  - apply well_formed_dict in Hwf as [Hnd Hwf].
    destruct d as [|kv d]; [done|].
    change (dumps (VDict (kv :: d)))
      with (123 :: join (lit ", ") (map member_text (kv :: d)) ++ [125]) in *.
    cbn [length] in Hfuel. rewrite length_app in Hfuel. cbn [length] in Hfuel.
    cbn [app]. rewrite <- app_assoc. cbn [app].
    destruct (scan_members_join (kv :: d) ltac:(done) IH Hwf fuel rest ltac:(lia))
      as (text & Htext & Hscan).
    rewrite Htext. cbn [scan_once]. change (123 =? 34) with false.
    change (123 =? 123) with true. cbv iota. cbn [skip_ws].
    change (is_ws 34) with false. cbv iota. change (34 =? 125) with false.
    change (34 =? 34) with true. cbv iota. rewrite Hscan.
    cbn [mbind option_bind]. by rewrite dict_of_pairs_id.
Qed.

(** Decoding the text of a well-formed value gives the value back. *)
Lemma loads_dumps v : well_formed v → loads (dumps v) = Some v.
Proof.
  intros Hwf. destruct (dumps_head v Hwf) as (c & r & E & Hc).
  pose proof (scan_once_dumps v Hwf (S (length (dumps v))) [] ltac:(lia) I) as H.
  rewrite app_nil_r in H. unfold loads.
  pose proof (skip_ws_start c r Hc) as Hskip.
  apply value_start_facts in Hc as (_ & _ & _ & Hbom & _).
  rewrite E in *. rewrite Hskip, H.
  destruct c as [|p]; [done|].
  destruct (decide (N.pos p = 65279)) as [Heq|Hne]; [done|].
  cbn [mbind option_bind skip_ws].
  repeat (destruct p as [p|p|]; try done).
Qed.

End json_facts.

(** * Frames *)

Section pandas_facts.
Import Json Effects Pandas.

Lemma elem_of_add_column cols k x : x ∈ add_column cols k ↔ x ∈ cols ∨ x = k.
Proof.
  unfold add_column. case_bool_decide as Hk.
  - split; [auto|]. intros [?| ->]; done.
  - rewrite elem_of_app, list_elem_of_singleton. done.
Qed.

Lemma elem_of_add_columns ks cols x :
  x ∈ fold_left add_column ks cols ↔ x ∈ cols ∨ x ∈ ks.
Proof.
  revert cols. induction ks as [|k ks IH]; intros cols; cbn [fold_left].
  - rewrite elem_of_nil. tauto.
  - rewrite IH, elem_of_add_column, elem_of_cons. tauto.
Qed.

Lemma elem_of_union_columns_from (records : list (list (str * value))) cols x :
  x ∈ fold_left (fun cols r => fold_left add_column (keys r) cols) records cols
  ↔ x ∈ cols ∨ ∃ r, r ∈ records ∧ x ∈ keys r.
Proof.
  revert cols. induction records as [|r records IH]; intros cols; cbn [fold_left].
  - split; [auto|]. intros [?|(r & Hr & _)]; [done|]. by apply elem_of_nil in Hr.
  - rewrite IH, elem_of_add_columns. split.
    + intros [[?|?]|(r' & Hr' & Hx)]; [by left| |].
      * right. exists r. split; [left|done].
      * right. exists r'. split; [by right|done].
    + intros [?|(r' & Hr' & Hx)]; [by left; left|].
      apply elem_of_cons in Hr' as [->|Hr']; [by left; right|].
      right. by exists r'.
Qed.

(** The columns of a frame made of records are the union of their keys. *)
Lemma elem_of_union_columns (records : list (list (str * value))) x :
  x ∈ union_columns records ↔ ∃ r, r ∈ records ∧ x ∈ keys r.
Proof.
  unfold union_columns. rewrite elem_of_union_columns_from, elem_of_nil. tauto.
Qed.

Lemma flatten_row_from r acc :
  NoDup (keys (acc ++ r)) →
  fold_left
    (fun row kv =>
       match kv.2 with
       | VDict _ | VList _ => dict_set row kv.1 (VStr (dumps kv.2))
       | v => dict_set row kv.1 v
       end) r acc
  = acc ++ map (fun kv => (kv.1, cell kv.2)) r.
Proof.
  revert acc. induction r as [|[k v] r IH]; intros acc Hnd; cbn [fold_left map].
  - by rewrite app_nil_r.
  - cbn [fst snd].
    assert (k ∉ keys acc) as Hk.
    { unfold keys in *. rewrite map_app in Hnd.
      apply NoDup_app in Hnd as (_ & Hd & _). intros Hin.
      apply (Hd k Hin). cbn [map fst]. left. }
    assert (NoDup (keys ((acc ++ [(k, cell v)]) ++ r))) as Hnd'.
    { rewrite <- app_assoc. unfold keys in *. rewrite !map_app in *. exact Hnd. }
    destruct v; rewrite dict_set_fresh by done;
      (rewrite IH; [by rewrite <- app_assoc | exact Hnd']).
Qed.

Lemma flatten_row_map r :
  NoDup (keys r) → Package.flatten_row r = map (fun kv => (kv.1, cell kv.2)) r.
Proof. intros H. unfold Package.flatten_row. by rewrite flatten_row_from. Qed.

Lemma keys_flatten_row r : NoDup (keys r) → keys (Package.flatten_row r) = keys r.
Proof.
  intros H. rewrite flatten_row_map by done. unfold keys.
  rewrite map_map. done.
Qed.

Lemma dict_get_flatten_row r k :
  NoDup (keys r) → dict_get (Package.flatten_row r) k = cell <$> dict_get r k.
Proof.
  intros H. rewrite flatten_row_map by done. clear H.
  induction r as [|[k' v] r IH]; [done|]. cbn [map dict_get fst snd].
  by destruct (decide (k = k')).
Qed.

Lemma dict_get_elem_of {A} (d : list (str * A)) k v :
  dict_get d k = Some v → (k, v) ∈ d.
Proof.
  induction d as [|[k' v'] d IH]; [done|]. cbn [dict_get].
  destruct (decide (k = k')) as [->|].
  - intros [= ->]. left.
  - intros H. right. by apply IH.
Qed.

(** The text in the cell of a nested value decodes to the value. *)
Lemma cell_nested v :
  nested v = true → well_formed v →
  cell v = VStr (dumps v) ∧ loads (dumps v) = Some v.
Proof.
  intros Hn Hwf. unfold cell. rewrite Hn. split; [done|]. by apply loads_dumps.
Qed.

End pandas_facts.

(** * Computations *)

Section io_facts.
Import Json Effects.

Lemma outcome_bind {A B} (m : IO A) (f : A → IO B) :
  outcome (m ≫= f) = match outcome m with
                      | inr a => outcome (f a)
                      | inl e => inl e
                      end.
Proof.
  unfold outcome, mbind, io_bind, bind. destruct m as [t [e|a]]; [done|].
  cbn [snd]. by destruct (f a).
Qed.

Lemma trace_bind {A B} (m : IO A) (f : A → IO B) :
  trace (m ≫= f) = trace m ++ match outcome m with
                               | inr a => trace (f a)
                               | inl e => []
                               end.
Proof.
  unfold trace, outcome, mbind, io_bind, bind. destruct m as [t [e|a]].
  - cbn [fst snd]. by rewrite app_nil_r.
  - cbn [fst snd]. by destruct (f a).
Qed.

Lemma io_eta {A} (m : IO A) : m = (trace m, outcome m).
Proof. by destruct m. Qed.

Lemma outcome_ret {A} (a : A) : outcome (mret a : IO A) = inr a.
Proof. done. Qed.

Lemma trace_ret {A} (a : A) : trace (mret a : IO A) = [].
Proof. done. Qed.

Lemma outcome_emit ev : outcome (emit ev) = inr tt.
Proof. done. Qed.

Lemma trace_emit ev : trace (emit ev) = [ev].
Proof. done. Qed.

Lemma outcome_call r : outcome (call r) = match r with Some e => inl e | None => inr tt end.
Proof. by destruct r. Qed.

Lemma trace_call r : trace (call r) = [].
Proof. by destruct r. Qed.

(** *** [run_cmd] never raises *)
Lemma outcome_run_cmd w cmd :
  outcome (Script.run_cmd w cmd) = inr (stdout_of (subprocess_run w cmd)).
Proof.
  unfold Script.run_cmd. rewrite outcome_bind, outcome_emit.
  by destruct (subprocess_run w cmd).
Qed.

Lemma trace_run_cmd w cmd : Subprocess cmd ∈ trace (Script.run_cmd w cmd).
Proof.
  unfold Script.run_cmd. rewrite trace_bind, trace_emit. left.
Qed.

Lemma outcome_is_service_enabled w project service :
  ∃ b, outcome (Script.is_service_enabled w project service) = inr b.
Proof.
  unfold Script.is_service_enabled. rewrite outcome_bind, outcome_run_cmd.
  destruct (stdout_of _) as [[|c out]|]; [by eexists| |by eexists].
  destruct (Script.search_services _ _); by eexists.
Qed.

Lemma outcome_gke_enabled w project :
  outcome (Script.is_service_enabled w project (lit "container.googleapis.com"))
  = inr (gke_enabled w project).
Proof.
  unfold gke_enabled.
  by destruct (outcome_is_service_enabled w project (lit "container.googleapis.com"))
    as [b ->].
Qed.

(** *** [gather_resources] *)

(** Running a computation step by step. *)
Ltac io_step :=
  first [ rewrite outcome_bind | rewrite trace_bind
        | rewrite outcome_run_cmd | rewrite outcome_gke_enabled
        | rewrite outcome_ret | rewrite trace_ret
        | rewrite outcome_emit | rewrite trace_emit
        | rewrite outcome_call | rewrite trace_call ];
  cbv beta iota zeta.

Lemma outcome_gather_resources w project :
  outcome (Script.gather_resources w project)
  = inr [(kind_key compute_instances, listing w project compute_instances);
         (kind_key gke_clusters,
          if gke_enabled w project then listing w project gke_clusters else VList []);
         (kind_key cloud_functions, listing w project cloud_functions);
         (kind_key sql_instances, listing w project sql_instances);
         (kind_key storage_buckets, listing w project storage_buckets)].
Proof.
  unfold Script.gather_resources, listing.
  do 5 io_step.
  destruct (gke_enabled w project); repeat io_step; reflexivity.
Qed.

Lemma trace_gather_resources w project k :
  queried w project k →
  Subprocess (kind_command k project) ∈ trace (Script.gather_resources w project).
Proof.
  intros Hq. unfold Script.gather_resources.
  assert (gke_enabled w project = true ∨ k ≠ gke_clusters) as Hk.
  { destruct k; try (right; discriminate). left. by apply Hq. }
  repeat io_step.
  destruct (gke_enabled w project) eqn:Hen; repeat io_step; rewrite !elem_of_app.
  - destruct k; eauto 10 using trace_run_cmd.
  - destruct Hk as [?|Hk]; [done|].
    destruct k; try done; eauto 10 using trace_run_cmd.
Qed.

Lemma dict_get_here {A} (d : list (str * A)) k v : dict_get ((k, v) :: d) k = Some v.
Proof. cbn [dict_get]. by rewrite decide_True. Qed.

Lemma dict_get_next {A} (d : list (str * A)) k k' v :
  k ≠ k' → dict_get ((k', v) :: d) k = dict_get d k.
Proof. intros H. cbn [dict_get]. by rewrite decide_False. Qed.

(** The entry of each kind in the result of [gather_resources]. *)
Lemma gather_resources_entry w project resources k :
  outcome (Script.gather_resources w project) = inr resources →
  dict_get resources (kind_key k)
  = Some (match k with
          | gke_clusters =>
              if gke_enabled w project then listing w project gke_clusters
              else VList []
          | _ => listing w project k
          end).
Proof.
  rewrite outcome_gather_resources. intros [= <-].
  destruct k;
    repeat first [ apply dict_get_here
                 | rewrite dict_get_next by compute_done ].
Qed.

End io_facts.

(** * The claims *)

(** Running a computation step by step. *)
Ltac run_io :=
  repeat (first [ rewrite outcome_bind | rewrite trace_bind
                | rewrite outcome_run_cmd
                | rewrite outcome_ret | rewrite trace_ret
                | rewrite outcome_emit | rewrite trace_emit
                | rewrite outcome_call | rewrite trace_call ];
          cbv beta iota zeta).

(** ** Sheet names *)

(** C1. For every label and every set of used names, the sanitizer of
    either program returns a name that holds none of the forbidden
    characters and was not in the set, of at most 31 characters (the set
    being of a size a Python set can have); called again on the set it
    left, it returns a different name. *)
Theorem C1_sanitize_valid_fresh_distinct
    (p : program) (label label' : str) (used : gset str) :
  valid_and_fresh (sanitizer p) label label' used.
Proof. apply valid_and_fresh_sanitizer. Qed.

Lemma C1_witness :
  fits {[ lit "Reports_Q1_2024" ]} ∧
  ∃ s used1 s' used2,
    sanitizer script (lit "Reports:Q1/2024") {[ lit "Reports_Q1_2024" ]} = Some (s, used1) ∧
    no_forbidden s ∧ (s ∉ ({[ lit "Reports_Q1_2024" ]} : gset str)) ∧
    (length s ≤ 31)%nat ∧
    sanitizer script (lit "Reports:Q1/2024") used1 = Some (s', used2) ∧ s' ≠ s.
Proof.
  assert (fits {[ lit "Reports_Q1_2024" ]}) as H by (vm_compute; discriminate).
  split; [exact H|].
  destruct (C1_sanitize_valid_fresh_distinct script (lit "Reports:Q1/2024")
              (lit "Reports:Q1/2024") {[ lit "Reports_Q1_2024" ]})
    as (s & used1 & s' & used2 & H1 & H2 & H3 & H4 & H5 & H6).
  exists s, used1, s', used2. auto 10.
Defined.

(** C5. When the base name derived from the label is already in use, the
    sanitizer returns the base (cut to a prefix if need be) followed by
    [_k], for the smallest counter [k >= 1] whose name is free; so ["data"]
    becomes ["data_1"] when ["data"] is taken and ["data_2"] when ["data_1"]
    is taken as well. *)
Theorem C5_smallest_free_suffix (p : program) :
  (∀ (label : str) (used : gset str),
     base p label ∈ used →
     ∃ k, (1 ≤ k)%N ∧
       sanitizer p label used
       = Some (numbered p (base p label) k, {[ numbered p (base p label) k ]} ∪ used) ∧
       (∃ q, q `prefix_of` base p label ∧ numbered p (base p label) k = q ++ numeral k) ∧
       (numbered p (base p label) k ∉ used) ∧
       ∀ j, (1 ≤ j < k)%N → numbered p (base p label) j ∈ used) ∧
  sanitizer p (lit "data") {[ lit "data" ]}
  = Some (lit "data_1", {[ lit "data_1"; lit "data" ]}) ∧
  sanitizer p (lit "data") {[ lit "data"; lit "data_1" ]}
  = Some (lit "data_2", {[ lit "data_2"; lit "data"; lit "data_1" ]}).
Proof.
  split; [|by destruct p; split; vm_compute].
  intros label used Hin.
  destruct (sanitizer_spec p label used) as (r & Hs & Hf & Hne & Hcase).
  destruct (base_props p label) as (_ & _ & Ht).
  destruct Hcase as [(_ & Hb)|(_ & k & Hk & -> & Hmin)]; [done|].
  exists k. repeat split; try done; [lia|]. by apply numbered_prefix.
Qed.

Lemma C5_witness :
  base package (lit "da:ta") ∈ ({[ lit "data"; lit "data_1" ]} : gset str) ∧
  ∃ k, (1 ≤ k)%N ∧
    sanitizer package (lit "da:ta") {[ lit "data"; lit "data_1" ]}
    = Some (numbered package (base package (lit "da:ta")) k,
            {[ numbered package (base package (lit "da:ta")) k ]}
            ∪ {[ lit "data"; lit "data_1" ]}) ∧
    (∃ q, q `prefix_of` base package (lit "da:ta") ∧
       numbered package (base package (lit "da:ta")) k = q ++ numeral k) ∧
    (numbered package (base package (lit "da:ta")) k
       ∉ ({[ lit "data"; lit "data_1" ]} : gset str)) ∧
    ∀ j, (1 ≤ j < k)%N →
      numbered package (base package (lit "da:ta")) j
        ∈ ({[ lit "data"; lit "data_1" ]} : gset str).
Proof.
  assert (base package (lit "da:ta") ∈ ({[ lit "data"; lit "data_1" ]} : gset str))
    as H by (vm_compute; reflexivity).
  split; [exact H|].
  exact (proj1 (C5_smallest_free_suffix package) _ _ H).
Defined.

(** C6. The name is cut to 31 characters before it is looked up in the set
    of used names: two distinct labels with the same base are treated
    alike on the same set, and get different names when sanitized one
    after the other.  A name that receives a suffix is the base, cut so
    that the whole suffix fits, followed by the suffix; it is at most 31
    characters long, and exactly 31 when base and suffix together would be
    longer. *)
Theorem C6_cut_before_lookup
    (p : program) (label1 label2 : str) (used : gset str) :
  fits used → label1 ≠ label2 → base p label1 = base p label2 →
  sanitizer p label1 used = sanitizer p label2 used ∧
  ∃ s1 used1 s2 used2,
    sanitizer p label1 used = Some (s1, used1) ∧
    sanitizer p label2 used1 = Some (s2, used2) ∧
    s1 ≠ s2 ∧
    (s1 = base p label1 ∨ cut_and_numbered (base p label1) s1) ∧
    cut_and_numbered (base p label1) s2.
Proof.
  intros Hfit _ Hbase. split; [by apply sanitizer_base_eq|].
  destruct (sanitizer_numbered p label1 used) as (s1 & Hs1 & Hf1 & Hn1 & Hc1).
  { unfold fits in Hfit. lia. }
  destruct (sanitizer_numbered p label2 ({[ s1 ]} ∪ used))
    as (s2 & Hs2 & Hf2 & Hn2 & Hc2).
  { unfold fits in Hfit.
    rewrite size_union by (by apply disjoint_singleton_l).
    rewrite size_singleton. lia. }
  exists s1, ({[ s1 ]} ∪ used), s2, ({[ s2 ]} ∪ ({[ s1 ]} ∪ used)).
  repeat split; try done.
  - intros ->. apply Hf2. apply elem_of_union. left. by apply elem_of_singleton.
  - destruct Hc1 as [[-> _]|[_ ?]]; auto.
  - rewrite Hbase. destruct Hc2 as [[-> Hb]|[_ ?]]; [|done].
    exfalso. destruct Hc1 as [[-> _]|[[Hin|Hnil] _]].
    + apply Hb. rewrite Hbase. apply elem_of_union. left. by apply elem_of_singleton.
    + apply Hb. rewrite <- Hbase. apply elem_of_union. by right.
    + apply Hn2. by rewrite <- Hbase.
Qed.

Lemma C6_witness :
  fits ∅ ∧
  lit "0123456789012345678901234567890A" ≠ lit "0123456789012345678901234567890B" ∧
  base script (lit "0123456789012345678901234567890A")
  = base script (lit "0123456789012345678901234567890B") ∧
  sanitizer script (lit "0123456789012345678901234567890A") ∅
  = sanitizer script (lit "0123456789012345678901234567890B") ∅ ∧
  ∃ s1 used1 s2 used2,
    sanitizer script (lit "0123456789012345678901234567890A") ∅ = Some (s1, used1) ∧
    sanitizer script (lit "0123456789012345678901234567890B") used1 = Some (s2, used2) ∧
    s1 ≠ s2 ∧
    (s1 = base script (lit "0123456789012345678901234567890A")
     ∨ cut_and_numbered (base script (lit "0123456789012345678901234567890A")) s1) ∧
    cut_and_numbered (base script (lit "0123456789012345678901234567890A")) s2.
Proof.
  assert (fits ∅) as H1 by (vm_compute; discriminate).
  assert (lit "0123456789012345678901234567890A"
          ≠ lit "0123456789012345678901234567890B") as H2 by (vm_compute; discriminate).
  assert (base script (lit "0123456789012345678901234567890A")
          = base script (lit "0123456789012345678901234567890B")) as H3
    by (vm_compute; reflexivity).
  split; [exact H1|]. split; [exact H2|]. split; [exact H3|].
  exact (C6_cut_before_lookup script _ _ ∅ H1 H2 H3).
Defined.




(** C10. A label that is a valid sheet name already (no forbidden
    character, at most 31 characters, not empty, no white space at either
    end) and is not in use is returned as it is, and is in the set of used
    names afterwards. *)
Theorem C10_identity_on_valid_fresh_labels
    (p : program) (label : str) (used : gset str) :
  no_forbidden label → (length label ≤ 31)%nat → label ≠ [] → strip label = label →
  label ∉ used →
  ∃ used', sanitizer p label used = Some (label, used') ∧
    used' = {[ label ]} ∪ used ∧ label ∈ used'.
Proof.
  intros Hnf Hlen Hne Hstrip Hfree.
  pose proof (base_of_valid p label Hnf Hlen Hne Hstrip) as Hb.
  destruct (sanitizer_spec p label used) as (r & Hs & Hf & _ & Hcase).
  rewrite Hb in Hcase.
  destruct Hcase as [[-> _]|([Hin|[_ Hnil]] & _)]; [|done|done].
  exists ({[ label ]} ∪ used). repeat split; try done.
  apply elem_of_union. left. by apply elem_of_singleton.
Qed.

Lemma C10_witness :
  no_forbidden (lit "compute instances") ∧
  (length (lit "compute instances") ≤ 31)%nat ∧
  lit "compute instances" ≠ [] ∧
  strip (lit "compute instances") = lit "compute instances" ∧
  (lit "compute instances" ∉ ({[ lit "sheet" ]} : gset str)) ∧
  ∃ used', sanitizer package (lit "compute instances") {[ lit "sheet" ]}
           = Some (lit "compute instances", used') ∧
    used' = {[ lit "compute instances" ]} ∪ {[ lit "sheet" ]} ∧
    lit "compute instances" ∈ used'.
Proof.
  assert (no_forbidden (lit "compute instances")) as H1 by compute_done.
  assert (length (lit "compute instances") ≤ 31)%nat as H2 by (vm_compute; lia).
  assert (lit "compute instances" ≠ []) as H3 by (vm_compute; discriminate).
  assert (strip (lit "compute instances") = lit "compute instances") as H4
    by (vm_compute; reflexivity).
  assert (lit "compute instances" ∉ ({[ lit "sheet" ]} : gset str)) as H5
    by compute_done.
  repeat (split; [assumption|]).
  exact (C10_identity_on_valid_fresh_labels package _ _ H1 H2 H3 H4 H5).
Defined.

(** ** Flattening *)




(** ** Collecting *)






(** ** Exporting and uploading *)







(** * Further facts *)

Section strip_facts.

Lemma lstrip_strip s : lstrip (strip s) = strip s.
Proof.
  pose proof (strip_head s) as H.
  destruct (strip s) as [|c r]; [done|]. by apply lstrip_id.
Qed.

Lemma lstrip_idemp s : lstrip (lstrip s) = lstrip s.
Proof.
  pose proof (lstrip_head s) as H.
  destruct (lstrip s) as [|c r]; [done|]. by apply lstrip_id.
Qed.

Lemma rstrip_idemp s : rstrip (rstrip s) = rstrip s.
Proof. unfold rstrip. by rewrite reverse_involutive, lstrip_idemp. Qed.

Lemma strip_idemp s : strip (strip s) = strip s.
Proof.
  unfold strip at 1. rewrite lstrip_strip. unfold strip. apply rstrip_idemp.
Qed.

End strip_facts.

(** The base of a name that needs no change is the name. *)
Lemma base_fixed p s :
  no_forbidden s → (length s ≤ 31)%nat → s ≠ [] → (p = package → strip s = s) →
  base p s = s.
Proof.
  intros Hnf Hlen Hne Hstrip. destruct p.
  - unfold base. rewrite replace_invalid_id by done.
    apply slice_to_all. unfold len. lia.
  - by apply base_of_valid; auto.
Qed.

Lemma base_stripped label : strip (base package label) = base package label.
Proof.
  unfold base, str_or.
  destruct (strip (slice_to _ _)) eqn:E; [by vm_compute|].
  rewrite <- E. apply strip_idemp.
Qed.

Lemma sanitizer_stripped label used s used' :
  sanitizer package label used = Some (s, used') → strip s = s.
Proof.
  intros H.
  destruct (sanitizer_spec package label used) as (r & Hs & _ & _ & Hcase).
  rewrite Hs in H. injection H as <- _.
  destruct Hcase as [[-> _]|(_ & k & _ & -> & _)]; [apply base_stripped|].
  unfold numbered, Package.renamed. cbv zeta. apply strip_idemp.
Qed.

(** ** The script's loop over the entries *)

Section write_sheets_facts.
Import Json Effects.

Lemma frame_of_exception w items e :
  raises_only_exceptions w → Script.frame_of w items = inl e → is_exception e.
Proof.
  intros [Hd _] H. unfold Script.frame_of in H.
  assert (∀ l, Pandas.json_normalize l = inl e → is_exception e) as Hj.
  { intros l. unfold Pandas.json_normalize.
    destruct (Pandas.simple_json_normalize l); [done|]. intros [= <-]. by eexists. }
  destruct items as [| | | | |[|[] rest]|]; eauto.
Qed.

(** One turn of the loop: it ends with an exception that is no instance of
    [Exception], or leaves the state as it was and prints a line, or
    reserves a fresh name and either writes the sheet or prints a line. *)
Lemma write_sheet_cases w key items used book :
  let m := Script.write_sheet w key items (used, book) in
  (∃ e, outcome m = inl e ∧ ¬ is_exception e ∧
     (Script.frame_of w items = inl e ∨ ∃ df name, to_excel w df name = Some e)) ∨
  (∃ e, outcome m = inr (used, book) ∧ trace m = [Script.failed_sheet key e]) ∨
  (∃ s, (s ∉ used) ∧ s ≠ [] ∧ no_forbidden s ∧
     ((N.of_nat (size used) ≤ SSIZE_MAX + 1)%N → (length s ≤ 31)%nat) ∧
     ((∃ e, outcome m = inr ({[ s ]} ∪ used, book) ∧
            trace m = [Script.failed_sheet key e]) ∨
      (∃ df, outcome m = inr ({[ s ]} ∪ used, book ++ [(s, df)]) ∧ trace m = []))).
Proof.
  cbv zeta. unfold Script.write_sheet.
  destruct (Script.frame_of w items) as [e|df] eqn:Hf.
  - destruct e as [msg| |].
    + right. left. by eexists.
    + left. eexists. repeat split; [|by left]. by intros [? ?].
    + left. eexists. repeat split; [|by left]. by intros [? ?].
  - destruct (sanitizer_valid script key used) as (s & Hs & Hnf & Hfree & Hne & Hlen).
    simpl in Hs. rewrite Hs.
    destruct (to_excel w df s) as [e|] eqn:Hx.
    + destruct e as [msg| |].
      * right. right. exists s. repeat split; try done. left. by eexists.
      * left. eexists. repeat split; [by intros [? ?]|]. right. eauto.
      * left. eexists. repeat split; [by intros [? ?]|]. right. eauto.
    + right. right. exists s. repeat split; try done. right. by eexists.
Qed.

Lemma write_sheet_ok w key items st st' n :
  (N.of_nat n ≤ SSIZE_MAX + 1)%N → sheets_ok n st →
  outcome (Script.write_sheet w key items st) = inr st' →
  sheets_ok (S n) st' ∧ (length st'.2 ≤ S (length st.2))%nat.
Proof.
  destruct st as [used book]. intros Hn (Hin & Hnd & Hv & Hsz) Hrun.
  assert (sheets_ok (S n) (used, book)) as Hsame.
  { repeat split; try done. simpl in *. lia. }
  destruct (write_sheet_cases w key items used book)
    as [(e & He & _)|[(e & He & _)|(s & Hfree & Hne & Hnf & Hlen & Hcase)]];
    cbv zeta in *.
  - congruence.
  - rewrite He in Hrun. injection Hrun as <-. split; [done|simpl; lia].
  - assert (size ({[ s ]} ∪ used) = S (size used)) as Hsize.
    { rewrite size_union by (by apply disjoint_singleton_l).
      by rewrite size_singleton. }
    destruct Hcase as [(e & He & _)|(df & He & _)];
      rewrite He in Hrun; injection Hrun as <-.
    + split; [|simpl; lia]. repeat split; simpl in *; try done; [|lia].
      intros x Hx. apply elem_of_union. right. by apply Hin.
    + split; [|simpl; rewrite length_app; simpl; lia].
      unfold sheets_ok, sheet_names in *. simpl in *. rewrite fmap_app. simpl.
      repeat split.
      * intros x [Hx|Hx%list_elem_of_singleton]%elem_of_app; apply elem_of_union.
        -- right. by apply Hin.
        -- left. by apply elem_of_singleton.
      * apply NoDup_app. repeat split; [done| |apply NoDup_singleton].
        intros x Hx ->%list_elem_of_singleton. by apply Hfree, Hin.
      * apply Forall_app. split; [done|]. constructor; [|done].
        repeat split; try done. apply Hlen. lia.
      * lia.
Qed.

Lemma write_sheets_ok w resources st st' n :
  (N.of_nat (n + length resources) ≤ SSIZE_MAX + 1)%N → sheets_ok n st →
  outcome (Script.write_sheets w resources st) = inr st' →
  sheets_ok (n + length resources) st' ∧
  (length st'.2 ≤ length st.2 + length resources)%nat.
Proof.
  revert st n. induction resources as [|[key items] rest IH]; intros st n Hn Hok Hrun.
  - simpl in Hrun. injection Hrun as <-. rewrite Nat.add_0_r. split; [done|simpl; lia].
  - cbn [Script.write_sheets] in Hrun. rewrite outcome_bind in Hrun.
    destruct (outcome (Script.write_sheet w key items st)) as [e|st1] eqn:H1; [done|].
    cbn [length] in *.
    destruct (write_sheet_ok w key items st st1 n ltac:(lia) Hok H1) as [Hok1 Hl1].
    destruct (IH st1 (S n) ltac:(lia) Hok1 Hrun) as [Hok' Hl'].
    split; [|lia]. by replace (n + S (length rest))%nat with (S n + length rest)%nat by lia.
Qed.

(** The export returns the sheets the loop has written and says so in its
    trace. *)
Lemma resources_to_excel_returns w resources path book :
  outcome (Script.resources_to_excel w resources path) = inr book →
  (∃ used, outcome (Script.write_sheets w resources (∅, [])) = inr (used, book)) ∧
  Saved path book ∈ trace (Script.resources_to_excel w resources path).
Proof.
  unfold Script.resources_to_excel. cbv zeta. intros H. revert H.
  run_io. destruct (ExcelWriter w path); [done|]. cbv beta iota.
  destruct (outcome (Script.write_sheets w resources (∅, []))) as [e|[used b]]; [done|].
  run_io. cbn [snd]. destruct (save w path b); [done|]. run_io.
  intros [= <-]. split; [by eexists|].
  rewrite !elem_of_app. right. right. right. left. left.
Qed.

End write_sheets_facts.

Section isolation_facts.
Import Json Effects.

Lemma stderr_lines_app t1 t2 : stderr_lines (t1 ++ t2) = (stderr_lines t1 + stderr_lines t2)%nat.
Proof. unfold stderr_lines. by rewrite filter_app, length_app. Qed.

Lemma stderr_lines_failed key e : stderr_lines [Script.failed_sheet key e] = 1%nat.
Proof. reflexivity. Qed.

Lemma write_sheet_total w key items used book :
  raises_only_exceptions w →
  let m := Script.write_sheet w key items (used, book) in
  ∃ used' book', outcome m = inr (used', book') ∧
    (length book' + stderr_lines (trace m) = S (length book))%nat ∧
    ∀ line, Stderr line ∈ trace m → reports_failed_sheet [key] line.
Proof.
  intros Hw. cbv zeta.
  assert (∀ e line, Stderr line ∈ [Script.failed_sheet key e] →
            reports_failed_sheet [key] line) as Hline.
  { intros e line [= ->]%list_elem_of_singleton. exists key, e. split; [left|done]. }
  destruct (write_sheet_cases w key items used book)
    as [(e & _ & Hn & Hfrom)|[(e & He & Ht)|(s & _ & _ & _ & _ & Hcase)]];
    cbv zeta in *.
  - exfalso. apply Hn. destruct Hfrom as [Hf|(df & name & Hx)].
    + by eapply frame_of_exception.
    + by eapply (proj2 Hw).
  - exists used, book. rewrite He, Ht, stderr_lines_failed.
    repeat split; [lia|]. apply Hline.
  - destruct Hcase as [(e & He & Ht)|(df & He & Ht)]; rewrite He, Ht.
    + eexists _, _. rewrite stderr_lines_failed. repeat split; [lia|]. apply Hline.
    + eexists _, _. repeat split; [rewrite length_app; cbn; lia|].
      intros line Hin. inversion Hin.
Qed.

Lemma write_sheets_total w resources st :
  raises_only_exceptions w →
  let m := Script.write_sheets w resources st in
  ∃ st', outcome m = inr st' ∧
    (length st'.2 + stderr_lines (trace m) = length st.2 + length resources)%nat ∧
    ∀ line, Stderr line ∈ trace m → reports_failed_sheet (keys resources) line.
Proof.
  intros Hw. cbv zeta. revert st.
  induction resources as [|[key items] rest IH]; intros st.
  - exists st. split; [done|]. split; [done|]. intros line Hin. inversion Hin.
  - cbn [Script.write_sheets]. rewrite outcome_bind, trace_bind.
    destruct st as [used book].
    destruct (write_sheet_total w key items used book Hw) as (used1 & book1 & H1 & Hc1 & Hl1).
    cbv zeta in *. rewrite H1. destruct (IH (used1, book1)) as (st' & H2 & Hc2 & Hl2).
    exists st'. split; [done|]. rewrite stderr_lines_app. cbn [snd length] in *.
    split; [lia|]. intros line [Hin|Hin]%elem_of_app.
    + destruct (Hl1 line Hin) as (k & e & Hk & ->). exists k, e. split; [|done].
      apply list_elem_of_singleton in Hk as ->. left.
    + destruct (Hl2 line Hin) as (k & e & Hk & ->). exists k, e. split; [|done].
      by right.
Qed.

(** The script's export returns whenever the workbook can be opened and
    saved. *)
Lemma script_export_total w resources path :
  raises_only_exceptions w →
  Effects.ExcelWriter w path = None →
  (∀ book, Effects.save w path book = None) →
  ∃ book, outcome (Script.resources_to_excel w resources path) = inr book.
Proof.
  intros Hw Hopen Hsave.
  destruct (write_sheets_total w resources (∅, []) Hw) as ([used book] & Hrun & _).
  cbv zeta in *. exists book.
  unfold Script.resources_to_excel. cbv zeta. run_io. rewrite Hopen. cbv beta iota.
  rewrite Hrun. run_io. cbn [snd]. rewrite Hsave. by run_io.
Qed.

End isolation_facts.

(** ** The service check *)

Section service_facts.
Import Json Effects.

Lemma eq_str_true v name : Script.eq_str v name = true ↔ v = Some (VStr name).
Proof.
  unfold Script.eq_str. destruct v as [[]|]; try (split; [done|congruence]).
  rewrite bool_decide_eq_true. split; [by intros ->|by intros [= ->]].
Qed.

Lemma service_matches_true s name :
  Script.service_matches s name = true ↔ lists_service name s.
Proof.
  unfold Script.service_matches, lists_service.
  rewrite !orb_true_iff, !eq_str_true.
  split.
  - intros [[H|H]|H]; auto. right. right.
    destruct (dict_get s (lit "config")) as [[]|]; try done.
    apply eq_str_true in H. eauto.
  - intros [H|[H|H]]; auto. right.
    destruct H as (cfg & -> & H). by apply eq_str_true.
Qed.

Lemma scan_services_objects services name :
  ∃ b, Script.scan_services (map VDict services) name = Some b ∧
    (b = true ↔ Exists (lists_service name) services).
Proof.
  induction services as [|s rest (b & IH & Hb)]; simpl.
  - exists false. split; [done|]. split; [done|]. by intros ?%Exists_nil.
  - destruct (Script.service_matches s name) eqn:E.
    + exists true. split; [done|]. split; [|done]. intros _. left.
      by apply service_matches_true.
    + exists b. split; [done|]. rewrite Exists_cons, <- Hb.
      split; [auto|]. intros [H%service_matches_true|H]; [congruence|done].
Qed.

Lemma starts_spec sub s : Script.starts sub s = true ↔ ∃ b, s = sub ++ b.
Proof.
  revert s. induction sub as [|a sub IH]; intros s; simpl.
  - split; [by exists s|done].
  - destruct s as [|c s]; [split; [done|intros [b H]; discriminate]|].
    rewrite andb_true_iff, N.eqb_eq, IH. split.
    + intros [-> [b ->]]. by exists b.
    + intros [b [= -> ->]]. eauto.
Qed.

(** [sub in s]: the text [sub] occurs somewhere in [s]. *)
Lemma contains_spec sub s : Script.contains sub s = true ↔ ∃ a b, s = a ++ sub ++ b.
Proof.
  split.
  - induction s as [|c s IH]; simpl; rewrite orb_true_iff.
    + intros [H|H]; [|done]. apply starts_spec in H as [b ->]. by exists [], b.
    + intros [H|H].
      * apply starts_spec in H as [b ->]. by exists [], b.
      * destruct (IH H) as (a & b & ->). by exists (c :: a), b.
  - intros (a & b & ->). induction a as [|c a IH].
    + simpl. assert (Script.starts sub (sub ++ b) = true) as H
        by (apply starts_spec; eauto).
      destruct (sub ++ b); simpl; by rewrite H.
    + cbn [app Script.contains]. rewrite IH. apply orb_true_r.
Qed.

End service_facts.

(** ** The commands a computation runs *)

Section command_facts.
Import Json Effects.

Lemma commands_app t1 t2 : commands (t1 ++ t2) = commands t1 ++ commands t2.
Proof. apply omap_app. Qed.

Lemma elem_of_commands cmd t : Subprocess cmd ∈ t ↔ cmd ∈ commands t.
Proof.
  unfold commands. rewrite list_elem_of_omap. split.
  - intros H. by exists (Subprocess cmd).
  - intros (ev & Hin & Hev). destruct ev; try done. by injection Hev as ->.
Qed.

Lemma commands_bind {A B} (m : IO A) (f : A → IO B) :
  commands (trace (m ≫= f))
  = commands (trace m) ++ match outcome m with
                          | inr a => commands (trace (f a))
                          | inl _ => []
                          end.
Proof. rewrite trace_bind, commands_app. by destruct (outcome m). Qed.

Lemma commands_run_cmd w cmd : commands (trace (Script.run_cmd w cmd)) = [cmd].
Proof. unfold Script.run_cmd. by destruct (subprocess_run w cmd). Qed.

Lemma commands_emit ev :
  commands (trace (emit ev)) = match ev with Subprocess cmd => [cmd] | _ => [] end.
Proof. by destruct ev. Qed.

Lemma commands_ret {A} (a : A) : commands (trace (mret a : IO A)) = [].
Proof. done. Qed.

Lemma commands_call r : commands (trace (call r)) = [].
Proof. by destruct r. Qed.

Lemma commands_is_service_enabled w project service :
  commands (trace (Script.is_service_enabled w project service))
  = [services_command project].
Proof.
  unfold Script.is_service_enabled. fold (services_command project).
  rewrite commands_bind, commands_run_cmd, outcome_run_cmd.
  destruct (stdout_of _) as [[|c out]|]; try done.
  by destruct (Script.search_services _ _).
Qed.

End command_facts.

(** Running a computation step by step and collecting its commands. *)
Ltac run_commands :=
  repeat (first [ rewrite commands_bind | rewrite outcome_bind
                | rewrite commands_run_cmd | rewrite outcome_run_cmd
                | rewrite commands_is_service_enabled | rewrite outcome_gke_enabled
                | rewrite commands_emit | rewrite outcome_emit
                | rewrite commands_ret | rewrite outcome_ret
                | rewrite commands_call | rewrite outcome_call ];
          cbv beta iota zeta).

Section gather_facts.
Import Json Effects.

Lemma commands_gather_resources w project :
  commands (trace (Script.gather_resources w project))
  = [kind_command compute_instances project; services_command project]
    ++ (if gke_enabled w project then [kind_command gke_clusters project] else [])
    ++ [kind_command cloud_functions project; kind_command sql_instances project;
        kind_command storage_buckets project].
Proof.
  unfold Script.gather_resources. run_commands.
  destruct (gke_enabled w project); run_commands; reflexivity.
Qed.

Lemma skipping_clusters_printed w project :
  gke_enabled w project = false →
  skipping_clusters project ∈ trace (Script.gather_resources w project).
Proof.
  intros H. unfold Script.gather_resources.
  rewrite trace_bind, outcome_run_cmd. cbv beta iota zeta.
  rewrite trace_bind, outcome_gke_enabled, H. cbv beta iota zeta.
  rewrite trace_bind, trace_bind, trace_emit.
  rewrite !elem_of_app. right. right. left. left. left.
Qed.

End gather_facts.

(** ** Dicts *)

Section dict_facts.
Import Json Effects.
Context {A : Type}.
Implicit Types (d : list (str * A)) (k : str) (v : A).

Lemma elem_of_keys d k : k ∈ keys d ↔ ∃ v, (k, v) ∈ d.
Proof.
  induction d as [|[k' v'] d IH]; cbn [keys map fst].
  - split; [by intros ?%elem_of_nil|by intros [v ?%elem_of_nil]].
  - rewrite elem_of_cons. unfold keys in IH. rewrite IH. split.
    + intros [-> | [v H]]; [exists v'; left|exists v; by right].
    + intros [v [[= -> ->] | H]%elem_of_cons]; [by left|right; eauto].
Qed.

Lemma elem_of_dict_set d k v x : x ∈ dict_set d k v → x ∈ d ∨ x = (k, v).
Proof.
  induction d as [|[k' v'] d IH]; cbn [dict_set].
  - intros ->%list_elem_of_singleton. by right.
  - destruct (decide (k = k')) as [-> |].
    + intros [-> |H]%elem_of_cons; [by right|left; by right].
    + intros [-> |H]%elem_of_cons; [left; left|].
      destruct (IH H) as [?|?]; [left; by right|by right].
Qed.

Lemma keys_dict_set d k v k' : k' ∈ keys (dict_set d k v) ↔ k' ∈ keys d ∨ k' = k.
Proof.
  induction d as [|[k1 v1] d IH]; cbn [dict_set keys map fst].
  - rewrite list_elem_of_singleton. split; [auto|]. by intros [?%elem_of_nil|?].
  - destruct (decide (k = k1)) as [-> |Hne]; cbn [map fst].
    + rewrite !elem_of_cons. tauto.
    + rewrite !elem_of_cons. unfold keys in IH. rewrite IH. tauto.
Qed.

Lemma NoDup_dict_set d k v : NoDup (keys d) → NoDup (keys (dict_set d k v)).
Proof.
  induction d as [|[k1 v1] d IH]; cbn [dict_set keys map fst].
  - intros _. apply NoDup_singleton.
  - rewrite NoDup_cons. intros [Hfresh Hnd].
    destruct (decide (k = k1)) as [-> |Hne]; cbn [map fst]; apply NoDup_cons.
    + done.
    + split; [|by apply IH].
      intros [Hin|Heq]%keys_dict_set; [by apply Hfresh|congruence].
Qed.

Lemma dict_of_pairs_from pairs d :
  let d' := fold_left (fun d kv => dict_set d kv.1 kv.2) pairs d in
  (NoDup (keys d) → NoDup (keys d')) ∧
  (∀ k, k ∈ keys d' ↔ k ∈ keys d ∨ k ∈ keys pairs) ∧
  (∀ x, x ∈ d' → x ∈ d ∨ x ∈ pairs).
Proof.
  cbv zeta. revert d. induction pairs as [|[k v] pairs IH]; intros d; cbn [fold_left].
  - split; [done|]. split; [|auto]. intros k. split; [auto|].
    by intros [?|?%elem_of_nil].
  - destruct (IH (dict_set d k v)) as (H1 & H2 & H3). cbn [fst snd] in *.
    split; [|split].
    + intros Hnd. by apply H1, NoDup_dict_set.
    + intros k'. rewrite H2, keys_dict_set. cbn [keys map fst].
      rewrite elem_of_cons. tauto.
    + intros x Hx. destruct (H3 x Hx) as [Hin|Hin]; [|right; by right].
      destruct (elem_of_dict_set _ _ _ _ Hin) as [?| ->]; [by left|right; left].
Qed.

End dict_facts.

Section asset_facts.
Import Json Effects.

Lemma asset_dict_record r : record_of r (Script.asset_dict r).
Proof.
  unfold record_of, Script.asset_dict.
  destruct (to_dict_preserving r) as [e|d]; [|done].
  set (f := fun f : str * option str =>
              match f.2 with Some val => Some (f.1, VStr val) | None => None end).
  assert (∀ k x, (k, x) ∈ omap f (descriptor_fields r) ↔
                 ∃ val, x = VStr val ∧ (k, Some val) ∈ descriptor_fields r) as Hf.
  { intros k x. rewrite list_elem_of_omap. split.
    - intros ([k' [val|]] & Hin & Hfx); [|done]. injection Hfx as -> <-. eauto.
    - intros (val & -> & Hin). by exists (k, Some val). }
  destruct (dict_of_pairs_from (omap f (descriptor_fields r)) []) as (H1 & H2 & H3).
  cbv zeta in *. eexists. split; [reflexivity|]. fold f. unfold dict_of_pairs.
  split; [apply H1; constructor|]. split.
  - intros k. rewrite H2, !elem_of_keys. split.
    + intros [[x ?%elem_of_nil]|[x Hin]]; [done|].
      apply Hf in Hin as (val & _ & Hin). eauto.
    + intros (val & Hin). right. exists (VStr val). apply Hf. eauto.
  - intros k x Hget%dict_get_elem_of.
    destruct (H3 _ Hget) as [?%elem_of_nil|Hin]; [done|]. by apply Hf.
Qed.

End asset_facts.

(** ** The list of projects *)

Section project_facts.

Lemma lstrip_nil s : lstrip s = [] ↔ Forall (fun c => isspace c = true) s.
Proof.
  induction s as [|c s IH]; simpl; [split; [constructor|done]|].
  destruct (isspace c) eqn:E.
  - rewrite IH. split; [by constructor|by intros [_ ?]%Forall_cons].
  - split; [done|]. intros [? _]%Forall_cons. congruence.
Qed.

Lemma strip_nil s : strip s = [] ↔ Forall (fun c => isspace c = true) s.
Proof.
  split.
  - unfold strip, rstrip. intros H. apply lstrip_nil.
    apply (f_equal reverse) in H. rewrite reverse_involutive in H.
    change (reverse []) with (@nil N) in H.
    apply lstrip_nil in H. rewrite Forall_reverse in H.
    pose proof (lstrip_head s) as Hh.
    destruct (lstrip s) as [|c r]; [done|].
    apply Forall_cons in H as [H _]. congruence.
  - intros H%lstrip_nil. unfold strip. by rewrite H.
Qed.

Lemma split_comma_cons s : ∃ p ps, Script.split_comma s = p :: ps.
Proof.
  induction s as [|c s (p & ps & IH)]; simpl; [by eexists _, _|].
  destruct (c =? 44)%N; [by eexists _, _|]. rewrite IH. by eexists _, _.
Qed.

Lemma split_comma_no_comma s : Forall (fun p => chr "," ∉ p) (Script.split_comma s).
Proof.
  induction s as [|c s IH]; simpl.
  - constructor; [|done]. by intros ?%elem_of_nil.
  - destruct (N.eqb_spec c 44) as [->|Hne].
    + constructor; [|done]. by intros ?%elem_of_nil.
    + destruct (Script.split_comma s) as [|p ps]; [|apply Forall_cons in IH as [Hp Hps]].
      * constructor; [|done]. intros Hc%list_elem_of_singleton.
        apply Hne. symmetry. exact Hc.
      * constructor; [|done]. intros [Hc|Hin]%elem_of_cons; [|done].
        apply Hne. symmetry. exact Hc.
Qed.

(** The pieces are all white space exactly when the text is blank. *)
Lemma split_comma_blank s :
  Forall (fun p => Forall (fun c => isspace c = true) p) (Script.split_comma s) ↔ blank s.
Proof.
  unfold blank. induction s as [|c s IH]; simpl.
  - split; by repeat constructor.
  - destruct (N.eqb_spec c 44) as [->|Hne].
    + rewrite !Forall_cons, IH. split; [intros [_ ?]; split; [by left|done]|].
      intros [_ ?]. by split.
    + destruct (split_comma_cons s) as (p & ps & E). rewrite E in *.
      rewrite !Forall_cons in *. rewrite <- IH. split.
      * intros [[Hc Hp] Hps]. auto.
      * intros [[Hc|Hc] [Hp Hps]]; [done|auto].
Qed.

Lemma projects_of_nil project : projects_of project = [] ↔ blank project.
Proof.
  rewrite <- split_comma_blank. unfold projects_of.
  induction (Script.split_comma project) as [|p ps IH]; simpl; [by split|].
  rewrite Forall_cons, <- IH, <- strip_nil.
  rewrite filter_cons. destruct (decide (strip p ≠ [])) as [Hne|He].
  - split; [done|]. by intros [? _].
  - apply dec_stable in He. rewrite He. tauto.
Qed.

Lemma projects_of_trimmed project :
  Forall (fun p => p ≠ [] ∧ (chr "," ∉ p) ∧ strip p = p) (projects_of project).
Proof.
  unfold projects_of. apply Forall_forall. intros p [Hne Hin]%list_elem_of_filter.
  apply list_elem_of_fmap in Hin as (q & -> & Hq). split; [done|]. split.
  - pose proof (split_comma_no_comma project) as H.
    rewrite Forall_forall in H. specialize (H q Hq).
    assert (Forall (fun c => c ≠ chr ",") q) as Hall.
    { apply Forall_forall. by intros c Hc ->. }
    apply (strip_Forall _ _) in Hall. rewrite Forall_forall in Hall.
    intros Hin. by apply (Hall _ Hin).
  - apply strip_idemp.
Qed.

End project_facts.

(** ** The run of the script *)

Section script_main_facts.
Import Json Effects.

Lemma outcome_gather_all_per_kind w projects combined :
  ∃ c, outcome (Script.gather_all w false projects combined) = inr c.
Proof.
  revert combined. induction projects as [|p rest IH]; intros combined.
  - by eexists.
  - cbn [Script.gather_all]. run_io. rewrite outcome_gather_resources. run_io.
    apply IH.
Qed.

Lemma outcome_script_upload w local_file bucket destination_path :
  ∃ ok, outcome (Script.upload_to_gcs w local_file bucket destination_path) = inr ok.
Proof.
  unfold Script.upload_to_gcs. destruct bucket as [[|c b]|]; try by eexists.
  run_io. by eexists.
Qed.

(** With a project given, [main] starts by gathering for the projects of
    the list. *)
Lemma main_gathers w a project :
  Script.project a = Some project → project ≠ [] →
  Script.main w a
  = (Script.gather_all w (Script.use_asset a) (projects_of project) [] ≫= fun combined =>
     let ts := utcnow w in
     (match Script.or_else (Script.output a) None with
      | Some o => mret o
      | None =>
          match projects_of project with
          | p0 :: _ => mret (lit "gcp-inventory-" ++ p0 ++ lit "-" ++ ts ++ lit ".xlsx")
          | [] => raise (Exception (lit "list index out of range"))
          end
      end) ≫= fun output =>
     emit (Stdout (lit "Writing inventory to " ++ output));;
     Script.resources_to_excel w combined output;;
     match Script.bucket a with
     | None | Some [] => mret tt
     | Some b =>
         emit (Stdout (lit "Uploading " ++ output ++ lit " to bucket " ++ b));;
         ok ← Script.upload_to_gcs w output (Some b) None;
         if ok : bool then emit (Stdout (lit "Upload successful"))
         else emit (Stderr (lit "Upload failed"))
     end).
Proof.
  intros Hp Hne. unfold Script.main. rewrite Hp.
  destruct project as [|c rest]; [done|]. reflexivity.
Qed.

End script_main_facts.

(** ** What comes after what in a trace *)

Section order_facts.
Context {A : Type}.
Implicit Types (P Q : A → Prop) (l t : list A).

Lemma app_eq_split l1 l2 t1 t2 (x : A) :
  l1 ++ l2 = t1 ++ x :: t2 →
  (∃ m, l1 = t1 ++ x :: m) ∨ (∃ m, t1 = l1 ++ m ∧ l2 = m ++ x :: t2).
Proof.
  revert t1. induction l1 as [|y l1 IH]; intros t1 H.
  - right. by exists t1.
  - destruct t1 as [|z t1]; simpl in H.
    + injection H as -> H. left. by exists l1.
    + injection H as -> H. destruct (IH _ H) as [[m ->]|(m & -> & ->)].
      * left. by exists m.
      * right. by exists m.
Qed.

Lemma comes_after_none P Q l : Forall (fun x => ¬ Q x) l → comes_after P Q l.
Proof.
  intros H t1 x t2 -> HQ. exfalso.
  rewrite Forall_app, Forall_cons in H. by destruct H as (_ & H & _).
Qed.

Lemma comes_after_app P Q l1 l2 :
  comes_after P Q l1 → comes_after P Q l2 → comes_after P Q (l1 ++ l2).
Proof.
  intros H1 H2 t1 x t2 Heq HQ.
  destruct (app_eq_split _ _ _ _ _ Heq) as [[m ->]|(m & -> & ->)].
  - by apply (H1 t1 x m).
  - apply Exists_app. right. by apply (H2 m x t2).
Qed.

Lemma comes_after_then P Q l1 l2 :
  comes_after P Q l1 → Exists P l1 → comes_after P Q (l1 ++ l2).
Proof.
  intros H1 HP t1 x t2 Heq HQ.
  destruct (app_eq_split _ _ _ _ _ Heq) as [[m ->]|(m & -> & ->)].
  - by apply (H1 t1 x m).
  - apply Exists_app. by left.
Qed.

End order_facts.

(** ** The script copies only what it has saved *)

Section copy_facts.
Import Json Effects.

Lemma no_copy_commands t :
  Forall (fun cmd => is_copy cmd = false) (commands t) →
  Forall (fun ev => ¬ runs_copy ev) t.
Proof.
  induction t as [|ev t IH]; [constructor|].
  intros H. constructor.
  - intros (cmd & -> & Hc). simpl in H. apply Forall_cons in H as [H _]. congruence.
  - apply IH. destruct ev; try done. simpl in H. by apply Forall_cons in H as [_ H].
Qed.

Lemma is_copy_kind_command k project : is_copy (kind_command k project) = false.
Proof. by destruct k. Qed.

Lemma is_copy_services_command project : is_copy (services_command project) = false.
Proof. done. Qed.

Lemma is_copy_asset_command project : is_copy (asset_command project) = false.
Proof. done. Qed.

Lemma commands_gather_asset_resources w project :
  commands (trace (Script.gather_asset_resources w project))
  = if asset_v1_importable w then [] else [asset_command project].
Proof.
  unfold Script.gather_asset_resources.
  destruct (asset_v1_importable w); cbn [negb]; [|by run_commands].
  run_commands. destruct (AssetServiceClient w); [done|]. cbv beta iota.
  run_commands. destruct (search_all_resources w _) as [results [[]|]];
    by run_commands.
Qed.

Lemma gather_all_no_copy w use_asset projects combined :
  Forall (fun cmd => is_copy cmd = false)
    (commands (trace (Script.gather_all w use_asset projects combined))).
Proof.
  revert combined. induction projects as [|p rest IH]; intros combined; [constructor|].
  cbn [Script.gather_all]. run_commands. cbn [app]. destruct use_asset.
  - run_commands. rewrite commands_gather_asset_resources.
    assert (Forall (fun cmd => is_copy cmd = false)
              (if asset_v1_importable w then [] else [asset_command p])) as Hp.
    { destruct (asset_v1_importable w); [constructor|].
      constructor; [apply is_copy_asset_command|constructor]. }
    destruct (outcome (Script.gather_asset_resources w p));
      run_commands; rewrite ?app_nil_r; [done|].
    apply Forall_app. split; [done|apply IH].
  - run_commands. rewrite commands_gather_resources, outcome_gather_resources.
    run_commands. rewrite app_nil_r. apply Forall_app. split; [|apply IH].
    destruct (gke_enabled w p); cbn [app];
      repeat (constructor;
              [first [apply is_copy_kind_command | apply is_copy_services_command]|]);
      constructor.
Qed.

Lemma commands_write_sheet w key items st :
  commands (trace (Script.write_sheet w key items st)) = [].
Proof.
  unfold Script.write_sheet. destruct st as [used book].
  destruct (Script.frame_of w items) as [[]|df]; try done.
  destruct (Script.sanitize key used) as [[s used']|]; [|done].
  by destruct (to_excel w df s) as [[]|].
Qed.

Lemma commands_write_sheets w resources st :
  commands (trace (Script.write_sheets w resources st)) = [].
Proof.
  revert st. induction resources as [|[key items] rest IH]; intros st; [done|].
  cbn [Script.write_sheets]. rewrite commands_bind, commands_write_sheet.
  destruct (outcome _); [done|]. apply IH.
Qed.

Lemma commands_script_export w resources path :
  commands (trace (Script.resources_to_excel w resources path)) = [].
Proof.
  unfold Script.resources_to_excel. cbv zeta. run_commands.
  destruct (ExcelWriter w path); [done|]. cbv beta iota.
  run_commands. rewrite commands_write_sheets.
  destruct (outcome (Script.write_sheets _ _ _)) as [e|st]; [done|].
  run_commands. by destruct (save w path st.2).
Qed.

Lemma script_export_saves w resources path book :
  outcome (Script.resources_to_excel w resources path) = inr book →
  Exists saves (trace (Script.resources_to_excel w resources path)).
Proof.
  intros H. destruct (resources_to_excel_returns _ _ _ _ H) as [_ Hin].
  apply Exists_exists. eexists. split; [exact Hin|]. by eexists _, _.
Qed.

Lemma script_main_copy_after_save w a :
  comes_after saves runs_copy (trace (Script.main w a)).
Proof.
  unfold Script.main.
  destruct (Script.or_else (Script.project a) (GOOGLE_CLOUD_PROJECT w)) as [[|c project]|].
  1, 3: apply comes_after_none; repeat constructor; by intros (? & ? & ?).
  cbv zeta. rewrite trace_bind. apply comes_after_app.
  { apply comes_after_none, no_copy_commands, gather_all_no_copy. }
  destruct (outcome (Script.gather_all _ _ _ _)) as [e|combined];
    [by apply comes_after_none|].
  rewrite trace_bind.
  set (out := match Script.or_else (Script.output a) None with
              | Some o => _ | None => _ end).
  assert (trace out = []) as -> by (unfold out; by repeat case_match).
  destruct (outcome out) as [e|o]; [by apply comes_after_none|]. cbn [app].
  rewrite trace_bind, trace_emit, outcome_emit. cbv beta iota.
  apply comes_after_app.
  { apply comes_after_none. repeat constructor. by intros (? & ? & ?). }
  rewrite trace_bind.
  assert (comes_after saves runs_copy (trace (Script.resources_to_excel w combined o)))
    as Hexp.
  { apply comes_after_none, no_copy_commands. rewrite commands_script_export.
    constructor. }
  destruct (outcome (Script.resources_to_excel w combined o)) as [e|book] eqn:Hrun.
  - by rewrite app_nil_r.
  - apply comes_after_then; [done|]. by eapply script_export_saves.
Qed.

Lemma script_main_no_bucket_no_copy w a :
  Script.bucket a = None ∨ Script.bucket a = Some [] →
  Forall (fun cmd => is_copy cmd = false) (commands (trace (Script.main w a))).
Proof.
  intros Hb. unfold Script.main.
  destruct (Script.or_else (Script.project a) (GOOGLE_CLOUD_PROJECT w)) as [[|c project]|].
  1, 3: by repeat constructor.
  cbv zeta. rewrite commands_bind. apply Forall_app. split; [apply gather_all_no_copy|].
  destruct (outcome (Script.gather_all _ _ _ _)) as [e|combined]; [constructor|].
  rewrite commands_bind.
  set (out := match Script.or_else (Script.output a) None with
              | Some o => _ | None => _ end).
  assert (trace out = []) as -> by (unfold out; by repeat case_match).
  destruct (outcome out) as [e|o]; [constructor|]. cbn [app commands omap].
  run_commands. rewrite commands_script_export. cbn [app].
  destruct (outcome (Script.resources_to_excel w combined o)); [constructor|].
  by destruct Hb as [-> | ->].
Qed.

End copy_facts.

(** ** The package *)

Section package_facts.
Import Json Effects.

Lemma convert_all_spec results resources :
  Package.convert_all results = inr resources ↔ Forall2 converts_to results resources.
Proof.
  revert resources. induction results as [|item rest IH]; intros resources; simpl.
  - split; [intros [= <-]; constructor|by intros ->%Forall2_nil_inv_l].
  - unfold converts_to at 1. split.
    + destruct (to_dict item) as [e|d] eqn:E; [done|].
      destruct (Package.convert_all rest) as [e|ds]; [done|].
      intros [= <-]. constructor; [done|]. by apply IH.
    + intros (d & ds & Hd & Hds & ->)%Forall2_cons_inv_l.
      apply IH in Hds. unfold converts_to in Hd. by rewrite Hd, Hds.
Qed.

Lemma collect_assets_run w project results failure :
  search_all_resources w (lit "projects/" ++ project) = (results, failure) →
  outcome (Package.collect_assets w project)
  = match AssetServiceClient w with
    | Some e => inl e
    | None =>
        match Package.convert_all results, failure with
        | inl e, _ => inl e
        | inr _, Some e => inl e
        | inr resources, None => inr resources
        end
    end ∧
  Forall (fun ev => ¬ uploads ev ∧ ¬ saves ev) (trace (Package.collect_assets w project)).
Proof.
  intros Hs. unfold Package.collect_assets. rewrite Hs.
  assert (∀ ev, (∀ b d f, ev ≠ UploadFromFilename b d f) → (∀ p b, ev ≠ Saved p b) →
                ¬ uploads ev ∧ ¬ saves ev) as Hev.
  { intros ev H1 H2. split; [intros (b & d & f & ->)|intros (p & b & ->)]; naive_solver. }
  destruct (AssetServiceClient w) as [e|]; [by split; [|constructor]|].
  destruct (Package.convert_all results) as [e|resources].
  - destruct e; (split; [done|]); repeat (constructor; [by apply Hev|]); constructor.
  - destruct failure as [e|].
    + destruct e; (split; [done|]); repeat (constructor; [by apply Hev|]); constructor.
    + split; [done|]. repeat (constructor; [by apply Hev|]); constructor.
Qed.

Lemma sanitize_assets :
  Package.sanitize_sheet_name (lit "assets") ∅ = Some (lit "assets", {[ lit "assets" ]}).
Proof. by vm_compute. Qed.

Lemma package_export_run w resources path :
  outcome (Package.resources_to_excel w resources path)
  = match ExcelWriter w path with
    | Some e => inl e
    | None =>
        match to_excel w (Package.frame_of resources) (lit "assets") with
        | Some e => inl e
        | None =>
            match save w path (assets_book resources) with
            | Some e => inl e
            | None => inr (assets_book resources)
            end
        end
    end ∧
  Forall (fun ev => ¬ uploads ev) (trace (Package.resources_to_excel w resources path)) ∧
  (∀ book, outcome (Package.resources_to_excel w resources path) = inr book →
     Exists (saves_assets path) (trace (Package.resources_to_excel w resources path))).
Proof.
  unfold Package.resources_to_excel. cbv zeta. rewrite sanitize_assets.
  fold (assets_book resources).
  assert (∀ t : list event, Forall (fun ev => ∀ b d f, ev ≠ UploadFromFilename b d f) t →
            Forall (fun ev => ¬ uploads ev) t) as Hnone.
  { intros t Ht. eapply Forall_impl; [exact Ht|].
    intros ev Hev (b & d & f & ->). by eapply Hev. }
  destruct (ExcelWriter w path) as [e|].
  { split; [done|]. split; [|done]. apply Hnone. by repeat constructor. }
  destruct (to_excel w _ _) as [e|].
  { split; [done|]. split; [|done]. apply Hnone. by repeat constructor. }
  destruct (save w path _) as [e|].
  { split; [done|]. split; [|done]. apply Hnone. by repeat constructor. }
  split; [done|]. split; [apply Hnone; by repeat constructor|].
  intros book _. apply Exists_cons. right. apply Exists_cons. left.
  by exists (assets_book resources).
Qed.

Lemma package_upload_run w local_file bucket_name :
  outcome (Package.upload_to_gcs w local_file bucket_name None)
  = match storage_Client w with
    | Some e => inl e
    | None =>
        match upload_from_filename w bucket_name (Package.basename local_file) local_file with
        | Some e => inl e
        | None => inr tt
        end
    end ∧
  Forall (fun ev => uploads ev →
            ev = UploadFromFilename bucket_name (Package.basename local_file) local_file)
    (trace (Package.upload_to_gcs w local_file bucket_name None)).
Proof.
  unfold Package.upload_to_gcs.
  assert (∀ line, uploads (Log line) →
            Log line = UploadFromFilename bucket_name (Package.basename local_file) local_file)
    as Hlog by (by intros line (? & ? & ? & ?)).
  destruct (storage_Client w) as [e|]; [by split; [|constructor]|].
  destruct (upload_from_filename w _ _ _) as [e|]; (split; [done|]);
    repeat (constructor; [first [apply Hlog | done]|]); constructor.
Qed.

(** The base name of a path: what follows its last slash. *)
Lemma basename_from_spec pre path :
  (chr "/" ∉ pre) →
  ∃ dir, pre ++ path = dir ++ Package.basename_from path (pre ++ path) ∧
    (chr "/" ∉ Package.basename_from path (pre ++ path)) ∧
    (dir = [] ∨ ∃ d, dir = d ++ [chr "/"]).
Proof.
  revert pre. induction path as [|c r IH]; intros pre Hpre; cbn [Package.basename_from].
  - exists []. rewrite app_nil_r. auto.
  - destruct (N.eqb_spec c 47) as [-> | Hne].
    + destruct (IH [] ltac:(by intros ?%elem_of_nil)) as (dir & Hdir & Hno & Hend).
      cbn [app] in *. exists (pre ++ 47%N :: dir). split; [|split; [done|right]].
      * rewrite <- app_assoc. cbn [app]. by rewrite <- Hdir.
      * destruct Hend as [-> | [d ->]]; [by exists pre|].
        exists (pre ++ 47%N :: d). by rewrite <- app_assoc.
    + destruct (IH (pre ++ [c])) as (dir & Hdir & Hno & Hend).
      { rewrite not_elem_of_app. split; [done|].
        intros Hc%list_elem_of_singleton. apply Hne. symmetry. exact Hc. }
      rewrite <- !app_assoc in *. cbn [app] in *. by exists dir.
Qed.

Lemma basename_spec path :
  ∃ dir, path = dir ++ Package.basename path ∧ (chr "/" ∉ Package.basename path) ∧
    (dir = [] ∨ ∃ d, dir = d ++ [chr "/"]).
Proof. apply (basename_from_spec [] path). by intros ?%elem_of_nil. Qed.

End package_facts.

Section package_main_facts.
Import Json Effects.

Lemma package_main_unfold w a :
  Package.main w a
  = if Package.use_asset a then
      resources ← Package.collect_assets w (Package.project a);
      Package.resources_to_excel w resources (out_file w a);;
      Package.upload_to_gcs w (out_file w a) (Package.bucket a) None
    else
      emit (Log (lit "Only --use-asset mode is implemented in this cleaned release. Use --use-asset."));;
      mret tt.
Proof. reflexivity. Qed.

Lemma package_main_upload_after_save w a :
  comes_after (saves_assets (out_file w a)) uploads (trace (Package.main w a)) ∧
  Forall (fun ev => uploads ev →
            Package.use_asset a = true ∧
            ev = UploadFromFilename (Package.bucket a) (Package.basename (out_file w a))
                   (out_file w a))
    (trace (Package.main w a)).
Proof.
  rewrite package_main_unfold. destruct (Package.use_asset a).
  2: { split; [apply comes_after_none|];
         (constructor; [by intros (? & ? & ? & ?)|constructor]). }
  destruct (search_all_resources w (lit "projects/" ++ Package.project a))
    as [results failure] eqn:Hs.
  destruct (collect_assets_run w _ _ _ Hs) as [_ Hc].
  rewrite trace_bind.
  assert (Forall (fun ev => ¬ uploads ev)
            (trace (Package.collect_assets w (Package.project a)))) as Hc'.
  { eapply Forall_impl; [exact Hc|]. by intros ev [? _]. }
  destruct (outcome (Package.collect_assets w (Package.project a))) as [e|resources].
  { rewrite app_nil_r. split; [by apply comes_after_none|].
    eapply Forall_impl; [exact Hc'|]. by intros ev ? ?. }
  destruct (package_export_run w resources (out_file w a)) as (_ & He' & Hsaved).
  destruct (package_upload_run w (out_file w a) (Package.bucket a)) as [_ Hu].
  rewrite trace_bind.
  split.
  - apply comes_after_app; [by apply comes_after_none|].
    destruct (outcome (Package.resources_to_excel w resources (out_file w a)))
      as [e|book] eqn:Hrun.
    + rewrite app_nil_r. by apply comes_after_none.
    + apply comes_after_then; [by apply comes_after_none|]. by eapply Hsaved.
  - rewrite !Forall_app. split; [|split].
    + eapply Forall_impl; [exact Hc'|]. by intros ev ? ?.
    + eapply Forall_impl; [exact He'|]. by intros ev ? ?.
    + destruct (outcome (Package.resources_to_excel w resources (out_file w a)));
        [constructor|].
      eapply Forall_impl; [exact Hu|]. intros ev H Hup. split; [done|by apply H].
Qed.

End package_main_facts.

(** ** Sheet names without collisions *)

Section base_name_facts.
Import Json Effects.

Lemma sublist_full {A} (l1 l2 : list A) :
  l1 `sublist_of` l2 → (length l2 ≤ length l1)%nat → l1 = l2.
Proof.
  induction 1 as [|x l1 l2 _ IH|x l1 l2 Hsub _]; simpl; intros Hlen; [done| |].
  - f_equal. apply IH. lia.
  - apply sublist_length in Hsub. lia.
Qed.

Lemma sanitize_fresh_base key used :
  base script key ≠ [] → (base script key ∉ used) →
  Script.sanitize key used = Some (base script key, {[ base script key ]} ∪ used).
Proof.
  intros Hne Hfree.
  destruct (sanitizer_spec script key used) as (r & Hs & _ & _ & Hcase).
  simpl in Hs. rewrite Hs.
  by destruct Hcase as [[-> _]|([?|[_ ?]] & _)].
Qed.

Lemma write_sheets_bases w resources used book st' :
  NoDup (map (base script) (keys resources)) →
  Forall (fun key => base script key ≠ [] ∧ (base script key ∉ used)) (keys resources) →
  outcome (Script.write_sheets w resources (used, book)) = inr st' →
  ∃ l, sheet_names st'.2 = sheet_names book ++ l ∧
       l `sublist_of` map (base script) (keys resources).
Proof.
  revert used book.
  induction resources as [|[key items] rest IH]; intros used book Hnd Hall Hrun.
  - injection Hrun as <-. exists []. by rewrite app_nil_r.
  - cbn [keys map fst] in *. apply NoDup_cons in Hnd as [Hkey Hnd].
    apply Forall_cons in Hall as [[Hne Hfree] Hall].
    cbn [Script.write_sheets] in Hrun. rewrite outcome_bind in Hrun.
    assert (Forall (fun k => base script k ≠ [] ∧
                             (base script k ∉ {[ base script key ]} ∪ used))
              (map fst rest)) as Hall'.
    { apply Forall_forall. intros k Hk. rewrite Forall_forall in Hall.
      destruct (Hall k Hk) as [? ?]. split; [done|].
      intros [Heq%elem_of_singleton|?]%elem_of_union; [|done].
      apply Hkey. rewrite <- Heq. apply list_elem_of_fmap. by exists k. }
    unfold Script.write_sheet in Hrun.
    destruct (Script.frame_of w items) as [[msg| |]|df]; try done.
    + revert Hrun. run_io. intros Hrun.
      destruct (IH used book Hnd Hall Hrun) as (l & Hl & Hsub).
      exists l. split; [done|]. by apply sublist_cons.
    + rewrite (sanitize_fresh_base key used Hne Hfree) in Hrun.
      destruct (to_excel w df (base script key)) as [[msg| |]|]; try done.
      * revert Hrun. run_io. intros Hrun.
        destruct (IH _ book Hnd Hall' Hrun) as (l & Hl & Hsub).
        exists l. split; [done|]. by apply sublist_cons.
      * revert Hrun. run_io. intros Hrun.
        destruct (IH _ _ Hnd Hall' Hrun) as (l & Hl & Hsub).
        exists (base script key :: l). split; [|by apply sublist_skip].
        rewrite Hl. unfold sheet_names. rewrite fmap_app, <- app_assoc. done.
Qed.

(** The base of the key of a kind. *)
Lemma base_combined_key p k :
  base script (combined_key p k)
  = take 31 (Script.replace_invalid p ++ lit "__" ++ kind_key k).
Proof.
  unfold base, combined_key. rewrite slice_to_nonneg by done.
  change (Z.to_nat 31) with 31%nat. f_equal.
  unfold Script.replace_invalid. rewrite !map_app. f_equal. by destruct k.
Qed.

Lemma combined_key_inj p : Inj (=) (=) (combined_key p).
Proof.
  intros k1 k2 H. unfold combined_key in H. apply app_inv_head in H.
  by destruct k1, k2.
Qed.

Lemma gather_all_one w p :
  outcome (Script.gather_all w false [p] [])
  = inr (map (fun k => (combined_key p k,
                        match k with
                        | gke_clusters =>
                            if gke_enabled w p then listing w p gke_clusters else VList []
                        | _ => listing w p k
                        end)) all_kinds).
Proof.
  cbn [Script.gather_all]. run_io. rewrite outcome_gather_resources. run_io.
  cbn [fold_left fst snd map all_kinds]. fold (combined_key p compute_instances).
  fold (combined_key p gke_clusters). fold (combined_key p cloud_functions).
  fold (combined_key p sql_instances). fold (combined_key p storage_buckets).
  cbn [dict_set].
  repeat (rewrite decide_False by (by intros ?%combined_key_inj); cbn [dict_set]).
  reflexivity.
Qed.

End base_name_facts.

(** ** What the script does after it has saved the workbook *)

Section saved_facts.
Import Json Effects.

Lemma saved_files_app t1 t2 : saved_files (t1 ++ t2) = saved_files t1 ++ saved_files t2.
Proof. apply omap_app. Qed.

Lemma elem_of_saved_files path book t :
  Saved path book ∈ t ↔ (path, book) ∈ saved_files t.
Proof.
  unfold saved_files. rewrite list_elem_of_omap. split.
  - intros H. by exists (Saved path book).
  - intros (ev & Hin & Hev). destruct ev; try done. by injection Hev as -> ->.
Qed.

Lemma saved_bind {A B} (m : IO A) (f : A → IO B) :
  saved_files (trace (m ≫= f))
  = saved_files (trace m) ++ match outcome m with
                             | inr a => saved_files (trace (f a))
                             | inl _ => []
                             end.
Proof. rewrite trace_bind, saved_files_app. by destruct (outcome m). Qed.

Lemma saved_run_cmd w cmd : saved_files (trace (Script.run_cmd w cmd)) = [].
Proof. unfold Script.run_cmd. by destruct (subprocess_run w cmd). Qed.

Lemma saved_emit ev :
  saved_files (trace (emit ev))
  = match ev with Saved path book => [(path, book)] | _ => [] end.
Proof. by destruct ev. Qed.

Lemma saved_ret {A} (a : A) : saved_files (trace (mret a : IO A)) = [].
Proof. done. Qed.

Lemma saved_call r : saved_files (trace (call r)) = [].
Proof. by destruct r. Qed.

Lemma saved_is_service_enabled w project service :
  saved_files (trace (Script.is_service_enabled w project service)) = [].
Proof.
  unfold Script.is_service_enabled.
  rewrite saved_bind, saved_run_cmd, outcome_run_cmd.
  destruct (stdout_of _) as [[|c out]|]; try done.
  by destruct (Script.search_services _ _).
Qed.

End saved_facts.

(** Running a computation step by step and collecting the files it saves. *)
Ltac run_saved :=
  repeat (first [ rewrite saved_bind | rewrite outcome_bind
                | rewrite saved_run_cmd | rewrite outcome_run_cmd
                | rewrite saved_is_service_enabled | rewrite outcome_gke_enabled
                | rewrite saved_emit | rewrite outcome_emit
                | rewrite saved_ret | rewrite outcome_ret
                | rewrite saved_call | rewrite outcome_call ];
          cbv beta iota zeta).

Section after_save_facts.
Import Json Effects.

Lemma saved_gather_resources w project :
  saved_files (trace (Script.gather_resources w project)) = [].
Proof.
  unfold Script.gather_resources. run_saved.
  destruct (gke_enabled w project); by run_saved.
Qed.

Lemma saved_gather_asset_resources w project :
  saved_files (trace (Script.gather_asset_resources w project)) = [].
Proof.
  unfold Script.gather_asset_resources.
  destruct (asset_v1_importable w); cbn [negb]; [|by run_saved].
  run_saved. destruct (AssetServiceClient w); [done|]. cbv beta iota.
  run_saved. destruct (search_all_resources w _) as [results [[]|]]; by run_saved.
Qed.

Lemma saved_gather_all w use_asset projects combined :
  saved_files (trace (Script.gather_all w use_asset projects combined)) = [].
Proof.
  revert combined. induction projects as [|p rest IH]; intros combined; [done|].
  cbn [Script.gather_all]. run_saved. cbn [app]. destruct use_asset.
  - run_saved. rewrite saved_gather_asset_resources.
    destruct (outcome (Script.gather_asset_resources w p)); run_saved; [done|].
    cbn [app]. apply IH.
  - run_saved. rewrite saved_gather_resources, outcome_gather_resources.
    run_saved. cbn [app]. apply IH.
Qed.

Lemma saved_write_sheets w resources st :
  saved_files (trace (Script.write_sheets w resources st)) = [].
Proof.
  revert st. induction resources as [|[key items] rest IH]; intros st; [done|].
  cbn [Script.write_sheets]. rewrite saved_bind.
  assert (saved_files (trace (Script.write_sheet w key items st)) = []) as ->.
  { unfold Script.write_sheet. destruct st as [used book].
    destruct (Script.frame_of w items) as [[]|df]; try done.
    destruct (Script.sanitize key used) as [[s used']|]; [|done].
    by destruct (to_excel w df s) as [[]|]. }
  destruct (outcome _); [done|]. apply IH.
Qed.

(** The export saves one workbook, the one it returns, or none. *)
Lemma saved_script_export w resources path :
  saved_files (trace (Script.resources_to_excel w resources path))
  = match outcome (Script.resources_to_excel w resources path) with
    | inr book => [(path, book)]
    | inl _ => []
    end.
Proof.
  unfold Script.resources_to_excel. cbv zeta. run_saved.
  destruct (ExcelWriter w path); [done|]. cbv beta iota.
  run_saved. rewrite saved_write_sheets.
  destruct (outcome (Script.write_sheets _ _ _)) as [e|st]; [done|].
  run_saved. by destruct (save w path st.2).
Qed.

Lemma saved_script_upload w local_file bucket destination_path :
  saved_files (trace (Script.upload_to_gcs w local_file bucket destination_path)) = [].
Proof.
  unfold Script.upload_to_gcs. destruct bucket as [[|c b]|]; try done. by run_saved.
Qed.

Lemma saved_report_upload w a output : saved_files (trace (report_upload w a output)) = [].
Proof.
  unfold report_upload. destruct (Script.bucket a) as [[|c b]|]; try done.
  run_saved. rewrite saved_script_upload.
  destruct (outcome_script_upload w output (Some (c :: b)) None) as [[] ->]; by run_saved.
Qed.

(** Once the workbook is saved, what is left of the run is the upload and
    its report. *)
Lemma main_after_save w a path book :
  Saved path book ∈ trace (Script.main w a) →
  ∃ before,
    trace (Script.main w a) = before ++ trace (report_upload w a path) ∧
    outcome (Script.main w a) = outcome (report_upload w a path).
Proof.
  rewrite elem_of_saved_files. unfold Script.main.
  destruct (Script.or_else (Script.project a) (GOOGLE_CLOUD_PROJECT w)) as [[|c project]|].
  1, 3: by intros ?%elem_of_nil.
  cbv zeta.
  rewrite saved_bind, saved_gather_all, trace_bind, outcome_bind. cbn [app].
  destruct (outcome (Script.gather_all _ _ _ _)) as [e|combined];
    [by intros ?%elem_of_nil|].
  set (out := match Script.or_else (Script.output a) None with
              | Some o => _ | None => _ end).
  rewrite saved_bind, trace_bind, outcome_bind.
  assert (trace out = []) as Hout by (unfold out; by repeat case_match).
  rewrite Hout. change (saved_files []) with (@nil (str * workbook)). cbn [app].
  destruct (outcome out) as [e|o]; [by intros ?%elem_of_nil|].
  pose proof (saved_report_upload w a o) as Hr. unfold report_upload in Hr.
  run_saved. rewrite saved_script_export. run_io.
  destruct (outcome (Script.resources_to_excel w combined o)) as [e|bk];
    [by intros ?%elem_of_nil|].
  rewrite Hr. cbn [app]. intros [= -> ->]%list_elem_of_singleton.
  unfold report_upload.
  exists (trace (Script.gather_all w (Script.use_asset a)
                   (filter (fun p => p ≠ []) (map strip (Script.split_comma (c :: project))))
                   [])
          ++ Stdout (lit "Writing inventory to " ++ o)
             :: trace (Script.resources_to_excel w combined o)).
  split; [|done]. by rewrite <- app_assoc.
Qed.

End after_save_facts.

(** * Further properties of the code *)

(** ** Sheet names *)

(** X1. The name either sanitizer returns is never empty, and the set it
    leaves is the set it was given plus that name; the name the package's
    sanitizer returns has no white space at either end. *)
Theorem X1_name_not_empty (p : program) (label : str) (used : gset str) :
  ∃ s, sanitizer p label used = Some (s, {[ s ]} ∪ used) ∧ s ≠ [] ∧
    (p = package → strip s = s).
Proof.
  destruct (sanitizer_spec p label used) as (s & Hs & _ & Hne & _).
  exists s. repeat split; try done.
  intros ->. by eapply sanitizer_stripped.
Qed.

(** X2. Sanitizing is idempotent: a name a sanitizer has returned (for a
    set of a size a Python set can have) is returned unchanged when it is
    sanitized again on any set that does not hold it. *)
Theorem X2_sanitizer_idempotent
    (p : program) (label s : str) (used used1 used2 : gset str) :
  fits used → sanitizer p label used = Some (s, used1) → s ∉ used2 →
  sanitizer p s used2 = Some (s, {[ s ]} ∪ used2).
Proof.
  intros Hfit Hs Hfree.
  destruct (sanitizer_valid p label used) as (r & Hr & Hnf & _ & Hne & Hlen).
  rewrite Hr in Hs. injection Hs as <- _.
  assert (base p r = r) as Hb.
  { apply base_fixed; try done.
    - apply Hlen. unfold fits in Hfit. lia.
    - intros ->. by eapply sanitizer_stripped. }
  destruct (sanitizer_spec p r used2) as (r' & Hs' & _ & _ & Hcase).
  rewrite Hb in Hcase.
  destruct Hcase as [[-> _]|([Hin|[_ Hnil]] & _)]; done.
Qed.

Lemma X2_witness :
  fits ∅ ∧
  sanitizer package (lit " a:b/c ") ∅ = Some (lit "abc", {[ lit "abc" ]}) ∧
  sanitizer package (lit "abc") {[ lit "other" ]}
  = Some (lit "abc", {[ lit "abc" ]} ∪ {[ lit "other" ]}).
Proof.
  assert (fits ∅) as H1 by (vm_compute; discriminate).
  assert (sanitizer package (lit " a:b/c ") ∅ = Some (lit "abc", {[ lit "abc" ]})) as H2
    by (by vm_compute).
  assert (lit "abc" ∉ ({[ lit "other" ]} : gset str)) as H3.
  { intros H%elem_of_singleton. vm_compute in H. discriminate. }
  split; [exact H1|]. split; [exact H2|].
  exact (X2_sanitizer_idempotent package _ _ ∅ _ _ H1 H2 H3).
Defined.

(** ** The script's spreadsheet *)







(** ** The service check of the script *)





(** ** The commands of the per-kind mode *)


(** ** Collecting through the Cloud Asset API in the script *)





(** ** The run of the script *)

(** X11. Without a project ([--project] missing or empty, and the variable
    [GOOGLE_CLOUD_PROJECT] unset or empty) the script prints one line on the
    standard error stream and exits with status 2: it runs no command and
    writes nothing.  When [--project] is missing or empty and the variable
    is set, the run is the one [--project] with the value of the variable
    gives. *)
Theorem X11_missing_project_exits (w : Effects.world) (a : Script.args) :
  Script.project a = None ∨ Script.project a = Some [] →
  (Effects.GOOGLE_CLOUD_PROJECT w = None ∨ Effects.GOOGLE_CLOUD_PROJECT w = Some [] →
   Script.main w a
   = ([Effects.Stderr (lit "Project not provided via --project or GOOGLE_CLOUD_PROJECT environment variable")],
      inl (Effects.SystemExit 2))) ∧
  (∀ p, Effects.GOOGLE_CLOUD_PROJECT w = Some p →
     Script.main w a = Script.main w (with_project a p)).
Proof.
  intros Ha. split.
  - intros [Hw|Hw]; destruct Ha as [Ha|Ha]; unfold Script.main; by rewrite Ha, Hw.
  - intros p Hw. unfold Script.main, with_project. cbn [Script.project].
    destruct Ha as [Ha|Ha]; rewrite Ha, Hw; by destruct p.
Qed.

Lemma X11_witness :
  Script.main quiet_world
    {| Script.project := None; Script.bucket := Some (lit "reports");
       Script.output := None; Script.use_asset := false |}
  = ([Effects.Stderr (lit "Project not provided via --project or GOOGLE_CLOUD_PROJECT environment variable")],
     inl (Effects.SystemExit 2)) ∧
  Script.main env_project_world
    {| Script.project := None; Script.bucket := None;
       Script.output := None; Script.use_asset := false |}
  = Script.main env_project_world
      {| Script.project := Some (lit "demo"); Script.bucket := None;
         Script.output := None; Script.use_asset := false |}.
Proof.
  split.
  - apply (proj1 (X11_missing_project_exits quiet_world
                    {| Script.project := None; Script.bucket := Some (lit "reports");
                       Script.output := None; Script.use_asset := false |}
                    (or_introl eq_refl))).
    by left.
  - exact (proj2 (X11_missing_project_exits env_project_world
                    {| Script.project := None; Script.bucket := None;
                       Script.output := None; Script.use_asset := false |}
                    (or_introl eq_refl)) (lit "demo") eq_refl).
Defined.

(** X12. The projects the script gathers for are the pieces of the
    [--project] text between commas, stripped of surrounding white space,
    the empty ones left out: [main] starts by gathering for these, and
    each of them is non-empty, holds no comma and has no white space at
    either end. *)
Theorem X12_projects_are_trimmed (w : Effects.world) (a : Script.args) (project : str) :
  Script.project a = Some project → project ≠ [] →
  trace (Script.gather_all w (Script.use_asset a) (projects_of project) [])
    `prefix_of` trace (Script.main w a) ∧
  Forall (fun p => p ≠ [] ∧ (chr "," ∉ p) ∧ strip p = p) (projects_of project).
Proof.
  intros Hp Hne. split; [|apply projects_of_trimmed].
  rewrite (main_gathers w a project Hp Hne), trace_bind. by eexists.
Qed.

Lemma X12_witness :
  projects_of (lit " alpha, ,beta ,") = [lit "alpha"; lit "beta"] ∧
  Forall (fun p => p ≠ [] ∧ (chr "," ∉ p) ∧ strip p = p)
    (projects_of (lit " alpha, ,beta ,")).
Proof.
  split; [by vm_compute|].
  apply (X12_projects_are_trimmed quiet_world
           {| Script.project := Some (lit " alpha, ,beta ,"); Script.bucket := None;
              Script.output := None; Script.use_asset := false |}
           (lit " alpha, ,beta ,") eq_refl).
  discriminate.
Defined.

(** X13. A [--project] text of commas and white space only names no
    project: the script gathers nothing and, no [--output] being given,
    ends with an [IndexError] when it builds the file name from the first
    project; it writes nothing. *)
Theorem X13_blank_project_list (w : Effects.world) (a : Script.args) (project : str) :
  Script.project a = Some project → project ≠ [] → blank project →
  Script.output a = None ∨ Script.output a = Some [] →
  Script.main w a = ([], inl (Effects.Exception (lit "list index out of range"))).
Proof.
  intros Hp Hne Hblank Hout. rewrite (main_gathers w a project Hp Hne).
  apply projects_of_nil in Hblank. rewrite Hblank.
  by destruct Hout as [-> | ->].
Qed.

Lemma X13_witness :
  Script.main quiet_world
    {| Script.project := Some (lit " , ,"); Script.bucket := Some (lit "reports");
       Script.output := None; Script.use_asset := false |}
  = ([], inl (Effects.Exception (lit "list index out of range"))).
Proof.
  apply (X13_blank_project_list quiet_world
           {| Script.project := Some (lit " , ,"); Script.bucket := Some (lit "reports");
              Script.output := None; Script.use_asset := false |}
           (lit " , ,") eq_refl).
  - discriminate.
  - repeat (constructor; [first [left; reflexivity | right; reflexivity]|]).
    constructor.
  - by left.
Defined.



(** X15. The script copies to the bucket only a workbook it has saved: in
    every run of [main], a [gcloud storage cp] command comes after the
    workbook was saved; and without [--bucket] no such command is run. *)
Theorem X15_copy_only_after_save (w : Effects.world) (a : Script.args) :
  (∀ t1 cmd t2,
     trace (Script.main w a) = t1 ++ Effects.Subprocess cmd :: t2 →
     is_copy cmd = true →
     ∃ path book, Effects.Saved path book ∈ t1) ∧
  (Script.bucket a = None ∨ Script.bucket a = Some [] →
   ∀ cmd, Effects.Subprocess cmd ∈ trace (Script.main w a) → is_copy cmd = false).
Proof.
  split.
  - intros t1 cmd t2 Ht Hc.
    destruct (proj1 (Exists_exists _ _)
                (script_main_copy_after_save w a t1 _ t2 Ht
                   (ex_intro _ cmd (conj eq_refl Hc))))
      as (ev & Hin & path & book & ->).
    by exists path, book.
  - intros Hb cmd Hin%elem_of_commands.
    pose proof (script_main_no_bucket_no_copy w a Hb) as H.
    rewrite Forall_forall in H. by apply H.
Qed.

Lemma X15_witness :
  ∃ path book,
    Effects.Saved path book
      ∈ take 5 (trace (Script.main quiet_world
                         {| Script.project := Some (lit "demo");
                            Script.bucket := Some (lit "reports");
                            Script.output := Some (lit "inv.xlsx");
                            Script.use_asset := true |})).
Proof.
  apply (proj1 (X15_copy_only_after_save quiet_world
                  {| Script.project := Some (lit "demo");
                     Script.bucket := Some (lit "reports");
                     Script.output := Some (lit "inv.xlsx");
                     Script.use_asset := true |})
           _ (copy_command (lit "inv.xlsx") (lit "reports") None)
           (drop 6 (trace (Script.main quiet_world
                             {| Script.project := Some (lit "demo");
                                Script.bucket := Some (lit "reports");
                                Script.output := Some (lit "inv.xlsx");
                                Script.use_asset := true |})))).
  - by vm_compute.
  - by vm_compute.
Defined.

(** ** The package *)

(** X16. [collect_assets] returns all or nothing: it returns exactly when
    the client is created, the search ends without an exception and every
    result converts, and then it returns the converted results, one for
    each result and in order, and logs their number.  Otherwise it raises:
    no partial list is returned. *)
Theorem X16_collect_assets_all_or_nothing
    (w : Effects.world) (project : str) (results : list Effects.asset)
    (failure : option Effects.exn) (resources : list (list (str * Json.value))) :
  Effects.search_all_resources w (lit "projects/" ++ project) = (results, failure) →
  (outcome (Package.collect_assets w project) = inr resources ↔
   Effects.AssetServiceClient w = None ∧ failure = None ∧
   Forall2 converts_to results resources) ∧
  (outcome (Package.collect_assets w project) = inr resources →
   length resources = length results ∧
   Effects.Log (lit "Collected " ++ str_of_int (N.of_nat (length results))
                ++ lit " resources from Cloud Asset")
     ∈ trace (Package.collect_assets w project)).
Proof.
  intros Hs. destruct (collect_assets_run w project results failure Hs) as [Hrun _].
  assert (outcome (Package.collect_assets w project) = inr resources ↔
          Effects.AssetServiceClient w = None ∧ failure = None ∧
          Forall2 converts_to results resources) as Hiff.
  { rewrite Hrun, <- convert_all_spec.
    destruct (Effects.AssetServiceClient w); [split; [done|by intros (? & _)]|].
    destruct (Package.convert_all results) as [e|ds]; [split; [done|by intros (_ & _ & ?)]|].
    destruct failure; [split; [done|by intros (_ & ? & _)]|].
    split; [by intros [= ->]|by intros (_ & _ & [= ->])]. }
  split; [exact Hiff|].
  intros (Hclient & -> & Hconv)%Hiff.
  pose proof (Forall2_length _ _ _ Hconv) as Hlen. split; [done|].
  apply convert_all_spec in Hconv.
  unfold Package.collect_assets. rewrite Hclient, Hs, Hconv, Hlen.
  unfold trace. cbn. rewrite !elem_of_cons. auto.
Qed.

Lemma X16_witness :
  outcome (Package.collect_assets odd_asset_world (lit "demo")) = inl (Effects.Exception (lit "cannot convert")) ∧
  ∀ resources,
    outcome (Package.collect_assets odd_asset_world (lit "demo")) = inr resources ↔
    Effects.AssetServiceClient odd_asset_world = None ∧ (None : option Effects.exn) = None ∧
    Forall2 converts_to [vm_asset; odd_asset] resources.
Proof.
  split; [by vm_compute|]. intros resources.
  exact (proj1 (X16_collect_assets_all_or_nothing odd_asset_world (lit "demo")
                  [vm_asset; odd_asset] None resources eq_refl)).
Defined.



(** X18. The package uploads only the workbook it has saved: in every run
    of [main], an upload comes after the output file was saved with the
    one sheet [assets]; it is made only in the [--use-asset] mode, sends
    that file, to the bucket of [--bucket], under the base name of the
    file. *)
Theorem X18_upload_only_after_save (w : Effects.world) (a : Package.args) :
  ∀ t1 bucket destination file t2,
    trace (Package.main w a)
    = t1 ++ Effects.UploadFromFilename bucket destination file :: t2 →
    Package.use_asset a = true ∧
    bucket = Package.bucket a ∧ file = out_file w a ∧
    destination = Package.basename file ∧
    ∃ book, Effects.Saved file book ∈ t1 ∧ sheet_names book = [lit "assets"].
Proof.
  intros t1 b d f t2 Ht.
  destruct (package_main_upload_after_save w a) as [Hafter Hall].
  assert (uploads (Effects.UploadFromFilename b d f)) as Hup by (by eexists _, _, _).
  rewrite Forall_forall in Hall.
  destruct (Hall (Effects.UploadFromFilename b d f)) as [Hmode [= -> -> ->]]; [|done|].
  { rewrite Ht. apply elem_of_app. right. left. }
  repeat split; try done.
  destruct (proj1 (Exists_exists _ _) (Hafter t1 _ t2 Ht Hup))
    as (ev & Hin & book & -> & Hbook).
  by exists book.
Qed.

Lemma X18_witness :
  Package.use_asset
    {| Package.project := lit "demo"; Package.bucket := lit "reports";
       Package.output := Some (lit "out/inv.xlsx"); Package.use_asset := true |} = true ∧
  lit "reports"
  = Package.bucket
      {| Package.project := lit "demo"; Package.bucket := lit "reports";
         Package.output := Some (lit "out/inv.xlsx"); Package.use_asset := true |} ∧
  lit "out/inv.xlsx"
  = out_file quiet_world
      {| Package.project := lit "demo"; Package.bucket := lit "reports";
         Package.output := Some (lit "out/inv.xlsx"); Package.use_asset := true |} ∧
  lit "inv.xlsx" = Package.basename (lit "out/inv.xlsx") ∧
  ∃ book,
    Effects.Saved (lit "out/inv.xlsx") book
      ∈ take 6 (trace (Package.main quiet_world
                         {| Package.project := lit "demo"; Package.bucket := lit "reports";
                            Package.output := Some (lit "out/inv.xlsx");
                            Package.use_asset := true |})) ∧
    sheet_names book = [lit "assets"].
Proof.
  apply (X18_upload_only_after_save quiet_world
           {| Package.project := lit "demo"; Package.bucket := lit "reports";
              Package.output := Some (lit "out/inv.xlsx"); Package.use_asset := true |}
           _ (lit "reports") (lit "inv.xlsx") (lit "out/inv.xlsx")
           (drop 7 (trace (Package.main quiet_world
                             {| Package.project := lit "demo"; Package.bucket := lit "reports";
                                Package.output := Some (lit "out/inv.xlsx");
                                Package.use_asset := true |})))).
  by vm_compute.
Defined.


(** X20. In the script, only the search is guarded: an exception raised
    when the client of the Cloud Asset API is created is not caught.  With
    [--use-asset] it ends the run at the first project, before anything is
    searched, written or copied. *)
Theorem X20_client_failure_ends_the_run
    (w : Effects.world) (a : Script.args) (project : str) (e : Effects.exn) :
  Script.project a = Some project → ¬ blank project →
  Script.use_asset a = true →
  Effects.asset_v1_importable w = true →
  Effects.AssetServiceClient w = Some e →
  ∃ p0 rest,
    projects_of project = p0 :: rest ∧
    Script.main w a
    = ([Effects.Stdout (lit "Gathering resources for project: " ++ p0)], inl e).
Proof.
  intros Hp Hnb Hmode Hlib Hclient.
  assert (project ≠ []) as Hne by (intros ->; apply Hnb; constructor).
  assert (projects_of project ≠ []) as Hps by (by rewrite projects_of_nil).
  rewrite (main_gathers w a project Hp Hne), Hmode.
  destruct (projects_of project) as [|p0 rest]; [done|].
  exists p0, rest. split; [done|].
  cbn [Script.gather_all]. unfold Script.gather_asset_resources.
  by rewrite Hlib, Hclient.
Qed.

Lemma X20_witness :
  ∃ p0 rest,
    projects_of (lit "demo") = p0 :: rest ∧
    Script.main no_credentials_world
      {| Script.project := Some (lit "demo"); Script.bucket := Some (lit "reports");
         Script.output := None; Script.use_asset := true |}
    = ([Effects.Stdout (lit "Gathering resources for project: " ++ p0)],
       inl (Effects.Exception (lit "DefaultCredentialsError"))).
Proof.
  apply (X20_client_failure_ends_the_run no_credentials_world
           {| Script.project := Some (lit "demo"); Script.bucket := Some (lit "reports");
              Script.output := None; Script.use_asset := true |}
           (lit "demo") _ eq_refl); try reflexivity.
  intros H. apply Forall_cons in H as [[H|H] _]; vm_compute in H; discriminate.
Defined.

(** ** Sheet names and keys *)






